(** * Resilient generation and batch orchestration: a shallow embedding

    The development follows the three Python modules of the backend:
    [generate_api.py] (response validation, JSON span extraction, health
    check, fan-out generation), [storage.py] (the CSV-backed table store)
    and [app.py] (the two batch loops).

    Conventions of the embedding.
    - A Python [str] is a [string]; one character stands for one code point
      (code points below 256).
    - A Python [int] is a [Z].
    - A Python exception is a value of [exn]; code that may raise returns a
      [Result].
    - A [dict] read from JSON is a [gmap string pyval]; a dict whose
      iteration order is observable is an association list. *)

From Stdlib Require Import ZArith List String Ascii Bool Lia.
From Stdlib Require Import DecimalString DecimalZ.
From stdpp Require Import base gmap strings list fin_maps.

Import ListNotations.
Local Open Scope string_scope.
Local Open Scope Z_scope.

(** ** Python values and exceptions *)

#[warnings="-register-all"]
Inductive pyval : Type :=
  | VNone
  | VBool (b : bool)
  | VInt (z : Z)
  | VFloat (repr : string)
  | VStr (s : string)
  | VList (items : list pyval)
  | VDict (entries : list (string * pyval)).

Inductive exn : Type :=
  | ValueError (msg : string)
  | RuntimeError (msg : string)
  | KeyError (key : string)
  | TypeError (msg : string)
  | AttributeError (msg : string)
  | OSError (msg : string)
  | RequestException (msg : string).

Inductive Result (A : Type) : Type :=
  | Ok (a : A)
  | Raise (e : exn).
Arguments Ok {A} a.
Arguments Raise {A} e.

Definition is_ok {A} (r : Result A) : bool :=
  match r with Ok _ => true | Raise _ => false end.

#[global] Instance Result_ret : MRet Result := fun _ a => Ok a.
#[global] Instance Result_bind : MBind Result := fun _ _ f r =>
  match r with
  | Ok a => f a
  | Raise e => Raise e
  end.

(** [len(x)] as a Python int. *)
Definition len {A} (l : list A) : Z := Z.of_nat (length l).

(** [l[:n]]: a negative bound counts from the end. *)
Definition slice_to {A} (l : list A) (n : Z) : list A :=
  if 0 <=? n then take (Z.to_nat n) l
  else take (Z.to_nat (len l + n)) l.

(** ** Python string operations *)

Definition string_empty (s : string) : bool :=
  match s with EmptyString => true | String _ _ => false end.

(** [c.isspace()] on the code points below 256. *)
Definition isspace (c : ascii) : bool :=
  let n := nat_of_ascii c in
  ((9 <=? n)%nat && (n <=? 13)%nat) || ((28 <=? n)%nat && (n <=? 32)%nat)
  || (n =? 133)%nat || (n =? 160)%nat.

Fixpoint lstrip (s : string) : string :=
  match s with
  | EmptyString => EmptyString
  | String c s' => if isspace c then lstrip s' else s
  end.

Fixpoint rstrip (s : string) : string :=
  match s with
  | EmptyString => EmptyString
  | String c s' =>
      let r := rstrip s' in
      if isspace c && string_empty r then EmptyString else String c r
  end.

(** [s.strip()] *)
Definition strip (s : string) : string := rstrip (lstrip s).

(** [s.startswith(p)] *)
Definition startswith (s p : string) : bool := String.prefix p s.

(** [s.startswith((p1, p2, ...))] *)
Definition startswith_any (s : string) (ps : list string) : bool :=
  existsb (startswith s) ps.

(** [needle in hay] *)
Fixpoint contains (needle hay : string) : bool :=
  String.prefix needle hay ||
  match hay with
  | EmptyString => false
  | String _ hay' => contains needle hay'
  end.

(** [s.find(c)] for a one-character needle; [None] stands for -1. *)
Fixpoint find_char (c : ascii) (s : string) : option nat :=
  match s with
  | EmptyString => None
  | String a s' =>
      if Ascii.eqb a c then Some 0%nat else S <$> find_char c s'
  end.

(** [s[n:]] *)
Fixpoint string_drop (n : nat) (s : string) : string :=
  match n, s with
  | O, _ => s
  | S n', String _ s' => string_drop n' s'
  | S _, EmptyString => EmptyString
  end.

(** [enumerate(items, start)] *)
Fixpoint enumerate {A} (start : nat) (items : list A) : list (nat * A) :=
  match items with
  | [] => []
  | x :: items' => (start, x) :: enumerate (S start) items'
  end.

(** [str(i)] for an int. *)
Definition str_of_int (z : Z) : string :=
  NilEmpty.string_of_int (Z.to_int z).

(** [s.count(c)] for a one-character needle. *)
Fixpoint count_char (c : ascii) (s : string) : Z :=
  match s with
  | EmptyString => 0
  | String a s' => (if Ascii.eqb a c then 1 else 0) + count_char c s'
  end.

(** [c * n] for a one-character string [c]: empty when [n <= 0]. *)
Definition string_repeat (c : ascii) (n : Z) : string :=
  string_of_list_ascii (replicate (Z.to_nat n) c).

Definition newline : ascii := ascii_of_nat 10.

(** [s.split('\n')] *)
Fixpoint split_lines (s : string) : list string :=
  match s with
  | EmptyString => [EmptyString]
  | String c s' =>
      if Ascii.eqb c newline then EmptyString :: split_lines s'
      else
        match split_lines s' with
        | [] => [String c EmptyString]
        | line :: lines => String c line :: lines
        end
  end.

(** ['\n'.join(lines)] *)
Fixpoint join_lines (lines : list string) : string :=
  match lines with
  | [] => EmptyString
  | line :: lines' =>
      match lines' with
      | [] => line
      | _ :: _ => line ++ String newline (join_lines lines')
      end
  end.

(** [l[lo:hi]] for Python ints: a negative bound counts from the end, and
    both bounds are clamped to the list. *)
Definition clamp_index (n i : Z) : Z :=
  if i <? 0 then Z.max 0 (i + n) else Z.min i n.

Definition py_slice {A} (l : list A) (lo hi : Z) : list A :=
  let lo' := clamp_index (len l) lo in
  let hi' := clamp_index (len l) hi in
  take (Z.to_nat (hi' - lo')) (drop (Z.to_nat lo') l).

Module generate_api.

(** *** [_validate_output] *)

Definition required : list string :=
  ["q_en"; "a_en"; "q_hi"; "a_hi"; "q_sa"; "a_sa"].

(** [while len(j[k]) < n: j[k].append("")] *)
Definition pad_to (l : list pyval) (n : Z) : list pyval :=
  l ++ replicate (Z.to_nat (n - len l)) (VStr "").

(** The body of the loop over [required], for one key. *)
Definition validate_key (n : Z) (j : gmap string pyval) (k : string)
  : Result (gmap string pyval) :=
  match j !! k with
  | None => Raise (ValueError ("Missing key " ++ k ++ " in model output"))
  | Some (VList l) =>
      if len l =? n then Ok j
      else if n <? len l then Ok (<[k := VList (slice_to l n)]> j)
      else Ok (<[k := VList (pad_to l n)]> j)
  | Some _ => Raise (ValueError ("Key " ++ k ++ " must be a list"))
  end.

Fixpoint validate_keys (n : Z) (ks : list string) (j : gmap string pyval)
  : Result (gmap string pyval) :=
  match ks with
  | [] => Ok j
  | k :: ks' => j' ← validate_key n j k; validate_keys n ks' j'
  end.

(** [_validate_output(j, n)] mutates [j]; the embedding returns the
    mutated dict. *)
Definition _validate_output (j : gmap string pyval) (n : Z)
  : Result (gmap string pyval) :=
  validate_keys n required j.

(** *** [_extract_first_json] *)

Definition quote_char : ascii := ascii_of_nat 34.
Definition backslash : ascii := ascii_of_nat 92.
Definition is_open (c : ascii) : bool := Ascii.eqb c "{" || Ascii.eqb c "[".
Definition is_close (c : ascii) : bool := Ascii.eqb c "}" || Ascii.eqb c "]".

(** The [for i in range(start, len(s))] loop: [rest] is [s[i:]]; the
    result is the index [i] at which the loop returns. *)
Fixpoint scan (rest : string) (i : nat) (depth : Z) (in_string escape : bool)
  : option nat :=
  match rest with
  | EmptyString => None
  | String c rest' =>
      if escape then scan rest' (S i) depth in_string false
      else if Ascii.eqb c backslash then scan rest' (S i) depth in_string true
      else if Ascii.eqb c quote_char && negb escape
        then scan rest' (S i) depth (negb in_string) escape
      else if negb in_string then
        if is_open c then scan rest' (S i) (depth + 1) in_string escape
        else if is_close c then
          if depth - 1 =? 0 then Some i
          else scan rest' (S i) (depth - 1) in_string escape
        else scan rest' (S i) depth in_string escape
      else scan rest' (S i) depth in_string escape
  end.

Definition _extract_first_json (s : string) : option string :=
  if string_empty s then None
  else
    match find_char "{" s with
    | None => None
    | Some start =>
        match scan (string_drop start s) start 0 false false with
        | Some i => Some (substring start (i + 1 - start) s)
        | None => None
        end
    end.

(** *** [_repair_incomplete_json] and [_try_parse_response] *)

Section parsing.

(** [json.loads] of the standard library. Its [JSONDecodeError], the only
    error the two functions catch, is the [ValueError] of the result; any
    other exception passes through them. A decoded object is a [VDict]. *)
Variable json_loads : string -> Result pyval.

(** [try: parsed = json.loads(text)
          if isinstance(parsed, dict): return parsed
     except json.JSONDecodeError: pass]:
    the dict to return, if there is one. *)
Definition loads_dict (text : string) : Result (option (list (string * pyval))) :=
  match json_loads text with
  | Ok (VDict entries) => Ok (Some entries)
  | Ok _ => Ok None
  | Raise (ValueError _) => Ok None
  | Raise e => Raise e
  end.

Definition _repair_incomplete_json (json_str : string)
  : Result (option (list (string * pyval))) :=
  let open_braces := count_char "{" json_str + count_char "[" json_str in
  let close_braces := count_char "}" json_str + count_char "]" json_str in
  if close_braces <? open_braces then
    let missing_braces := open_braces - close_braces in
    let repaired :=
      json_str ++ string_repeat "}" missing_braces
               ++ string_repeat "]" (missing_braces / 2) in
    loads_dict repaired
  else Ok None.

(** [for i, line in enumerate(lines):
       if line.strip().startswith('{'): json_start = i; break] *)
Fixpoint find_json_start (lines : list string) : option nat :=
  match lines with
  | [] => None
  | line :: lines' =>
      if startswith (strip line) "{" then Some 0%nat
      else S <$> find_json_start lines'
  end.

(** The text the three parsing attempts work on. *)
Definition cleaned_text (resp_text : string) : string :=
  let lines := split_lines resp_text in
  match find_json_start lines with
  | Some json_start => join_lines (drop json_start lines)
  | None => resp_text
  end.

Definition _try_parse_response (resp_text : string)
  : Result (option (list (string * pyval))) :=
  if string_empty resp_text || string_empty (strip resp_text) then Ok None
  else
    let cleaned := cleaned_text resp_text in
    direct ← loads_dict cleaned;
    match direct with
    | Some parsed => Ok (Some parsed)
    | None =>
        from_span ←
          match _extract_first_json cleaned with
          | Some extracted =>
              if string_empty extracted then Ok None else loads_dict extracted
          | None => Ok None
          end;
        match from_span with
        | Some parsed => Ok (Some parsed)
        | None =>
            repaired ← _repair_incomplete_json cleaned;
            match repaired with
            | Some (entry :: entries) => Ok (Some (entry :: entries))
            | _ => Ok None
            end
        end
    end.

End parsing.

(** *** Configuration and the generation service *)

(** Module-level configuration: the [MODEL_NAME] environment variable
    ([None] when unset), [MAX_RETRIES] and the prompt template as the
    function [PROMPT_TEMPLATE.format(sanskrit=.., english=..)]. *)
Record Config := {
  MODEL_NAME : option string;
  MAX_RETRIES : Z;
  PROMPT_TEMPLATE : string -> string -> string;
}.

(** The answer to [GET /api/tags]: the status code and, when the body
    decodes, the [name] of every entry of [models]. *)
Record TagsResponse := {
  status_code : Z;
  model_names : Result (list string);
}.

(** The body of a generate request, as far as it is determined by the
    arguments (the sampling temperature is random). *)
Record Request := {
  req_model : string;
  req_prompt : string;
}.

(** What one round trip of [_generate_single_qa] observes: either the
    request, [raise_for_status] or the body decoding raises, or
    [_try_parse_response] yields its optional dict. *)
Inductive Reply : Type :=
  | PostRaises (e : exn)
  | Parsed (p : option (gmap string pyval)).

(** The service as seen by one call of [generate_for_row]: [post req r a]
    is the reply to round trip number [a] of the task that completes in
    position [r]. *)
Record Service := {
  get_tags : Result TagsResponse;
  post : Request -> nat -> nat -> Reply;
}.

Definition build_prompt (cfg : Config) (sanskrit english : string) : string :=
  PROMPT_TEMPLATE cfg (strip sanskrit) (strip english).

(** *** [_check_server_health] *)

Definition _check_server_health (cfg : Config) (srv : Service) : bool :=
  match get_tags srv with
  | Raise _ => false
  | Ok tags_response =>
      if negb (status_code tags_response =? 200) then false
      else
        match model_names tags_response with
        | Raise _ => false
        | Ok names =>
            let target_model := default "gpt-oss:120b" (MODEL_NAME cfg) in
            if negb (existsb (contains target_model) names) then false
            else true
        end
  end.

(** *** [_generate_single_qa] *)

(** The retry loop over [range(1, MAX_RETRIES + 1)]; the second component
    is the list of requests sent. *)
Fixpoint retry_loop (srv : Service) (req : Request) (rank : nat)
    (attempts : list nat) (last_err : option exn)
  : Result (gmap string pyval) * list Request :=
  match attempts with
  | [] => (Raise (default (RuntimeError "Single generation failed") last_err), [])
  | attempt :: rest =>
      let again e :=
        let '(r, sent) := retry_loop srv req rank rest (Some e) in
        (r, req :: sent) in
      match post srv req rank attempt with
      | PostRaises e => again e
      | Parsed None =>
          again (ValueError "Failed to parse valid JSON from model response")
      | Parsed (Some parsed) =>
          if bool_decide (parsed = ∅)
          then again (ValueError "Failed to parse valid JSON from model response")
          else
            match _validate_output parsed 1 with
            | Ok parsed' => (Ok parsed', [req])
            | Raise e => again e
            end
      end
  end.

Definition _generate_single_qa (cfg : Config) (srv : Service) (rank : nat)
    (sanskrit english model : string)
  : Result (gmap string pyval) * list Request :=
  let req := {| req_model := model;
                req_prompt := build_prompt cfg sanskrit english |} in
  retry_loop srv req rank (seq 1 (Z.to_nat (MAX_RETRIES cfg))) None.

(** *** [generate_for_row] *)

(** Iterating a value, as [list.extend] does. *)
Definition py_iter (v : pyval) : option (list pyval) :=
  match v with
  | VList l => Some l
  | VStr s => Some (map (fun c => VStr (String c EmptyString)) (list_ascii_of_string s))
  | VDict d => Some (map (fun kv => VStr (fst kv)) d)
  | _ => None
  end.

(** [for key in results.keys(): results[key].extend(result[key])]; an
    exception leaves the loop with the extensions made so far. *)
Fixpoint merge_keys (ks : list string) (result results : gmap string pyval)
  : gmap string pyval :=
  match ks with
  | [] => results
  | key :: ks' =>
      match result !! key ≫= py_iter, results !! key with
      | Some items, Some (VList acc) =>
          merge_keys ks' result (<[key := VList (acc ++ items)]> results)
      | _, _ => results
      end
  end.

(** One turn of the [as_completed] loop. *)
Definition merge (results : gmap string pyval)
    (outcome : Result (gmap string pyval)) : gmap string pyval :=
  match outcome with
  | Ok result => merge_keys required result results
  | Raise _ => results
  end.

Definition empty_results : gmap string pyval :=
  list_to_map (map (fun k => (k, VList [])) required).

(** The outcomes of the [n] submitted tasks, in completion order. *)
Definition run_tasks (cfg : Config) (srv : Service)
    (sanskrit english model : string) (n : Z)
  : list (Result (gmap string pyval) * list Request) :=
  map (fun rank => _generate_single_qa cfg srv rank sanskrit english model)
      (seq 0 (Z.to_nat n)).

(** [generate_for_row(sanskrit, english, model, n)]; the second component
    is the list of generate requests sent. [ThreadPoolExecutor] refuses
    [max_workers <= 0] with a [ValueError]. *)
Definition generate_for_row (cfg : Config) (srv : Service)
    (sanskrit english model : string) (n : Z)
  : Result (gmap string pyval) * list Request :=
  if negb (_check_server_health cfg srv)
  then (Raise (RuntimeError "Ollama server is not available or model not found"), [])
  else if n <=? 0
  then (Raise (ValueError "max_workers must be greater than 0"), [])
  else
    let tasks := run_tasks cfg srv sanskrit english model n in
    let results := fold_left merge (map fst tasks) empty_results in
    (_validate_output results n, concat (map snd tasks)).

End generate_api.

Module storage.

(** *** The table *)

(** A [DataFrame] as [CSVStorage] holds it after [fillna("")]: the column
    labels in order, and one map from column label to cell text per row
    (the rows are labelled 0, 1, ...). *)
Record DataFrame := {
  columns : list string;
  rows : list (gmap string string);
}.

Definition empty_frame : DataFrame := {| columns := []; rows := [] |}.

Definition has_column (df : DataFrame) (col : string) : bool :=
  bool_decide (col ∈ columns df).

(** [df[col] = v]: a new column goes last; every row gets [v]. *)
Definition set_column (df : DataFrame) (col v : string) : DataFrame :=
  {| columns := if has_column df col then columns df else columns df ++ [col];
     rows := (fun r => <[col := v]> r) <$> rows df |}.

(** [df.at[idx, col] = v] for an existing row label and column. *)
Definition at_set (df : DataFrame) (idx : nat) (col v : string) : DataFrame :=
  {| columns := columns df;
     rows := alter (fun r => <[col := v]> r) idx (rows df) |}.

(** The cell of row [idx] in column [col]. *)
Definition cell (df : DataFrame) (idx : nat) (col : string) : option string :=
  rows df !! idx ≫= fun r => r !! col.

(** *** The file system *)

(** A file holds the records written to it so far; a record is the list of
    the fields of one CSV line. *)
Inductive fs_op : Type :=
  | Create (path : string)
  | Append (path : string) (record : list string)
  | Replace (src dst : string).

Definition fs_step (fs : gmap string (list (list string))) (op : fs_op)
  : gmap string (list (list string)) :=
  match op with
  | Create path => <[path := []]> fs
  | Append path record => alter (fun recs : list (list string) => (recs ++ [record])%list) path fs
  | Replace src dst =>
      match fs !! src with
      | Some content => <[dst := content]> (delete src fs)
      | None => fs
      end
  end.

Definition fs_run (ops : list fs_op) (fs : gmap string (list (list string)))
  : gmap string (list (list string)) :=
  fold_left fs_step ops fs.

(** The records [df.to_csv(path, index=False)] writes: the header, then
    one record per row. *)
Definition csv_records (df : DataFrame) : list (list string) :=
  columns df ::
  map (fun r => map (fun col => default "" (r !! col)) (columns df)) (rows df).

Definition to_csv (df : DataFrame) (path : string) : list fs_op :=
  Create path :: map (Append path) (csv_records df).

(** *** [CSVStorage] *)

Record CSVStorage := {
  csv_path : string;
  df : DataFrame;
}.

(** The tail shared by the two writers:
    [tmp = self.csv_path + ".tmp"; self.df.to_csv(tmp, ...);
     os.replace(tmp, self.csv_path)]. *)
Definition persist (st : CSVStorage) : list fs_op :=
  let tmp := csv_path st ++ ".tmp" in
  to_csv (df st) tmp ++ [Replace tmp (csv_path st)].

Definition row_count (st : CSVStorage) : Z := len (rows (df st)).

(** [get_row]; the integer entry [id] added to the returned dict is left
    out, the cells being strings. *)
Definition get_row (st : CSVStorage) (idx : Z) : option (gmap string string) :=
  if (idx <? 0) || (len (rows (df st)) <=? idx) then None
  else rows (df st) !! Z.to_nat idx.

(** *** [list_rows] *)

Section listing.

(** [re.compile(q)] as the test [search(x) is not None], or the error of
    a pattern that does not compile: [Series.str.contains] reads its
    pattern as a regular expression. *)
Variable re_compile : string -> Result (string -> bool).

(** One entry of the list [list_rows] returns: the dict with the keys
    [id], [sanskrit], [english] and [tags]. *)
Record listed_row := {
  row_id : Z;
  row_sanskrit : string;
  row_english : string;
  row_tags : string;
}.

(** [df[col].astype(str).str.contains(q, na=False)]: one boolean per row. *)
Definition column_contains (d : DataFrame) (col q : string)
  : Result (list bool) :=
  if has_column d col then
    search ← re_compile q;
    Ok (map (fun r : gmap string string => search (default "" (r !! col))) (rows d))
  else Raise (KeyError col).

(** The rows left by [df = df[mask]], each with its label. *)
Definition select_rows (d : DataFrame) (q : string)
  : Result (list (nat * gmap string string)) :=
  let labelled := enumerate 0 (rows d) in
  if string_empty q then Ok labelled
  else
    in_sanskrit ← column_contains d "sanskrit" q;
    in_english ← column_contains d "english" q;
    let mask := zip_with orb in_sanskrit in_english in
    mask' ← (if has_column d "tags" then
               in_tags ← column_contains d "tags" q;
               Ok (zip_with orb mask in_tags)
             else Ok mask);
    Ok (map fst (List.filter snd (zip labelled mask'))).

Definition list_rows (st : CSVStorage) (skip limit : Z) (q : string)
  : Result (list listed_row) :=
  selected ← select_rows (df st) q;
  Ok (map (fun p : nat * gmap string string =>
             {| row_id := Z.of_nat (fst p);
                row_sanskrit := substring 0 120 (default "" (snd p !! "sanskrit"));
                row_english := substring 0 240 (default "" (snd p !! "english"));
                row_tags := default "" (snd p !! "tags") |})
          (py_slice selected skip (skip + limit))).

End listing.

(** *** [headers_for_qa_count] and [ensure_headers] *)

(** [range(1, n + 1)] *)
Definition range1 (n : Z) : list Z := map Z.of_nat (seq 1 (Z.to_nat n)).

Definition headers_for_qa_count (n : Z) : list string :=
  ["sanskrit"; "english"; "tags"] ++
  flat_map (fun lang =>
    flat_map (fun i =>
      ["q_" ++ lang ++ "_" ++ str_of_int i; "a_" ++ lang ++ "_" ++ str_of_int i])
      (range1 n))
    ["en"; "hi"; "sa"].

Definition ensure_column (d : DataFrame) (col : string) : DataFrame :=
  if has_column d col then d else set_column d col "".

Definition ensure_headers (st : CSVStorage) (count : Z)
  : CSVStorage * list fs_op :=
  let headers := headers_for_qa_count count in
  let st' := {| csv_path := csv_path st;
                df := fold_left ensure_column headers (df st) |} in
  (st', persist st').

(** *** [update_row_with_qas] *)

Section update.

(** [str] of a list or of a dict (Python's [repr] of containers). *)
Variable repr : pyval -> string.

Definition py_str (v : pyval) : string :=
  match v with
  | VNone => "None"
  | VBool true => "True"
  | VBool false => "False"
  | VInt z => str_of_int z
  | VFloat r => r
  | VStr s => s
  | VList _ | VDict _ => repr v
  end.

(** [str(item) if item is not None else ""] *)
Definition item_text (item : pyval) : string :=
  match item with
  | VNone => ""
  | _ => py_str item
  end.

(** The text of a tag cell after [fillna("")]. *)
Definition tag_text (v : pyval) : string :=
  match v with
  | VNone => ""
  | VFloat r => if bool_decide (r = "nan") then "" else r
  | _ => py_str v
  end.

(** [payload[key]] / [key in payload] on a dict kept in insertion order. *)
Fixpoint payload_get (key : string) (payload : list (string * pyval))
  : option pyval :=
  match payload with
  | [] => None
  | (k, v) :: payload' =>
      if bool_decide (k = key) then Some v else payload_get key payload'
  end.

Definition is_qa (name : string) : bool := startswith_any name ["q_"; "a_"].

(** [f"{key}_{i}"] *)
Definition col_name (key : string) (i : nat) : string :=
  key ++ "_" ++ str_of_int (Z.of_nat i).

(** The body of [for i, item in enumerate(payload[key], start=1)]. *)
Definition write_item (idx : nat) (key : string) (d : DataFrame)
    (p : nat * pyval) : DataFrame :=
  at_set (ensure_column d (col_name key (fst p))) idx
         (col_name key (fst p)) (item_text (snd p)).

(** The body of [for key in qa_keys]. *)
Definition write_key (idx : nat) (payload : list (string * pyval))
    (d : DataFrame) (key : string) : DataFrame :=
  match payload_get key payload with
  | Some (VList items) => fold_left (write_item idx key) (enumerate 1 items) d
  | _ => d
  end.

Definition clear_qa (idx : nat) (d : DataFrame) : DataFrame :=
  let qa_columns := List.filter is_qa (columns d) in
  fold_left (fun d' col => at_set d' idx col "") qa_columns d.

Definition write_tags (idx : nat) (payload : list (string * pyval))
    (d : DataFrame) : DataFrame :=
  match payload_get "tags" payload with
  | Some v => at_set (ensure_column d "tags") idx "tags" (tag_text v)
  | None => d
  end.

Definition write_qas (idx : nat) (payload : list (string * pyval))
    (d : DataFrame) : DataFrame :=
  let qa_keys := List.filter is_qa (map fst payload) in
  fold_left (write_key idx payload) qa_keys d.

(** [update_row_with_qas(idx, payload)]: the result, the store afterwards
    and the file operations performed. *)
Definition update_row_with_qas (st : CSVStorage) (idx : Z)
    (payload : list (string * pyval)) : bool * CSVStorage * list fs_op :=
  if (idx <? 0) || (len (rows (df st)) <=? idx) then (false, st, [])
  else
    let i := Z.to_nat idx in
    let d := write_qas i payload (write_tags i payload (clear_qa i (df st))) in
    let st' := {| csv_path := csv_path st; df := d |} in
    (true, st', persist st').

End update.

(** *** [has_existing_qa_data] *)

Definition is_question (name : string) : bool :=
  startswith_any name ["q_en_"; "q_hi_"; "q_sa_"].

Definition has_existing_qa_data (st : CSVStorage) (idx : Z) : bool :=
  if (idx <? 0) || (len (rows (df st)) <=? idx) then false
  else
    match rows (df st) !! Z.to_nat idx with
    | None => false
    | Some row =>
        let qa_columns := List.filter is_question (columns (df st)) in
        existsb (fun col =>
                   match row !! col with
                   | Some v => negb (string_empty (strip v))
                   | None => false
                   end) qa_columns
    end.

End storage.

(** ** State and exceptions for the batch loops *)

(** A computation over a mutable world [S] that may raise; what was
    written before the exception stays written. *)
Definition M (S A : Type) : Type := S -> Result A * S.

#[global] Instance M_ret {S} : MRet (M S) := fun _ a s => (Ok a, s).
#[global] Instance M_bind {S} : MBind (M S) := fun _ _ f m s =>
  match m s with
  | (Ok a, s') => f a s'
  | (Raise e, s') => (Raise e, s')
  end.

Definition get {S} : M S S := fun s => (Ok s, s).
Definition modify {S} (f : S -> S) : M S unit := fun s => (Ok tt, f s).
Definition raise {S A} (e : exn) : M S A := fun s => (Raise e, s).
Definition lift {S A} (r : Result A) : M S A := fun s => (r, s).

(** [try: body  except Exception as e: handler(e)] *)
Definition try_except {S} (body : M S unit) (handler : exn -> M S unit)
  : M S unit :=
  fun s =>
    match body s with
    | (Ok tt, s') => (Ok tt, s')
    | (Raise e, s') => handler e s'
    end.

(** [for x in l: body(x)] *)
Fixpoint for_each {S A} (l : list A) (body : A -> M S unit) : M S unit :=
  match l with
  | [] => mret tt
  | x :: l' => _ ← body x; for_each l' body
  end.

(** [for x in l: acc = body(x, acc)], for a loop that builds a local value. *)
Fixpoint for_fold {S A B} (l : list A) (acc : B) (body : B -> A -> M S B)
  : M S B :=
  match l with
  | [] => mret acc
  | x :: l' => acc' ← body acc x; for_fold l' acc' body
  end.

(** [range(n)] *)
Definition range (n : Z) : list Z := map Z.of_nat (seq 0 (Z.to_nat n)).

(** [str(e)] *)
Definition exn_str (e : exn) : string :=
  match e with
  | KeyError key => "'" ++ key ++ "'"
  | ValueError msg | RuntimeError msg | TypeError msg | AttributeError msg
  | OSError msg | RequestException msg => msg
  end.

Module app.

Import generate_api storage.

(** *** Registry, status objects and the environment *)

Record FileInfo := {
  file_id : string;
  filename : string;
  row_count : Z;
  processed_count : Z;
  file_status : string;
}.

(** An entry of [ProcessStatus.progress]: the dict with the keys
    [processed], [total] and [status]. *)
Record Progress := {
  processed : Z;
  total : Z;
  progress_status : string;
}.

Record ProcessStatus := {
  status : string;
  current_file : string;
  current_row : Z;
  total_rows : Z;
  processed_files : Z;
  current_sanskrit : string;
  error_message : string;
  results : gmap string (list (gmap string pyval));
  progress : gmap string Progress;
}.

(** The mutable world of a batch: its status object, the global
    [file_registry], and (for the statements below) the calls of
    [generate_for_row] made so far, each as the position of the file in
    the batch, the file id and the row index. *)
Record World (St : Type) := {
  the_status : St;
  file_registry : gmap string FileInfo;
  submitted : list (nat * string * Z);
}.
Arguments the_status {St} w.
Arguments file_registry {St} w.
Arguments submitted {St} w.

(** What the batch reads from outside: the configuration, and for the
    file in position [k] of the batch what [CSVStorage(path)] loads, how
    the service behaves during the call for row [i], and whether
    [save_file_metadata] succeeds. *)
Record Env := {
  cfg : Config;
  CSV_FOLDER : string;
  APP_MODEL_NAME : string;
  read_csv : nat -> string -> Result DataFrame;
  service : nat -> Z -> Service;
  save_file_metadata : nat -> string -> Result unit;
}.

Definition get_file_path (env : Env) (fid : string) : string :=
  CSV_FOLDER env ++ "/" ++ fid ++ ".csv".

(** [CSVStorage(file_path)] for the file in position [k]. *)
Definition CSVStorage_new (env : Env) (k : nat) (path : string)
  : Result CSVStorage :=
  d ← read_csv env k path; Ok {| csv_path := path; df := d |}.

Definition on_status {St} (f : St -> St) : M (World St) unit :=
  modify (fun w => {| the_status := f (the_status w);
                      file_registry := file_registry w;
                      submitted := submitted w |}).

Definition log_call {St} (k : nat) (fid : string) (i : Z) : M (World St) unit :=
  modify (fun w => {| the_status := the_status w;
                      file_registry := file_registry w;
                      submitted := (submitted w ++ [(k, fid, i)])%list |}).

(** [file_registry[fid].status = "completed";
     file_registry[fid].processed_count = count] *)
Definition mark_registry {St} (fid : string) (count : Z) : M (World St) unit :=
  fun w =>
    match file_registry w !! fid with
    | None => (Raise (KeyError fid), w)
    | Some info =>
        (Ok tt,
         {| the_status := the_status w;
            file_registry :=
              <[fid := {| file_id := file_id info; filename := filename info;
                          row_count := row_count info;
                          processed_count := count;
                          file_status := "completed" |}]> (file_registry w);
            submitted := submitted w |})
    end.

(** [row.get(key, "")] *)
Definition row_get (row : gmap string string) (key : string) : string :=
  default "" (row !! key).

(** [{"id": .., "sanskrit": .., "english": .., "file_id": .., **generated}] *)
Definition result_item (row_idx : Z) (sanskrit english fid : string)
    (generated : gmap string pyval) : gmap string pyval :=
  generated ∪
  <["id" := VInt row_idx]>
    (<["sanskrit" := VStr sanskrit]>
       (<["english" := VStr english]> {["file_id" := VStr fid]})).

(** The part of the row loop shared verbatim by the two batch functions,
    from [if storage.has_existing_qa_data(row_idx)] to the end of the
    [try]; [extra] holds the further entries of the result item. *)
Definition generate_row {St} (env : Env) (k : nat) (fid : string)
    (storage : CSVStorage) (qa_count : Z) (extra : gmap string pyval)
    (row : gmap string string) (results : list (gmap string pyval))
    (row_idx : Z) : M (World St) (list (gmap string pyval)) :=
  if has_existing_qa_data storage row_idx then mret results
  else
    let sanskrit := row_get row "sanskrit" in
    let english := row_get row "english" in
    if negb (string_empty sanskrit) && negb (string_empty english) then
      _ ← log_call k fid row_idx;
      match fst (generate_for_row (cfg env) (service env k row_idx)
                   sanskrit english (APP_MODEL_NAME env) qa_count) with
      | Ok generated_qas =>
          mret (results ++
                [result_item row_idx sanskrit english fid (generated_qas ∪ extra)])%list
      | Raise _ => mret results
      end
    else mret results.

(** *** [process_files_batch] *)

Definition set_status (v : string) (st : ProcessStatus) : ProcessStatus :=
  {| status := v; current_file := current_file st;
     current_row := current_row st; total_rows := total_rows st;
     processed_files := processed_files st;
     current_sanskrit := current_sanskrit st;
     error_message := error_message st; results := results st;
     progress := progress st |}.

Definition set_current_file (v : string) (st : ProcessStatus) : ProcessStatus :=
  {| status := status st; current_file := v;
     current_row := current_row st; total_rows := total_rows st;
     processed_files := processed_files st;
     current_sanskrit := current_sanskrit st;
     error_message := error_message st; results := results st;
     progress := progress st |}.

Definition set_current_row (v : Z) (st : ProcessStatus) : ProcessStatus :=
  {| status := status st; current_file := current_file st;
     current_row := v; total_rows := total_rows st;
     processed_files := processed_files st;
     current_sanskrit := current_sanskrit st;
     error_message := error_message st; results := results st;
     progress := progress st |}.

Definition set_total_rows (v : Z) (st : ProcessStatus) : ProcessStatus :=
  {| status := status st; current_file := current_file st;
     current_row := current_row st; total_rows := v;
     processed_files := processed_files st;
     current_sanskrit := current_sanskrit st;
     error_message := error_message st; results := results st;
     progress := progress st |}.

Definition set_processed_files (v : Z) (st : ProcessStatus) : ProcessStatus :=
  {| status := status st; current_file := current_file st;
     current_row := current_row st; total_rows := total_rows st;
     processed_files := v;
     current_sanskrit := current_sanskrit st;
     error_message := error_message st; results := results st;
     progress := progress st |}.

Definition set_current_sanskrit (v : string) (st : ProcessStatus) : ProcessStatus :=
  {| status := status st; current_file := current_file st;
     current_row := current_row st; total_rows := total_rows st;
     processed_files := processed_files st;
     current_sanskrit := v;
     error_message := error_message st; results := results st;
     progress := progress st |}.

Definition set_error_message (v : string) (st : ProcessStatus) : ProcessStatus :=
  {| status := status st; current_file := current_file st;
     current_row := current_row st; total_rows := total_rows st;
     processed_files := processed_files st;
     current_sanskrit := current_sanskrit st;
     error_message := v; results := results st;
     progress := progress st |}.

Definition set_results (v : gmap string (list (gmap string pyval)))
    (st : ProcessStatus) : ProcessStatus :=
  {| status := status st; current_file := current_file st;
     current_row := current_row st; total_rows := total_rows st;
     processed_files := processed_files st;
     current_sanskrit := current_sanskrit st;
     error_message := error_message st; results := v;
     progress := progress st |}.

Definition set_progress (v : gmap string Progress) (st : ProcessStatus)
  : ProcessStatus :=
  {| status := status st; current_file := current_file st;
     current_row := current_row st; total_rows := total_rows st;
     processed_files := processed_files st;
     current_sanskrit := current_sanskrit st;
     error_message := error_message st; results := results st;
     progress := v |}.

(** [status.progress[fid][key] = v], as an update [f] of the entry. *)
Definition progress_at (fid : string) (f : Progress -> Progress)
  : M (World ProcessStatus) unit :=
  fun w =>
    match progress (the_status w) !! fid with
    | None => (Raise (KeyError fid), w)
    | Some p =>
        on_status (fun st => set_progress (<[fid := f p]> (progress st)) st) w
    end.

Definition with_processed (v : Z) (p : Progress) : Progress :=
  {| processed := v; total := total p; progress_status := progress_status p |}.
Definition with_total (v : Z) (p : Progress) : Progress :=
  {| processed := processed p; total := v; progress_status := progress_status p |}.
Definition with_progress_status (v : string) (p : Progress) : Progress :=
  {| processed := processed p; total := total p; progress_status := v |}.

(** The body of [for row_idx in range(total_rows)]. *)
Definition batch_row (env : Env) (k : nat) (fid : string)
    (storage : CSVStorage) (qa_count : Z)
    (results : list (gmap string pyval)) (row_idx : Z)
  : M (World ProcessStatus) (list (gmap string pyval)) :=
  _ ← on_status (set_current_row (row_idx + 1));
  _ ← progress_at fid (with_processed (row_idx + 1));
  match get_row storage row_idx with
  | None => raise (AttributeError "'NoneType' object has no attribute 'get'")
  | Some row =>
      let sanskrit_preview := substring 0 50 (row_get row "sanskrit") ++ "..." in
      _ ← on_status (set_current_sanskrit sanskrit_preview);
      generate_row env k fid storage qa_count ∅ row results row_idx
  end.

(** The body of [for file_idx, file_id in enumerate(file_ids)]. *)
Definition batch_file (env : Env) (qa_count : Z) (p : nat * string)
  : M (World ProcessStatus) unit :=
  let '(file_idx, fid) := p in
  w ← get;
  match file_registry w !! fid with
  | None => mret tt
  | Some file_info =>
      storage ← lift (CSVStorage_new env file_idx (get_file_path env fid));
      _ ← on_status (set_current_file (filename file_info));
      _ ← progress_at fid (with_progress_status "processing");
      let total_rows_ := storage.row_count storage in
      _ ← progress_at fid (with_total total_rows_);
      _ ← on_status (fun st => set_total_rows (total_rows st + total_rows_) st);
      results_ ← for_fold (range total_rows_) []
                   (batch_row env file_idx fid storage qa_count);
      _ ← on_status (fun st => set_results (<[fid := results_]> (results st)) st);
      _ ← progress_at fid (with_progress_status "completed");
      _ ← on_status (set_processed_files (Z.of_nat file_idx + 1));
      _ ← lift (save_file_metadata env file_idx fid);
      mark_registry fid (len results_)
  end.

(** The [except Exception as e] clause. *)
Definition batch_failed (e : exn) : M (World ProcessStatus) unit :=
  _ ← on_status (set_status "error");
  _ ← on_status (set_error_message (exn_str e));
  on_status (fun st =>
    if negb (string_empty (current_file st)) then
      set_progress
        ((fun p => if bool_decide (progress_status p = "processing")
                   then with_progress_status "error" p else p)
           <$> progress st) st
    else st).

Definition process_files_batch (env : Env) (file_ids : list string)
    (qa_count : Z) : M (World ProcessStatus) unit :=
  try_except
    (_ ← for_each (enumerate 0 file_ids) (batch_file env qa_count);
     on_status (set_status "completed"))
    batch_failed.

(** *** [start_batch_process] *)

(** The answer of an endpoint: its value, or the [HTTPException] raised. *)
Inductive Http (A : Type) : Type :=
  | Respond (a : A)
  | HTTPException (code : Z) (detail : string).
Arguments Respond {A} a.
Arguments HTTPException {A} code detail.

(** [valid_file_ids]: the requested ids found in the registry, each with
    its registry entry. *)
Definition valid_files (registry : gmap string FileInfo)
    (file_ids : list string) : list (string * FileInfo) :=
  omap (fun fid => info ← registry !! fid; Some (fid, info)) file_ids.

(** What [start_batch_process] stores in [process_statuses] and hands to
    the background task: the new status object, its [total_files], and
    the ids for [process_files_batch]. The process id is a fresh uuid. *)
Definition start_batch_process (registry : gmap string FileInfo)
    (file_ids : list string) : Http (ProcessStatus * Z * list string) :=
  let valid := valid_files registry file_ids in
  if bool_decide (valid = []) then
    HTTPException 400 "No valid files to process"
  else
    Respond
      ({| status := "running"; current_file := ""; current_row := 0;
          total_rows := 0; processed_files := 0; current_sanskrit := "";
          error_message := "";
          results := list_to_map (map (fun p => (fst p, [])) valid);
          progress :=
            list_to_map
              (map (fun p => (fst p, {| processed := 0;
                                        total := row_count (snd p);
                                        progress_status := "pending" |}))
                   valid) |},
       len valid, map fst valid).

(** *** [process_files_with_detailed_status] *)

(** The fields of [FileProgress] the batch writes. *)
Record FileProgress := {
  fp_status : string;
  fp_current_row : Z;
  fp_current_sanskrit : string;
  fp_processed_rows : Z;
  fp_error_message : string;
}.

(** The fields of [DetailedProcessStatus] the batch writes. *)
Record DetailedProcessStatus := {
  d_status : string;
  d_current_operation : string;
  d_processed_files : Z;
  d_processed_rows : Z;
  d_results : gmap string (list (gmap string pyval));
  d_file_progress : gmap string FileProgress;
}.

Definition fp_set_status (v : string) (p : FileProgress) : FileProgress :=
  {| fp_status := v; fp_current_row := fp_current_row p;
     fp_current_sanskrit := fp_current_sanskrit p;
     fp_processed_rows := fp_processed_rows p;
     fp_error_message := fp_error_message p |}.
Definition fp_set_current_row (v : Z) (p : FileProgress) : FileProgress :=
  {| fp_status := fp_status p; fp_current_row := v;
     fp_current_sanskrit := fp_current_sanskrit p;
     fp_processed_rows := fp_processed_rows p;
     fp_error_message := fp_error_message p |}.
Definition fp_set_current_sanskrit (v : string) (p : FileProgress) : FileProgress :=
  {| fp_status := fp_status p; fp_current_row := fp_current_row p;
     fp_current_sanskrit := v;
     fp_processed_rows := fp_processed_rows p;
     fp_error_message := fp_error_message p |}.
Definition fp_set_processed_rows (v : Z) (p : FileProgress) : FileProgress :=
  {| fp_status := fp_status p; fp_current_row := fp_current_row p;
     fp_current_sanskrit := fp_current_sanskrit p;
     fp_processed_rows := v;
     fp_error_message := fp_error_message p |}.
Definition fp_set_error_message (v : string) (p : FileProgress) : FileProgress :=
  {| fp_status := fp_status p; fp_current_row := fp_current_row p;
     fp_current_sanskrit := fp_current_sanskrit p;
     fp_processed_rows := fp_processed_rows p;
     fp_error_message := v |}.

Definition d_set_status (v : string) (st : DetailedProcessStatus)
  : DetailedProcessStatus :=
  {| d_status := v; d_current_operation := d_current_operation st;
     d_processed_files := d_processed_files st;
     d_processed_rows := d_processed_rows st;
     d_results := d_results st; d_file_progress := d_file_progress st |}.
Definition d_set_current_operation (v : string) (st : DetailedProcessStatus)
  : DetailedProcessStatus :=
  {| d_status := d_status st; d_current_operation := v;
     d_processed_files := d_processed_files st;
     d_processed_rows := d_processed_rows st;
     d_results := d_results st; d_file_progress := d_file_progress st |}.
Definition d_set_processed_files (v : Z) (st : DetailedProcessStatus)
  : DetailedProcessStatus :=
  {| d_status := d_status st; d_current_operation := d_current_operation st;
     d_processed_files := v;
     d_processed_rows := d_processed_rows st;
     d_results := d_results st; d_file_progress := d_file_progress st |}.
Definition d_set_processed_rows (v : Z) (st : DetailedProcessStatus)
  : DetailedProcessStatus :=
  {| d_status := d_status st; d_current_operation := d_current_operation st;
     d_processed_files := d_processed_files st;
     d_processed_rows := v;
     d_results := d_results st; d_file_progress := d_file_progress st |}.
Definition d_set_results (v : gmap string (list (gmap string pyval)))
    (st : DetailedProcessStatus) : DetailedProcessStatus :=
  {| d_status := d_status st; d_current_operation := d_current_operation st;
     d_processed_files := d_processed_files st;
     d_processed_rows := d_processed_rows st;
     d_results := v; d_file_progress := d_file_progress st |}.
Definition d_set_file_progress (v : gmap string FileProgress)
    (st : DetailedProcessStatus) : DetailedProcessStatus :=
  {| d_status := d_status st; d_current_operation := d_current_operation st;
     d_processed_files := d_processed_files st;
     d_processed_rows := d_processed_rows st;
     d_results := d_results st; d_file_progress := v |}.

(** [file_progress = status.file_progress[fid]] *)
Definition file_progress_lookup (fid : string)
  : M (World DetailedProcessStatus) unit :=
  fun w =>
    match d_file_progress (the_status w) !! fid with
    | None => (Raise (KeyError fid), w)
    | Some _ => (Ok tt, w)
    end.

(** A write through the reference [file_progress] obtained above. *)
Definition on_file_progress (fid : string) (f : FileProgress -> FileProgress)
  : M (World DetailedProcessStatus) unit :=
  on_status (fun st => d_set_file_progress (alter f fid (d_file_progress st)) st).

Definition detailed_row (env : Env) (k : nat) (fid : string)
    (file_info : FileInfo) (storage : CSVStorage) (total_rows_ qa_count : Z)
    (results : list (gmap string pyval)) (row_idx : Z)
  : M (World DetailedProcessStatus) (list (gmap string pyval)) :=
  _ ← on_file_progress fid (fp_set_current_row (row_idx + 1));
  _ ← on_status (fun st => d_set_processed_rows (d_processed_rows st + 1) st);
  match get_row storage row_idx with
  | None => raise (AttributeError "'NoneType' object has no attribute 'get'")
  | Some row =>
      let sanskrit_preview := substring 0 50 (row_get row "sanskrit") ++ "..." in
      _ ← on_file_progress fid (fp_set_current_sanskrit sanskrit_preview);
      _ ← (if row_idx mod 10 =? 0 then
             on_status (d_set_current_operation
               ("Processing " ++ filename file_info ++ ": Row "
                ++ str_of_int (row_idx + 1) ++ "/" ++ str_of_int total_rows_
                ++ " - " ++ sanskrit_preview))
           else mret tt);
      generate_row env k fid storage qa_count
        {["filename" := VStr (filename file_info)]} row results row_idx
  end.

Definition detailed_file (env : Env) (qa_count : Z) (p : nat * string)
  : M (World DetailedProcessStatus) unit :=
  let '(file_idx, fid) := p in
  w ← get;
  match file_registry w !! fid with
  | None => mret tt
  | Some file_info =>
      storage ← lift (CSVStorage_new env file_idx (get_file_path env fid));
      _ ← file_progress_lookup fid;
      _ ← on_file_progress fid (fp_set_status "processing");
      _ ← on_file_progress fid (fp_set_current_row 0);
      _ ← on_status (d_set_current_operation ("Processing " ++ filename file_info));
      let total_rows_ := storage.row_count storage in
      results_ ← for_fold (range total_rows_) []
                   (detailed_row env file_idx fid file_info storage total_rows_ qa_count);
      _ ← on_status (fun st => d_set_results (<[fid := results_]> (d_results st)) st);
      _ ← on_file_progress fid (fp_set_status "completed");
      _ ← on_file_progress fid (fp_set_processed_rows total_rows_);
      _ ← on_file_progress fid (fp_set_current_row total_rows_);
      _ ← on_status (d_set_processed_files (Z.of_nat file_idx + 1));
      _ ← on_status (d_set_current_operation ("Completed " ++ filename file_info));
      _ ← lift (save_file_metadata env file_idx fid);
      mark_registry fid (len results_)
  end.

Definition detailed_failed (e : exn) : M (World DetailedProcessStatus) unit :=
  _ ← on_status (d_set_status "error");
  _ ← on_status (d_set_current_operation ("Error: " ++ exn_str e));
  on_status (fun st =>
    d_set_file_progress
      ((fun p => if bool_decide (fp_status p = "processing")
                 then fp_set_error_message (exn_str e) (fp_set_status "error" p)
                 else p)
         <$> d_file_progress st) st).

Definition process_files_with_detailed_status (env : Env)
    (file_ids : list string) (qa_count : Z)
  : M (World DetailedProcessStatus) unit :=
  try_except
    (_ ← on_status (d_set_status "running");
     _ ← on_status (d_set_current_operation "Preparing files...");
     _ ← for_each (enumerate 0 file_ids) (detailed_file env qa_count);
     _ ← on_status (d_set_status "completed");
     on_status (d_set_current_operation "Batch processing completed successfully"))
    detailed_failed.

(** *** The payload the save endpoints build *)

(** In [save_batch_process_results] and [save_batch_results]:
    [qa_payload = {}
     for key in row_data.keys():
         if key.startswith(('q_', 'a_')): qa_payload[key] = row_data[key]
     if 'tags' in row_data: qa_payload['tags'] = row_data['tags']] *)
Definition qa_payload (row_data : list (string * pyval))
  : list (string * pyval) :=
  (List.filter (fun kv => is_qa (fst kv)) row_data ++
   match payload_get "tags" row_data with
   | Some v => [("tags", v)]
   | None => []
   end)%list.

End app.

(** * Specification vocabulary *)

Import generate_api storage app.
Local Open Scope list_scope.

(** The list the spec asks for: the first [n] items, right-padded with
    empty strings up to [n]. *)
Definition fit (l : list pyval) (n : Z) : list pyval :=
  take (Z.to_nat n) l ++ replicate (Z.to_nat n - length l)%nat (VStr "").

Definition is_list_at (j : gmap string pyval) (k : string) : bool :=
  match j !! k with
  | Some (VList _) => true
  | _ => false
  end.

Definition list_or_absent (j : gmap string pyval) (k : string) : bool :=
  match j !! k with
  | Some (VList _) | None => true
  | Some _ => false
  end.

(** What a settled task contributes to key [k]: its list for a task that
    returned, nothing for a task that raised. *)
Definition contribution (k : string) (o : Result (gmap string pyval))
  : list pyval :=
  match o with
  | Ok r => match r !! k with Some (VList l) => l | _ => [] end
  | Raise _ => []
  end.

(** The values of the successful tasks for key [k], in completion order. *)
Definition attempt_values (k : string)
    (outcomes : list (Result (gmap string pyval))) : list pyval :=
  flat_map (contribution k) outcomes.

(** The number of failed tasks. *)
Definition failures (outcomes : list (Result (gmap string pyval))) : nat :=
  length (List.filter (fun o => negb (is_ok o)) outcomes).

(** Balanced structured text, as a grammar. A plain character is neither a
    bracket, nor a quote, nor a backslash. *)
Definition plain (c : ascii) : bool :=
  negb (is_open c || is_close c || Ascii.eqb c quote_char || Ascii.eqb c backslash).

Definition matching (o c : ascii) : Prop :=
  (o = "{"%char /\ c = "}"%char) \/ (o = "["%char /\ c = "]"%char).

(** The inside of a quoted string: characters other than the quote and the
    backslash, and escape pairs (a backslash and any one character). *)
Inductive string_body : string -> Prop :=
  | body_end : string_body EmptyString
  | body_char c s :
      Ascii.eqb c quote_char = false -> Ascii.eqb c backslash = false ->
      string_body s -> string_body (String c s)
  | body_escape c s :
      string_body s -> string_body (String backslash (String c s)).

(** What stands between a pair of brackets: plain characters, quoted
    strings and nested bracketed groups. *)
Inductive items : string -> Prop :=
  | items_end : items EmptyString
  | items_plain c s : plain c = true -> items s -> items (String c s)
  | items_string b s :
      string_body b -> items s ->
      items (String quote_char (b ++ String quote_char s)%string)
  | items_group o b c s :
      matching o c -> items b -> items s ->
      items (String o (b ++ String c s)%string).

Definition balanced_object (t : string) : Prop :=
  exists b, items b /\ t = String "{" (b ++ "}")%string.

(** The character-by-character reading of the spec: the nesting depth, the
    quoted-string mode and whether the next character is escaped. An escape
    character consumes exactly the next character; a quote that is not
    escaped toggles the string mode; outside strings an opening bracket
    raises the depth and a closing bracket lowers it. *)
Record lexer := {
  depth : Z;
  in_string : bool;
  escaped : bool;
}.

Definition lex_start : lexer :=
  {| depth := 0; in_string := false; escaped := false |}.

(** The state after the opening brace. *)
Definition lex_inside : lexer :=
  {| depth := 1; in_string := false; escaped := false |}.

Definition lex_step (st : lexer) (c : ascii) : lexer :=
  if escaped st then
    {| depth := depth st; in_string := in_string st; escaped := false |}
  else if Ascii.eqb c backslash then
    {| depth := depth st; in_string := in_string st; escaped := true |}
  else if Ascii.eqb c quote_char then
    {| depth := depth st; in_string := negb (in_string st); escaped := false |}
  else if in_string st then st
  else if is_open c then
    {| depth := depth st + 1; in_string := false; escaped := false |}
  else if is_close c then
    {| depth := depth st - 1; in_string := false; escaped := false |}
  else st.

Fixpoint lex (st : lexer) (s : string) : lexer :=
  match s with
  | EmptyString => st
  | String c s' => lex (lex_step st c) s'
  end.

(** Content that is empty once surrounding whitespace is stripped. *)
Definition blank (s : string) : bool := string_empty (strip s).

(** One cell write of row [idx], the column being created when missing. *)
Definition put (idx : nat) (d : DataFrame) (w : string * string) : DataFrame :=
  at_set (ensure_column d (fst w)) idx (fst w) (snd w).

(** The value of the last write to column [col] in a list of writes. *)
Fixpoint last_write (col : string) (ws : list (string * string))
  : option string :=
  match ws with
  | [] => None
  | w :: ws' =>
      match last_write col ws' with
      | Some v => Some v
      | None => if bool_decide (fst w = col) then Some (snd w) else None
      end
  end.

(** The writes of [update_row_with_qas], in the order the code makes them:
    the clearing of the QA columns, the tag, then the items of every
    list-valued QA key. *)
Definition clear_writes (d : DataFrame) : list (string * string) :=
  map (fun col => (col, EmptyString)) (List.filter is_qa (columns d)).

Definition tag_writes (repr : pyval -> string) (payload : list (string * pyval))
  : list (string * string) :=
  match payload_get "tags" payload with
  | Some v => [("tags", tag_text repr v)]
  | None => []
  end.

Definition key_writes (repr : pyval -> string) (payload : list (string * pyval))
    (key : string) : list (string * string) :=
  match payload_get key payload with
  | Some (VList items) =>
      map (fun p => (col_name key (fst p), item_text repr (snd p)))
          (enumerate 1 items)
  | _ => []
  end.

Definition qa_writes (repr : pyval -> string) (payload : list (string * pyval))
  : list (string * string) :=
  flat_map (key_writes repr payload) (List.filter is_qa (map fst payload)).

(** Column [col] is the positional column of an item of a list-valued QA
    key of the payload. *)
Definition targeted (payload : list (string * pyval)) (col : string) : Prop :=
  exists key items i item,
    is_qa key = true /\ payload_get key payload = Some (VList items) /\
    items !! i = Some item /\ col = col_name key (S i).

(** A sequence of file operations is atomic on [path] with outcome [new]:
    stopped before its last step it leaves the file at [path] as it was, and
    run to the end it leaves exactly [new] there. *)
Definition atomic_on (path : string) (ops : list fs_op)
    (new : list (list string)) : Prop :=
  forall (fs : gmap string (list (list string))) (k : nat),
    ((k < length ops)%nat -> fs_run (take k ops) fs !! path = fs !! path) /\
    ((length ops <= k)%nat -> fs_run (take k ops) fs !! path = Some new).

(** An operation that writes to the file [tmp] only. *)
Definition stages (tmp : string) (op : fs_op) : Prop :=
  match op with
  | Create path | Append path _ => path = tmp
  | Replace _ _ => False
  end.

Definition is_list (v : pyval) : bool :=
  match v with
  | VList _ => true
  | _ => false
  end.

(** The payload without its entry for [key]. *)
Definition remove_key (key : string) (payload : list (string * pyval))
  : list (string * pyval) :=
  List.filter (fun kv => negb (bool_decide (fst kv = key))) payload.

(** A call of [generate_for_row] logged as [(k, fid, i)] is eligible when
    [fid] is the file in position [k] of the batch and, in the table loaded
    for it, row [i] exists, has no existing Q&A data, and has a non-empty
    source and a non-empty translation. *)
Definition eligible (env : Env) (file_ids : list string)
    (entry : nat * string * Z) : Prop :=
  let '(k, fid, i) := entry in
  file_ids !! k = Some fid /\
  exists d row,
    read_csv env k (get_file_path env fid) = Ok d /\
    has_existing_qa_data {| csv_path := get_file_path env fid; df := d |} i = false /\
    get_row {| csv_path := get_file_path env fid; df := d |} i = Some row /\
    row_get row "sanskrit" ≠ EmptyString /\
    row_get row "english" ≠ EmptyString.

(** The log grows by entries that satisfy [P]. *)
Definition logs_only {St} (P : nat * string * Z -> Prop) (w w' : World St) : Prop :=
  exists new, submitted w' = submitted w ++ new /\ Forall P new.

(** Two worlds hold the same results for every file but [fid]; [res] reads
    the results-by-file map of the status object. *)
Definition same_results_except {St}
    (res : St -> gmap string (list (gmap string pyval)))
    (fid : string) (w w' : World St) : Prop :=
  forall f, f ≠ fid -> res (the_status w') !! f = res (the_status w) !! f.

(** ** Vocabulary of the further properties *)

(** What [_validate_output] leaves under a key that held the list [l]: the
    first [n] items padded to [n] for [n >= 0]; for a negative [n], the
    list without its last [-n] items. *)
Definition resized (l : list pyval) (n : Z) : list pyval :=
  if n <? 0 then take (length l - Z.to_nat (- n)) l else fit l n.

(** What one round trip of the retry loop ends with: the validated dict, or
    the exception the [except] clause catches. *)
Definition attempt_outcome (srv : Service) (req : Request) (rank attempt : nat)
  : Result (gmap string pyval) :=
  match post srv req rank attempt with
  | PostRaises e => Raise e
  | Parsed None => Raise (ValueError "Failed to parse valid JSON from model response")
  | Parsed (Some parsed) =>
      if bool_decide (parsed = ∅)
      then Raise (ValueError "Failed to parse valid JSON from model response")
      else _validate_output parsed 1
  end.

(** The brackets of a text, as [_repair_incomplete_json] counts them:
    inside quoted strings too. *)
Definition opening_brackets (s : string) : Z :=
  count_char "{" s + count_char "[" s.

Definition closing_brackets (s : string) : Z :=
  count_char "}" s + count_char "]" s.

(** The headers still missing from a list of columns. *)
Definition missing_headers (cols hs : list string) : list string :=
  List.filter (fun h => negb (bool_decide (h ∈ cols))) hs.

(** The rows for which the row loop calls [generate_for_row]: those with
    no existing Q&A data, a non-empty source and a non-empty translation. *)
Definition wants_generation (storage : CSVStorage) (i : Z) : bool :=
  match get_row storage i with
  | None => false
  | Some row =>
      negb (has_existing_qa_data storage i) &&
      (negb (string_empty (row_get row "sanskrit")) &&
       negb (string_empty (row_get row "english")))
  end.

(** What the row loop appends to the results of a file for row [i]: one
    item when the row exists, has no existing Q&A data, has both texts and
    the generation succeeds; nothing otherwise. *)
Definition row_results (env : Env) (k : nat) (fid : string)
    (storage : CSVStorage) (qa_count : Z) (extra : gmap string pyval) (i : Z)
  : list (gmap string pyval) :=
  match get_row storage i with
  | None => []
  | Some row =>
      let sanskrit := row_get row "sanskrit" in
      let english := row_get row "english" in
      if has_existing_qa_data storage i then []
      else if negb (string_empty sanskrit) && negb (string_empty english) then
        match fst (generate_for_row (cfg env) (service env k i)
                     sanskrit english (APP_MODEL_NAME env) qa_count) with
        | Ok generated_qas =>
            [result_item i sanskrit english fid (generated_qas ∪ extra)]
        | Raise _ => []
        end
      else []
  end.

(** A published item: it is the item of a row of the table that had no
    existing Q&A data and both texts, it carries the row's index, texts and
    file id, and under each of the six keys a list of exactly [qa_count]
    items. *)
Definition published_item (fid : string) (storage : CSVStorage) (qa_count : Z)
    (i : Z) (item : gmap string pyval) : Prop :=
  exists row,
    get_row storage i = Some row /\
    has_existing_qa_data storage i = false /\
    row_get row "sanskrit" ≠ EmptyString /\
    row_get row "english" ≠ EmptyString /\
    item !! "id" = Some (VInt i) /\
    item !! "sanskrit" = Some (VStr (row_get row "sanskrit")) /\
    item !! "english" = Some (VStr (row_get row "english")) /\
    item !! "file_id" = Some (VStr fid) /\
    forall key, key ∈ required ->
      exists l, item !! key = Some (VList l) /\ len l = qa_count.

(** The number of rows of the tables loaded for the files of a batch, the
    first of which stands at position [start]. *)
Fixpoint loaded_rows (env : Env) (start : nat) (ids : list string) : Z :=
  match ids with
  | [] => 0
  | fid :: ids' =>
      match read_csv env start (get_file_path env fid) with
      | Ok d => len (rows d)
      | Raise _ => 0
      end + loaded_rows env (S start) ids'
  end.

(** File [fid] has been processed to the end: its progress entry says
    completed, its results are stored, and the registry counts them. *)
Definition file_completed (fid : string) (w : World ProcessStatus) : Prop :=
  exists p rs info,
    progress (the_status w) !! fid = Some p /\
    progress_status p = "completed" /\
    results (the_status w) !! fid = Some rs /\
    file_registry w !! fid = Some info /\
    file_status info = "completed" /\ processed_count info = len rs.

(** The requested ids the registry knows, in request order. *)
Definition known_ids (registry : gmap string FileInfo) (file_ids : list string)
  : list string :=
  List.filter (fun fid => bool_decide (is_Some (registry !! fid))) file_ids.

(** The state of the status object during the row loop of file [fid],
    whose progress entry was [p] when the loop began: only the current row,
    the Sanskrit preview and the processed counter of the entry move. *)
Definition row_state (fid : string) (p : Progress) (st st' : ProcessStatus) : Prop :=
  status st' = status st /\ current_file st' = current_file st /\
  total_rows st' = total_rows st /\ processed_files st' = processed_files st /\
  error_message st' = error_message st /\ results st' = results st /\
  exists x, progress st' = <[fid := with_processed x p]> (progress st).

(** * Properties *)

(** ** Response validation *)

Section validation.

Lemma len_fit l n : 0 <= n -> len (fit l n) = n.
Proof.
  intros Hn. unfold len, fit.
  rewrite length_app, length_take, length_replicate. lia.
Qed.

Lemma slice_to_fit l n : 0 <= n -> n < len l -> slice_to l n = fit l n.
Proof.
  unfold slice_to, fit, len. intros Hn Hlt.
  destruct (Z.leb_spec 0 n); [|lia].
  replace (Z.to_nat n - length l)%nat with 0%nat by lia.
  simpl. by rewrite app_nil_r.
Qed.

Lemma pad_to_fit l n : len l <= n -> pad_to l n = fit l n.
Proof.
  unfold pad_to, fit, len. intros Hle.
  rewrite take_ge by lia. do 2 f_equal. lia.
Qed.

(** On a key that holds a list, the loop body stores the fitted list. *)
Lemma validate_key_list n j k l :
  0 <= n -> j !! k = Some (VList l) ->
  validate_key n j k = Ok (<[k := VList (fit l n)]> j).
Proof.
  intros Hn Hk. unfold validate_key. rewrite Hk.
  destruct (Z.eqb_spec (len l) n) as [Heq|Hne].
  - f_equal. rewrite insert_id; [done|].
    rewrite Hk. do 2 f_equal. rewrite <- pad_to_fit by lia.
    unfold pad_to. replace (n - len l) with 0 by lia. simpl.
    by rewrite app_nil_r.
  - destruct (Z.ltb_spec n (len l)).
    + by rewrite slice_to_fit.
    + by rewrite pad_to_fit by lia.
Qed.

Lemma validate_key_not_list n j k :
  is_list_at j k = false -> exists msg, validate_key n j k = Raise (ValueError msg).
Proof.
  unfold is_list_at, validate_key.
  destruct (j !! k) as [[]|]; intros; try discriminate; eauto.
Qed.

Lemma validate_keys_ok n ks j :
  0 <= n -> NoDup ks ->
  (forall k, k ∈ ks -> is_list_at j k = true) ->
  exists j', validate_keys n ks j = Ok j' /\
    (forall k l, k ∈ ks -> j !! k = Some (VList l) ->
       j' !! k = Some (VList (fit l n))) /\
    (forall k, k ∉ ks -> j' !! k = j !! k).
Proof.
  intros Hn. revert j. induction ks as [|k ks IH]; intros j Hnd Hall.
  - exists j. split; [done|]. split; [|done]. intros k l Hk. by apply elem_of_nil in Hk.
  - apply NoDup_cons in Hnd as [Hk Hnd].
    assert (Hl : is_list_at j k = true) by (apply Hall; left).
    unfold is_list_at in Hl.
    destruct (j !! k) as [[| | | | |l|]|] eqn:Hjk; try discriminate.
    destruct (IH (<[k := VList (fit l n)]> j) Hnd) as (j' & Hrun & Hin & Hout).
    { intros k' Hk'. unfold is_list_at.
      destruct (decide (k = k')) as [->|Hne]; [by rewrite lookup_insert_eq|].
      rewrite lookup_insert_ne by done. apply (Hall k'). by right. }
    exists j'. split.
    { simpl. rewrite (validate_key_list n j k l Hn Hjk). exact Hrun. }
    split.
    + intros k' l' Hk' Hjk'. apply elem_of_cons in Hk' as [->|Hk'].
      * rewrite Hout by done. rewrite lookup_insert_eq. congruence.
      * apply Hin; [done|]. rewrite lookup_insert_ne; [done|].
        intros ->. done.
    + intros k' Hk'. apply not_elem_of_cons in Hk' as [Hne Hk'].
      rewrite Hout by done. by rewrite lookup_insert_ne.
Qed.

Lemma validate_keys_raise n ks j :
  0 <= n ->
  (exists k, k ∈ ks /\ is_list_at j k = false) ->
  exists msg, validate_keys n ks j = Raise (ValueError msg).
Proof.
  intros Hn. revert j. induction ks as [|k ks IH]; intros j (k0 & Hk0 & Hbad).
  - by apply elem_of_nil in Hk0.
  - simpl. destruct (is_list_at j k) eqn:Hl.
    + unfold is_list_at in Hl.
      destruct (j !! k) as [[| | | | |l|]|] eqn:Hjk; try discriminate.
      rewrite (validate_key_list n j k l Hn Hjk). simpl.
      apply elem_of_cons in Hk0 as [->|Hk0].
      { unfold is_list_at in Hbad. rewrite Hjk in Hbad. discriminate. }
      apply IH. exists k0. split; [done|].
      unfold is_list_at in *.
      destruct (decide (k = k0)) as [->|Hne].
      * rewrite Hjk in Hbad. discriminate.
      * by rewrite lookup_insert_ne.
    + destruct (validate_key_not_list n j k Hl) as [msg ->]. by exists msg.
Qed.

Lemma required_NoDup : NoDup required.
Proof. apply (bool_decide_unpack _). by vm_compute. Qed.

Lemma forallb_elem_of {A} (f : A -> bool) (l : list A) :
  forallb f l = true <-> forall x, x ∈ l -> f x = true.
Proof.
  rewrite forallb_forall. split; intros H x Hx; apply H; by apply list_elem_of_In.
Qed.

Lemma forallb_false_elem_of {A} (f : A -> bool) (l : list A) :
  forallb f l = false -> exists x, x ∈ l /\ f x = false.
Proof.
  induction l as [|a l IH]; simpl; [discriminate|].
  destruct (f a) eqn:Ha; simpl.
  - intros H. destruct (IH H) as (x & Hx & Hfx). exists x. split; [by right|done].
  - intros _. exists a. split; [left|done].
Qed.

(** C1. For n >= 1 and a parsed object whose required keys, where present,
    hold lists: if all six keys are present, [_validate_output] returns
    (does not raise) and each of the six keys then holds the first n items
    of its list right-padded with empty strings, exactly n items, the other
    keys being untouched; if a required key is absent it raises. *)
Theorem validate_output_arity (n : Z) (j : gmap string pyval) :
  1 <= n ->
  forallb (list_or_absent j) required = true ->
  ((forall k, k ∈ required -> is_Some (j !! k)) ->
   exists j', _validate_output j n = Ok j' /\
     (forall k, k ∈ required ->
        exists l, j !! k = Some (VList l) /\
                  j' !! k = Some (VList (fit l n)) /\ len (fit l n) = n) /\
     (forall k, k ∉ required -> j' !! k = j !! k)) /\
  ((exists k, k ∈ required /\ j !! k = None) ->
   exists msg, _validate_output j n = Raise (ValueError msg)).
Proof.
  intros Hn Hl. rewrite forallb_elem_of in Hl. split.
  - intros Hall.
    assert (Hlists : forall k, k ∈ required -> is_list_at j k = true).
    { intros k Hk. specialize (Hl k Hk). destruct (Hall k Hk) as [v Hv].
      unfold list_or_absent, is_list_at in *. rewrite Hv in *.
      by destruct v. }
    destruct (validate_keys_ok n required j) as (j' & Hrun & Hin & Hout);
      [lia | apply required_NoDup | done |].
    exists j'. split; [done|]. split; [|done].
    intros k Hk. specialize (Hlists k Hk). unfold is_list_at in Hlists.
    destruct (j !! k) as [[| | | | |l|]|] eqn:Hjk; try discriminate.
    exists l. split; [done|]. split; [by apply Hin | apply len_fit; lia].
  - intros (k & Hk & Habs). apply validate_keys_raise; [lia|].
    exists k. split; [done|]. unfold is_list_at. by rewrite Habs.
Qed.

Definition j_three_and_none : gmap string pyval :=
  list_to_map
    [("q_en", VList [VStr "a"; VStr "b"; VStr "c"]); ("a_en", VList []);
     ("q_hi", VList [VStr "d"]); ("a_hi", VList [VStr "e"; VStr "f"]);
     ("q_sa", VList []); ("a_sa", VList [VStr "g"]); ("note", VInt 7)].

Lemma validate_output_arity_witness :
  1 <= 2 /\
  forallb (list_or_absent j_three_and_none) required = true /\
  exists j', _validate_output j_three_and_none 2 = Ok j' /\
    j' !! "q_en" = Some (VList [VStr "a"; VStr "b"]) /\
    j' !! "a_en" = Some (VList [VStr ""; VStr ""]) /\
    j' !! "note" = Some (VInt 7).
Proof.
  split; [lia|]. split; [reflexivity|].
  destruct (validate_output_arity 2 j_three_and_none) as [Hok _];
    [lia | reflexivity |].
  destruct Hok as (j' & Hrun & Hin & Hout).
  { intros k Hk. apply list_elem_of_In in Hk. simpl in Hk.
    repeat (destruct Hk as [<-|Hk]; [vm_compute; eauto|]). destruct Hk. }
  exists j'. split; [exact Hrun|].
  destruct (Hin "q_en") as (l1 & Hl1 & Hj1 & _); [by vm_compute; left|].
  destruct (Hin "a_en") as (l2 & Hl2 & Hj2 & _); [by vm_compute; right; left|].
  vm_compute in Hl1, Hl2. injection Hl1 as <-. injection Hl2 as <-.
  split; [exact Hj1|]. split; [exact Hj2|].
  rewrite Hout; [reflexivity|].
  intros Hk. apply list_elem_of_In in Hk. simpl in Hk.
  repeat (destruct Hk as [Hk|Hk]; [discriminate Hk|]). destruct Hk.
Defined.

End validation.

(** ** Fan-out generation *)

Section fanout.

Lemma validate_output_ok_inv j n j' :
  0 <= n -> _validate_output j n = Ok j' ->
  forall k, k ∈ required ->
    exists l, j !! k = Some (VList l) /\ j' !! k = Some (VList (fit l n)).
Proof.
  intros Hn Hrun.
  destruct (forallb (is_list_at j) required) eqn:Hall.
  - rewrite forallb_elem_of in Hall.
    destruct (validate_keys_ok n required j Hn required_NoDup Hall)
      as (j2 & Hrun2 & Hin & _).
    unfold _validate_output in Hrun. rewrite Hrun2 in Hrun.
    injection Hrun as <-. intros k Hk. specialize (Hall k Hk).
    unfold is_list_at in Hall.
    destruct (j !! k) as [[| | | | |l|]|] eqn:Hjk; try discriminate.
    exists l. split; [done|]. by apply Hin.
  - apply forallb_false_elem_of in Hall. destruct Hall as (k & Hk & Hbad).
    destruct (validate_keys_raise n required j Hn) as [msg Hr].
    { by exists k. }
    unfold _validate_output in Hrun. congruence.
Qed.

(** A task that returns has been validated with [n = 1]. *)
Definition singletons (o : Result (gmap string pyval)) : Prop :=
  match o with
  | Ok r => forall k, k ∈ required -> exists x, r !! k = Some (VList [x])
  | Raise _ => True
  end.

Lemma retry_loop_singletons srv req rank attempts last_err :
  singletons (fst (retry_loop srv req rank attempts last_err)).
Proof.
  revert last_err. induction attempts as [|a rest IH]; intros last_err; simpl.
  - done.
  - destruct (post srv req rank a) as [e|[parsed|]].
    + specialize (IH (Some e)). by destruct (retry_loop srv req rank rest (Some e)).
    + case_bool_decide.
      * match goal with |- context [retry_loop _ _ _ _ (Some ?e)] =>
          specialize (IH (Some e)); by destruct (retry_loop srv req rank rest (Some e)) end.
      * destruct (_validate_output parsed 1) as [parsed'|e] eqn:Hv.
        -- simpl. intros k Hk.
           destruct (validate_output_ok_inv parsed 1 parsed' ltac:(lia) Hv k Hk)
             as (l & _ & Hk').
           pose proof (len_fit l 1 ltac:(lia)) as Hlen. unfold len in Hlen.
           destruct (fit l 1) as [|x [|y t]]; simpl in Hlen; try lia.
           by exists x.
        -- specialize (IH (Some e)).
           by destruct (retry_loop srv req rank rest (Some e)).
    + match goal with |- context [retry_loop _ _ _ _ (Some ?e)] =>
        specialize (IH (Some e)); by destruct (retry_loop srv req rank rest (Some e)) end.
Qed.

Lemma run_tasks_singletons cfg srv sanskrit english model n :
  Forall singletons (map fst (run_tasks cfg srv sanskrit english model n)).
Proof.
  unfold run_tasks. rewrite map_map. apply Forall_map, Forall_forall.
  intros rank _. apply retry_loop_singletons.
Qed.

Lemma run_tasks_length cfg srv sanskrit english model n :
  length (run_tasks cfg srv sanskrit english model n) = Z.to_nat n.
Proof. unfold run_tasks. by rewrite length_map, length_seq. Qed.

(** The accumulators hold [vals k] under each key [k]. *)
Definition holds (vals : string -> list pyval) (res : gmap string pyval) : Prop :=
  forall k, k ∈ required -> res !! k = Some (VList (vals k)).

Lemma merge_keys_lists ks r res :
  NoDup ks ->
  (forall k, k ∈ ks -> exists l, r !! k = Some (VList l)) ->
  (forall k, k ∈ ks -> exists acc, res !! k = Some (VList acc)) ->
  (forall k acc l, k ∈ ks -> res !! k = Some (VList acc) -> r !! k = Some (VList l) ->
     merge_keys ks r res !! k = Some (VList (acc ++ l))) /\
  (forall k, k ∉ ks -> merge_keys ks r res !! k = res !! k).
Proof.
  revert res. induction ks as [|k0 ks IH]; intros res Hnd Hr Hres.
  - split; [|done]. intros k acc l Hk. by apply elem_of_nil in Hk.
  - apply NoDup_cons in Hnd as [Hk0 Hnd].
    destruct (Hr k0) as [l0 Hl0]; [left|].
    destruct (Hres k0) as [acc0 Hacc0]; [left|].
    simpl. rewrite Hl0, Hacc0. simpl.
    destruct (IH (<[k0 := VList (acc0 ++ l0)]> res) Hnd) as [Hin Hout].
    { intros k Hk. apply Hr. by right. }
    { intros k Hk. destruct (decide (k0 = k)) as [->|Hne]; [done|].
      rewrite lookup_insert_ne by done. apply Hres. by right. }
    split.
    + intros k acc l Hk Hacc Hl. apply elem_of_cons in Hk as [->|Hk].
      * rewrite Hout by done. rewrite lookup_insert_eq. congruence.
      * apply Hin; [done| |done]. rewrite lookup_insert_ne; [done|]. by intros ->.
    + intros k Hk. apply not_elem_of_cons in Hk as [Hne Hk].
      rewrite Hout by done. by rewrite lookup_insert_ne.
Qed.

Lemma merge_holds vals res o :
  singletons o -> holds vals res ->
  holds (fun k => vals k ++ contribution k o) (merge res o).
Proof.
  intros Ho Hres. destruct o as [r|e].
  - change (merge res (Ok r)) with (merge_keys required r res).
    change (singletons (Ok r))
      with (forall k, k ∈ required -> exists x, r !! k = Some (VList [x])) in Ho.
    destruct (merge_keys_lists required r res required_NoDup) as [Hin _].
    { intros k Hk. destruct (Ho k Hk) as [x Hx]. eauto. }
    { intros k Hk. eauto. }
    intros k Hk. destruct (Ho k Hk) as [x Hx].
    rewrite (Hin k (vals k) [x]); auto.
    unfold contribution. by rewrite Hx.
  - intros k Hk. unfold merge, contribution. rewrite app_nil_r. by apply Hres.
Qed.

Lemma fold_merge_holds outcomes vals res :
  Forall singletons outcomes -> holds vals res ->
  holds (fun k => vals k ++ attempt_values k outcomes)
        (fold_left merge outcomes res).
Proof.
  revert vals res. induction outcomes as [|o outs IH]; intros vals res Hall Hres.
  - simpl. intros k Hk. unfold attempt_values. simpl. rewrite app_nil_r. by apply Hres.
  - apply Forall_cons in Hall as [Ho Hall]. simpl.
    specialize (IH _ _ Hall (merge_holds vals res o Ho Hres)).
    intros k Hk. rewrite (IH k Hk). unfold attempt_values. simpl.
    by rewrite <- app_assoc.
Qed.

Lemma empty_results_holds : holds (fun _ => []) empty_results.
Proof.
  intros k Hk. apply list_elem_of_In in Hk. simpl in Hk.
  repeat (destruct Hk as [<-|Hk]; [reflexivity|]). destruct Hk.
Qed.

Lemma attempt_values_length k outcomes :
  k ∈ required -> Forall singletons outcomes ->
  (length (attempt_values k outcomes) + failures outcomes = length outcomes)%nat.
Proof.
  intros Hk. induction 1 as [|o outs Ho _ IH]; [done|].
  unfold attempt_values, failures in *. simpl. rewrite length_app.
  destruct o as [r|e]; simpl in *.
  - destruct (Ho k Hk) as [x ->]. simpl. lia.
  - lia.
Qed.

Lemma generate_for_row_healthy (cfg : Config) (srv : Service)
    (sanskrit english model : string) (n : Z) :
  1 <= n ->
  _check_server_health cfg srv = true ->
  let outcomes := map fst (run_tasks cfg srv sanskrit english model n) in
  let m := failures outcomes in
  length outcomes = Z.to_nat n /\ (m <= Z.to_nat n)%nat /\
  exists res,
    fst (generate_for_row cfg srv sanskrit english model n) = Ok res /\
    forall k, k ∈ required ->
      res !! k = Some (VList (attempt_values k outcomes ++ replicate m (VStr ""))) /\
      length (attempt_values k outcomes) = (Z.to_nat n - m)%nat /\
      len (attempt_values k outcomes ++ replicate m (VStr "")) = n.
Proof.
  intros Hn Hh outcomes m. unfold generate_for_row. rewrite Hh.
  simpl negb. cbv iota.
  destruct (Z.leb_spec n 0) as [|_]; [lia|].
  assert (Hlen : length outcomes = Z.to_nat n).
  { unfold outcomes. by rewrite length_map, run_tasks_length. }
  pose proof (run_tasks_singletons cfg srv sanskrit english model n) as Hs.
  fold outcomes in Hs.
  assert (Hm : forall k, k ∈ required ->
             (length (attempt_values k outcomes) + m = Z.to_nat n)%nat).
  { intros k Hk. rewrite <- Hlen. by apply attempt_values_length. }
  split; [done|]. split.
  { assert (Hq : "q_en" ∈ required) by (vm_compute; left).
    specialize (Hm "q_en" Hq). lia. }
  pose proof (fold_merge_holds outcomes _ _ Hs empty_results_holds) as Hres.
  simpl in Hres. fold outcomes.
  set (results := fold_left merge outcomes empty_results) in *.
  destruct (validate_keys_ok n required results) as (res & Hrun & Hin & _);
    [lia | apply required_NoDup | |].
  { intros k Hk. unfold is_list_at. by rewrite (Hres k Hk). }
  exists res. split; [exact Hrun|].
  intros k Hk. specialize (Hm k Hk).
  assert (Hfit : fit (attempt_values k outcomes) n
                 = attempt_values k outcomes ++ replicate m (VStr "")).
  { unfold fit. rewrite take_ge by lia. do 2 f_equal. lia. }
  rewrite <- Hfit. split; [by apply Hin, Hres|].
  split; [lia | apply len_fit; lia].
Qed.

(** C2 (amended). For n >= 1: when the health check passes and m of the n
    tasks fail, [generate_for_row] returns (it does not raise) a result
    whose six keys each hold the successful tasks' values followed by m
    empty strings, n items in all; when the health check fails it raises
    [RuntimeError] with no generate request sent. *)
Theorem generate_for_row_partial_yield (cfg : Config) (srv : Service)
    (sanskrit english model : string) (n : Z) :
  1 <= n ->
  let outcomes := map fst (run_tasks cfg srv sanskrit english model n) in
  let m := failures outcomes in
  (_check_server_health cfg srv = true ->
   length outcomes = Z.to_nat n /\ (m <= Z.to_nat n)%nat /\
   exists res,
     fst (generate_for_row cfg srv sanskrit english model n) = Ok res /\
     forall k, k ∈ required ->
       res !! k = Some (VList (attempt_values k outcomes ++ replicate m (VStr ""))) /\
       length (attempt_values k outcomes) = (Z.to_nat n - m)%nat /\
       len (attempt_values k outcomes ++ replicate m (VStr "")) = n) /\
  (_check_server_health cfg srv = false ->
   generate_for_row cfg srv sanskrit english model n =
     (Raise (RuntimeError "Ollama server is not available or model not found"), [])).
Proof.
  intros Hn outcomes m. split; intros Hh.
  - by apply generate_for_row_healthy.
  - unfold generate_for_row. by rewrite Hh.
Qed.

Definition cfg_default : Config :=
  {| MODEL_NAME := None; MAX_RETRIES := 3;
     PROMPT_TEMPLATE := fun sanskrit english => (sanskrit ++ " / " ++ english)%string |}.

Definition tags_ok (names : list string) : Result TagsResponse :=
  Ok {| status_code := 200; model_names := Ok names |}.

Definition one_pair : gmap string pyval :=
  list_to_map
    [("q_en", VList [VStr "Q"]); ("a_en", VList [VStr "A"]);
     ("q_hi", VList [VStr "Qh"]); ("a_hi", VList [VStr "Ah"]);
     ("q_sa", VList [VStr "Qs"]); ("a_sa", VList [VStr "As"])].

(** The first task to complete answers at once; every other one times out
    on each of its round trips. *)
Definition srv_one_answer : Service :=
  {| get_tags := tags_ok ["gpt-oss:120b"];
     post := fun _ rank _ =>
       match rank with
       | O => Parsed (Some one_pair)
       | S _ => PostRaises (RequestException "Read timed out")
       end |}.

Lemma generate_for_row_partial_yield_witness :
  1 <= 2 /\
  exists res,
    fst (generate_for_row cfg_default srv_one_answer "s" "e" "gpt-oss:120b" 2) = Ok res /\
    res !! "q_en" = Some (VList [VStr "Q"; VStr ""]) /\
    res !! "a_sa" = Some (VList [VStr "As"; VStr ""]).
Proof.
  split; [lia|].
  destruct (generate_for_row_partial_yield cfg_default srv_one_answer
              "s" "e" "gpt-oss:120b" 2) as [Hok _]; [lia|].
  destruct Hok as (_ & _ & res & Hrun & Hkeys); [reflexivity|].
  exists res. split; [exact Hrun|].
  destruct (Hkeys "q_en") as (H1 & _); [by vm_compute; left|].
  destruct (Hkeys "a_sa") as (H2 & _); [by vm_compute; do 5 right; left|].
  split; [exact H1 | exact H2].
Defined.

(** C2, as stated, fails for n = 0: the health check passes, none of the
    zero tasks fails, and the call raises. *)
Lemma generate_for_row_zero_raises :
  _check_server_health cfg_default srv_one_answer = true /\
  failures (map fst (run_tasks cfg_default srv_one_answer "s" "e" "gpt-oss:120b" 0)) = 0%nat /\
  fst (generate_for_row cfg_default srv_one_answer "s" "e" "gpt-oss:120b" 0)
    = Raise (ValueError "max_workers must be greater than 0").
Proof. by vm_compute. Qed.

End fanout.

(** ** The health check *)

Section health.

Lemma retry_loop_sent srv req rank attempts last_err :
  Forall (fun r => r = req) (snd (retry_loop srv req rank attempts last_err)).
Proof.
  revert last_err. induction attempts as [|a rest IH]; intros last_err; simpl.
  - constructor.
  - destruct (post srv req rank a) as [e|[parsed|]].
    + specialize (IH (Some e)).
      destruct (retry_loop srv req rank rest (Some e)). simpl in *. by constructor.
    + case_bool_decide.
      * match goal with |- context [retry_loop _ _ _ _ (Some ?e)] =>
          specialize (IH (Some e));
          destruct (retry_loop srv req rank rest (Some e)) end.
        simpl in *. by constructor.
      * destruct (_validate_output parsed 1) as [parsed'|e].
        -- simpl. by repeat constructor.
        -- specialize (IH (Some e)).
           destruct (retry_loop srv req rank rest (Some e)). simpl in *.
           by constructor.
    + match goal with |- context [retry_loop _ _ _ _ (Some ?e)] =>
        specialize (IH (Some e));
        destruct (retry_loop srv req rank rest (Some e)) end.
      simpl in *. by constructor.
Qed.

Lemma generate_for_row_sent cfg srv sanskrit english model n :
  Forall (fun r => req_model r = model)
         (snd (generate_for_row cfg srv sanskrit english model n)).
Proof.
  unfold generate_for_row.
  destruct (_check_server_health cfg srv); simpl; [|constructor].
  destruct (n <=? 0); simpl; [constructor|].
  apply Forall_concat, Forall_map, Forall_forall. intros task Htask.
  unfold run_tasks in Htask. apply list_elem_of_fmap in Htask as (rank & -> & _).
  unfold _generate_single_qa.
  eapply Forall_impl; [apply retry_loop_sent|]. by intros r ->.
Qed.

Definition health_error : exn :=
  RuntimeError "Ollama server is not available or model not found".

(** C9. The health check passes exactly when the listing answers 200 with
    a name that contains the configured MODEL_NAME (the default when
    unset); whatever the model argument, [generate_for_row] raises the
    health error exactly when that check fails, and every request it sends
    carries the model argument; and there is a call that passes the check
    and sends a request for a model that no listed name contains. *)
Theorem health_check_ignores_model_argument :
  (forall cfg srv,
     _check_server_health cfg srv = true <->
     exists resp names,
       get_tags srv = Ok resp /\ status_code resp = 200 /\
       model_names resp = Ok names /\
       exists name, name ∈ names /\
         contains (default "gpt-oss:120b" (MODEL_NAME cfg)) name = true) /\
  (forall cfg srv sanskrit english model n,
     (fst (generate_for_row cfg srv sanskrit english model n) = Raise health_error
      <-> _check_server_health cfg srv = false) /\
     Forall (fun r => req_model r = model)
            (snd (generate_for_row cfg srv sanskrit english model n))) /\
  (exists cfg srv names sanskrit english model n,
     get_tags srv = tags_ok names /\
     Forall (fun name => contains model name = false) names /\
     _check_server_health cfg srv = true /\
     exists r, r ∈ snd (generate_for_row cfg srv sanskrit english model n) /\
               req_model r = model).
Proof.
  split; [|split].
  - intros cfg srv. unfold _check_server_health. split.
    + destruct (get_tags srv) as [resp|] eqn:Htags; [|discriminate].
      destruct (Z.eqb_spec (status_code resp) 200) as [Hc|]; [|discriminate].
      simpl. destruct (model_names resp) as [names|] eqn:Hnames; [|discriminate].
      destruct (existsb _ names) eqn:Hex; [|discriminate]. intros _.
      apply existsb_exists in Hex as (name & Hin & Hname).
      exists resp, names. split; [done|]. split; [done|]. split; [done|].
      exists name. split; [by apply list_elem_of_In | done].
    + intros (resp & names & -> & Hc & -> & name & Hin & Hname).
      rewrite Hc. simpl.
      assert (Hex : existsb (contains (default "gpt-oss:120b" (MODEL_NAME cfg))) names = true).
      { apply existsb_exists. exists name. split; [by apply list_elem_of_In | done]. }
      by rewrite Hex.
  - intros cfg srv sanskrit english model n. split; [|apply generate_for_row_sent].
    unfold generate_for_row.
    destruct (_check_server_health cfg srv) eqn:Hh; simpl; [|done].
    split; [|discriminate]. intros Hr. exfalso.
    destruct (Z.leb_spec n 0) as [Hn|Hn]; simpl in Hr; [discriminate|].
    destruct (generate_for_row_healthy cfg srv sanskrit english model n)
      as (_ & _ & res & Hrun & _); [lia|done|].
    unfold generate_for_row in Hrun. rewrite Hh in Hrun. simpl in Hrun.
    destruct (Z.leb_spec n 0); [lia|]. simpl in Hrun. congruence.
  - exists cfg_default, srv_one_answer, ["gpt-oss:120b"], "s", "e", "llama3", 1.
    split; [reflexivity|]. split; [by repeat constructor|].
    split; [reflexivity|].
    eexists. split; [vm_compute; left | reflexivity].
Qed.

End health.

(** ** Span extraction *)

Section extraction.

Local Open Scope string_scope.

Lemma append_cons (x : ascii) (a b : string) : String x a ++ b = String x (a ++ b).
Proof. reflexivity. Qed.

Lemma append_nil (b : string) : EmptyString ++ b = b.
Proof. reflexivity. Qed.

Ltac unfold_append := rewrite ?append_cons, ?append_nil.

Lemma append_assoc3 (a b c : string) : (a ++ b) ++ c = a ++ (b ++ c).
Proof. induction a as [|x a IH]; unfold_append; [done|]. by rewrite IH. Qed.

Lemma length_append (a b : string) :
  String.length (a ++ b) = (String.length a + String.length b)%nat.
Proof. induction a as [|x a IH]; unfold_append; simpl; [done|]. by rewrite IH. Qed.

Lemma scan_string_body b :
  string_body b ->
  forall rest i d,
    scan (b ++ String quote_char rest) i d true false
    = scan rest (i + String.length b + 1) d false false.
Proof.
  induction 1 as [|c s Hq Hb _ IH|c s _ IH]; intros rest i d; unfold_append.
  - simpl. f_equal. lia.
  - simpl. rewrite Hb, Hq. simpl. rewrite IH. f_equal. lia.
  - simpl. rewrite IH. f_equal. lia.
Qed.

Lemma scan_items b :
  items b ->
  forall rest i d, 1 <= d ->
    scan (b ++ rest) i d false false
    = scan rest (i + String.length b) d false false.
Proof.
  induction 1 as [|c s Hc _ IH|b s Hb _ IH|o b c s Hm _ IHb _ IHs];
    intros rest i d Hd; unfold_append.
  - simpl. f_equal. lia.
  - unfold plain in Hc. apply negb_true_iff in Hc.
    apply orb_false_iff in Hc as [Hc Hbs]. apply orb_false_iff in Hc as [Hc Hq].
    apply orb_false_iff in Hc as [Hop Hcl].
    cbn [scan]. rewrite Hbs, Hq, Hop, Hcl. cbn [andb negb].
    rewrite IH by done. simpl. f_equal. lia.
  - rewrite append_assoc3. unfold_append. simpl.
    rewrite scan_string_body by done. rewrite IH by done.
    rewrite length_append. simpl. f_equal. lia.
  - assert (Ho : Ascii.eqb o backslash = false /\ Ascii.eqb o quote_char = false
                 /\ is_open o = true) by (destruct Hm as [[-> _]|[-> _]]; done).
    assert (Hcl : Ascii.eqb c backslash = false /\ Ascii.eqb c quote_char = false
                  /\ is_open c = false /\ is_close c = true)
      by (destruct Hm as [[_ ->]|[_ ->]]; done).
    destruct Ho as (Ho1 & Ho2 & Ho3). destruct Hcl as (Hc1 & Hc2 & Hc3 & Hc4).
    simpl. rewrite Ho1, Ho2, Ho3. simpl.
    rewrite append_assoc3. rewrite IHb by lia. unfold_append.
    simpl. rewrite Hc1, Hc2, Hc3, Hc4. simpl.
    destruct (Z.eqb_spec (d + 1 - 1) 0); [lia|].
    replace (d + 1 - 1) with d by lia.
    rewrite IHs by done. rewrite length_append. simpl. f_equal. lia.
Qed.

(** Scanning a balanced object from depth 0 stops on its last character. *)
Lemma scan_balanced_object t rest i :
  balanced_object t ->
  scan (t ++ rest) i 0 false false = Some (i + String.length t - 1)%nat.
Proof.
  intros (b & Hb & ->). unfold_append. simpl. rewrite append_assoc3.
  rewrite scan_items by (done || lia). unfold_append. simpl.
  rewrite length_append. simpl. f_equal. lia.
Qed.

Lemma find_char_append c (a b : string) :
  find_char c a = None ->
  find_char c (a ++ String c b) = Some (String.length a).
Proof.
  induction a as [|x a IH]; unfold_append; simpl.
  - by rewrite Ascii.eqb_refl.
  - destruct (Ascii.eqb x c); [discriminate|].
    destruct (find_char c a); [discriminate|]. intros _. by rewrite IH.
Qed.

Lemma string_drop_append (a b : string) : string_drop (String.length a) (a ++ b) = b.
Proof. induction a as [|x a IH]; unfold_append; simpl; [by destruct b|done]. Qed.

Lemma substring_append (a b c : string) :
  substring (String.length a) (String.length b) (a ++ b ++ c) = b.
Proof.
  induction a as [|x a IH]; unfold_append; simpl; [|done].
  induction b as [|y b IHb]; unfold_append; simpl; [by destruct c|]. by rewrite IHb.
Qed.

Lemma extract_balanced (narrative obj trailing : string) :
  find_char "{" narrative = None ->
  balanced_object obj ->
  _extract_first_json (narrative ++ obj ++ trailing) = Some obj.
Proof.
  intros Hn Hobj. unfold _extract_first_json.
  pose proof Hobj as (b & Hb & Ht).
  assert (Hne : string_empty (narrative ++ obj ++ trailing) = false).
  { rewrite Ht. by destruct narrative. }
  rewrite Hne.
  assert (Hfind : find_char "{" (narrative ++ obj ++ trailing)
                  = Some (String.length narrative)).
  { rewrite Ht. unfold_append. by apply find_char_append. }
  rewrite Hfind, string_drop_append, scan_balanced_object by done.
  assert (Hlen : (1 <= String.length obj)%nat) by (rewrite Ht; simpl; lia).
  replace (String.length narrative + String.length obj - 1 + 1
           - String.length narrative)%nat with (String.length obj) by lia.
  by rewrite substring_append.
Qed.

(** One turn of the loop, inside the object, is one step of the lexer. *)
Lemma scan_step c rest i st :
  1 <= depth st ->
  scan (String c rest) i (depth st) (in_string st) (escaped st) =
  if (depth (lex_step st c) =? 0)%Z
  then Some i
  else scan rest (S i) (depth (lex_step st c)) (in_string (lex_step st c))
         (escaped (lex_step st c)).
Proof.
  destruct st as [d ins esc]. unfold lex_step.
  cbn [scan depth in_string escaped]. intros Hd.
  destruct esc; cbn [negb andb depth in_string escaped].
  { destruct (Z.eqb_spec d 0); [lia|done]. }
  destruct (Ascii.eqb c backslash); cbn [depth in_string escaped andb].
  { destruct (Z.eqb_spec d 0); [lia|done]. }
  destruct (Ascii.eqb c quote_char); cbn [depth in_string escaped andb negb].
  { destruct (Z.eqb_spec d 0); [lia|done]. }
  destruct ins; cbn [depth in_string escaped andb negb].
  { destruct (Z.eqb_spec d 0); [lia|done]. }
  destruct (is_open c); cbn [depth in_string escaped].
  { destruct (Z.eqb_spec (d + 1) 0); [lia|done]. }
  destruct (is_close c); cbn [depth in_string escaped].
  { done. }
  destruct (Z.eqb_spec d 0); [lia|done].
Qed.

Lemma lex_step_depth st c :
  1 <= depth st -> depth (lex_step st c) ≠ 0 -> 1 <= depth (lex_step st c).
Proof.
  destruct st as [d ins esc]. unfold lex_step. simpl.
  destruct esc, (Ascii.eqb c backslash), (Ascii.eqb c quote_char), ins,
    (is_open c), (is_close c); simpl; lia.
Qed.

(** The loop against the lexer: it stops at the end of the shortest
    non-empty prefix that brings the depth back to zero, and runs off the
    end when there is none. *)
Lemma scan_lex rest : forall i st,
  1 <= depth st ->
  match scan rest i (depth st) (in_string st) (escaped st) with
  | Some j =>
      exists p q,
        rest = p ++ q /\ p ≠ EmptyString /\
        j = (i + String.length p - 1)%nat /\
        depth (lex st p) = 0 /\
        (forall p1 p2, p = p1 ++ p2 -> p1 ≠ EmptyString -> p2 ≠ EmptyString ->
           depth (lex st p1) ≠ 0)
  | None =>
      forall p q, rest = p ++ q -> p ≠ EmptyString -> depth (lex st p) ≠ 0
  end.
Proof.
  induction rest as [|c rest IH]; intros i st Hd.
  - simpl. intros [|x p] q Heq Hp; [done|]. by rewrite append_cons in Heq.
  - rewrite scan_step by done.
    destruct (Z.eqb_spec (depth (lex_step st c)) 0) as [Hz|Hnz].
    + exists (String c EmptyString), rest. split; [done|]. split; [done|].
      split; [simpl; lia|]. split; [done|].
      intros [|x [|y p1]] [|z p2] Heq H1 H2; try done;
        rewrite ?append_cons, ?append_nil in Heq; try done.
    + pose proof (lex_step_depth st c Hd Hnz) as Hd'.
      specialize (IH (S i) (lex_step st c) Hd').
      destruct (scan rest (S i) _ _ _) as [j|].
      * destruct IH as (p & q & -> & Hp & -> & Hzero & Hmin).
        exists (String c p), q. split; [done|]. split; [done|].
        split; [destruct p; [done|]; simpl; lia|]. split; [done|].
        intros [|x p1] p2 Heq H1 H2; [done|].
        rewrite append_cons in Heq. injection Heq as -> ->.
        destruct p1 as [|y p1]; [done|].
        simpl. apply (Hmin (String y p1) p2); done.
      * intros [|x p] q Heq Hp; [done|].
        rewrite append_cons in Heq. injection Heq as -> ->.
        destruct p as [|y p]; [done|].
        simpl. by apply (IH (String y p) q).
Qed.

Lemma find_char_Some_split c s n :
  find_char c s = Some n ->
  exists pre rest,
    s = pre ++ String c rest /\ String.length pre = n /\ find_char c pre = None.
Proof.
  revert n. induction s as [|a s IH]; intros n; simpl; [done|].
  destruct (Ascii.eqb a c) eqn:Hac.
  - intros [= <-]. apply Ascii.eqb_eq in Hac as ->.
    by exists EmptyString, s.
  - destruct (find_char c s) as [m|]; [|done]. intros [= <-].
    destruct (IH m eq_refl) as (pre & rest & -> & <- & Hpre).
    exists (String a pre), rest. rewrite append_cons. simpl.
    by rewrite Hac, Hpre.
Qed.

Lemma extract_Some s t :
  _extract_first_json s = Some t ->
  exists pre body post,
    s = pre ++ t ++ post /\ find_char "{" pre = None /\
    t = String "{" body /\
    depth (lex lex_start t) = 0 /\
    (forall p1 p2, t = p1 ++ p2 -> p1 ≠ EmptyString -> p2 ≠ EmptyString ->
       depth (lex lex_start p1) ≠ 0).
Proof.
  unfold _extract_first_json. destruct (string_empty s); [done|].
  destruct (find_char "{" s) as [start|] eqn:Hfind; [|done].
  apply find_char_Some_split in Hfind as (pre & rest & -> & <- & Hpre).
  rewrite string_drop_append.
  change (scan (String "{" rest) (String.length pre) 0 false false)
    with (scan rest (S (String.length pre)) (depth lex_inside)
            (in_string lex_inside) (escaped lex_inside)).
  pose proof (scan_lex rest (S (String.length pre)) lex_inside) as Hscan.
  destruct (scan rest _ _ _ _) as [j|]; [|done].
  destruct Hscan as (p & q & -> & Hp & -> & Hzero & Hmin); [done|].
  match goal with |- Some (substring _ ?n _) = _ -> _ =>
    replace n with (String.length (String "{" p))
      by (destruct p; [done|]; simpl; lia) end.
  change (pre ++ String "{" (p ++ q)) with (pre ++ (String "{" p) ++ q).
  rewrite substring_append. intros [= <-].
  exists pre, p, q. split; [done|]. split; [done|]. split; [done|].
  split; [exact Hzero|].
  intros [|x p1] p2 Heq H1 H2; [done|].
  rewrite append_cons in Heq. injection Heq as <- ->.
  destruct p1 as [|y p1]; [done|].
  apply (Hmin (String y p1) p2); done.
Qed.

Lemma extract_None s :
  _extract_first_json s = None ->
  forall pre rest,
    s = pre ++ String "{" rest -> find_char "{" pre = None ->
    forall p q, rest = p ++ q -> depth (lex lex_start (String "{" p)) ≠ 0.
Proof.
  intros Hnone pre rest -> Hpre p q ->. revert Hnone.
  unfold _extract_first_json.
  assert (Hne : string_empty (pre ++ String "{" (p ++ q)) = false)
    by (by destruct pre).
  rewrite Hne, (find_char_append "{" pre _ Hpre), string_drop_append.
  change (scan (String "{" (p ++ q)) (String.length pre) 0 false false)
    with (scan (p ++ q) (S (String.length pre)) (depth lex_inside)
            (in_string lex_inside) (escaped lex_inside)).
  pose proof (scan_lex (p ++ q) (S (String.length pre)) lex_inside) as Hscan.
  destruct (scan (p ++ q) _ _ _ _) as [j|]; [done|]. intros _.
  destruct p as [|x p]; [done|].
  apply (Hscan ltac:(done) (String x p) q); done.
Qed.

(** C6. When [_extract_first_json] returns a text, that text starts at
    the first opening brace of the input and ends where the lexer's depth
    first returns to zero (no shorter prefix brings it back to zero); when
    it returns nothing, the depth never returns to zero after the first
    brace. In a text made of a narrative without brace, a balanced
    structured object and anything after it, the result is exactly the
    object: brackets inside quoted strings and escaped quotes do not end
    the span. *)
Theorem extract_first_json_span :
  (forall s t,
     _extract_first_json s = Some t ->
     exists pre body post,
       s = pre ++ t ++ post /\ find_char "{" pre = None /\
       t = String "{" body /\
       depth (lex lex_start t) = 0 /\
       (forall p1 p2, t = p1 ++ p2 -> p1 ≠ EmptyString -> p2 ≠ EmptyString ->
          depth (lex lex_start p1) ≠ 0)) /\
  (forall s,
     _extract_first_json s = None ->
     forall pre rest,
       s = pre ++ String "{" rest -> find_char "{" pre = None ->
       forall p q, rest = p ++ q -> depth (lex lex_start (String "{" p)) ≠ 0) /\
  (forall narrative obj trailing,
     find_char "{" narrative = None ->
     balanced_object obj ->
     _extract_first_json (narrative ++ obj ++ trailing) = Some obj).
Proof.
  split; [exact extract_Some|]. split; [exact extract_None|].
  exact extract_balanced.
Qed.

(** The example of the spec: a narrative, then an object with a quoted
    string that holds an escaped quote and a closing brace. *)
Definition dq : string := String quote_char EmptyString.
Definition bs : string := String backslash EmptyString.
Definition sample_inner : string :=
  dq ++ "a" ++ dq ++ ": " ++ dq ++ "x" ++ bs ++ dq ++ "}y" ++ dq.
Definition sample_object : string := "{" ++ sample_inner ++ "}".

Lemma sample_object_balanced : balanced_object sample_object.
Proof.
  exists sample_inner. split; [|reflexivity].
  apply (items_string "a" (": " ++ dq ++ "x" ++ bs ++ dq ++ "}y" ++ dq)).
  { apply body_char; [reflexivity | reflexivity | apply body_end]. }
  apply items_plain; [reflexivity|]. apply items_plain; [reflexivity|].
  apply (items_string ("x" ++ bs ++ dq ++ "}y") EmptyString); [|apply items_end].
  apply body_char; [reflexivity | reflexivity |].
  apply (body_escape quote_char "}y").
  apply body_char; [reflexivity | reflexivity |].
  apply body_char; [reflexivity | reflexivity | apply body_end].
Defined.

Lemma extract_first_json_span_witness :
  find_char "{" "Sure, here it is: " = None /\
  balanced_object sample_object /\
  _extract_first_json ("Sure, here it is: " ++ sample_object ++ " and a stray }")
    = Some sample_object.
Proof.
  split; [reflexivity|]. split; [apply sample_object_balanced|].
  apply (proj2 (proj2 extract_first_json_span));
    [reflexivity | apply sample_object_balanced].
Defined.

End extraction.

(** ** The table store: existing Q&A data *)

Section existing.

Lemma prefix_append (p1 p2 s : string) :
  String.prefix (p1 +:+ p2) s = true -> String.prefix p1 s = true.
Proof.
  revert s. induction p1 as [|a p1 IH]; intros s; [by destruct s|].
  change (String a p1 +:+ p2) with (String a (p1 +:+ p2)).
  destruct s as [|b s]; simpl; [done|].
  destruct (ascii_dec a b); [apply IH | done].
Qed.

Lemma is_question_is_qa col : is_question col = true -> is_qa col = true.
Proof.
  unfold is_question, is_qa, startswith_any, startswith. simpl.
  rewrite !orb_false_r. intros H.
  assert (Hq : String.prefix "q_" col = true).
  { apply orb_true_iff in H as [H|H]; [|apply orb_true_iff in H as [H|H]].
    - by apply (prefix_append "q_" "en_").
    - by apply (prefix_append "q_" "hi_").
    - by apply (prefix_append "q_" "sa_"). }
  by rewrite Hq.
Qed.

(** What the code computes: some question column of the row is not blank. *)
Lemma has_existing_qa_data_iff (st : CSVStorage) (idx : Z) :
  has_existing_qa_data st idx = true <->
  0 <= idx < storage.row_count st /\
  exists col v, col ∈ columns (df st) /\ is_question col = true /\
                cell (df st) (Z.to_nat idx) col = Some v /\ blank v = false.
Proof.
  unfold has_existing_qa_data, storage.row_count, cell.
  destruct (Z.ltb_spec idx 0) as [Hneg|Hpos]; simpl.
  { split; [discriminate | lia]. }
  destruct (Z.leb_spec (len (rows (df st))) idx) as [Hbig|Hin]; simpl.
  { split; [discriminate | lia]. }
  destruct (rows (df st) !! Z.to_nat idx) as [row|] eqn:Hrow; simpl.
  - rewrite existsb_exists. split.
    + intros (col & Hcol & Hv). apply filter_In in Hcol as [Hcol Hq].
      destruct (row !! col) as [v|] eqn:Hcell; [|discriminate].
      split; [lia|]. exists col, v.
      split; [by apply list_elem_of_In|]. split; [done|]. split; [done|].
      unfold blank. by apply negb_true_iff.
    + intros (_ & col & v & Hcol & Hq & Hcell & Hv).
      exists col. split.
      * apply filter_In. split; [by apply list_elem_of_In | done].
      * rewrite Hcell. unfold blank in Hv. by rewrite Hv.
  - split; [discriminate|]. intros (_ & col & v & _ & _ & Hcell & _). discriminate.
Qed.

(** C3 (amended). Out of range the answer is false. In range, a question
    column (q_en_, q_hi_, q_sa_) with content that is not blank makes the
    answer true, and a true answer means that some QA column of the row
    holds content that is not blank. *)
Theorem has_existing_qa_data_question_columns (st : CSVStorage) (idx : Z) :
  (idx < 0 \/ storage.row_count st <= idx -> has_existing_qa_data st idx = false) /\
  (0 <= idx < storage.row_count st ->
   (forall col v,
      col ∈ columns (df st) -> is_question col = true ->
      cell (df st) (Z.to_nat idx) col = Some v -> blank v = false ->
      has_existing_qa_data st idx = true) /\
   (has_existing_qa_data st idx = true ->
    exists col v,
      col ∈ columns (df st) /\ is_qa col = true /\
      cell (df st) (Z.to_nat idx) col = Some v /\ blank v = false)).
Proof.
  split.
  - intros Hout. destruct (has_existing_qa_data st idx) eqn:H; [|done].
    apply has_existing_qa_data_iff in H as [Hin _]. lia.
  - intros Hin. split.
    + intros col v Hcol Hq Hcell Hv. apply has_existing_qa_data_iff.
      split; [done|]. by exists col, v.
    + intros H. apply has_existing_qa_data_iff in H
        as (_ & col & v & Hcol & Hq & Hcell & Hv).
      exists col, v. split; [done|]. split; [by apply is_question_is_qa|done].
Qed.

(** A table with an answer but no question in row 0, and a question made
    of spaces in row 1. *)
Definition frame_answer_only : DataFrame :=
  {| columns := ["sanskrit"; "english"; "tags"; "q_en_1"; "a_en_1"];
     rows :=
       [ list_to_map [("sanskrit", "s0"); ("english", "e0"); ("tags", "");
                      ("q_en_1", ""); ("a_en_1", "Patience.")];
         list_to_map [("sanskrit", "s1"); ("english", "e1"); ("tags", "");
                      ("q_en_1", "  "); ("a_en_1", "")] ] |}.

Definition store_answer_only : CSVStorage :=
  {| csv_path := "data/f.csv"; df := frame_answer_only |}.

Lemma has_existing_qa_data_witness :
  has_existing_qa_data
    {| csv_path := "data/f.csv";
       df := at_set frame_answer_only 0 "q_en_1" "Who?" |} 0 = true.
Proof.
  refine (proj1 (proj2 (has_existing_qa_data_question_columns _ 0) _)
            "q_en_1" "Who?" _ _ _ _).
  - vm_compute. split; [discriminate | reflexivity].
  - vm_compute. do 3 right. left.
  - reflexivity.
  - reflexivity.
  - reflexivity.
Defined.

(** C3, as stated, fails: row 0 holds an answer and row 1 holds a question
    that is not the empty string, and the answer is false for both. *)
Lemma has_existing_qa_data_misses :
  storage.row_count store_answer_only = 2 /\
  is_qa "a_en_1" = true /\
  cell (df store_answer_only) 0 "a_en_1" = Some "Patience." /\
  has_existing_qa_data store_answer_only 0 = false /\
  is_qa "q_en_1" = true /\
  cell (df store_answer_only) 1 "q_en_1" = Some "  " /\
  has_existing_qa_data store_answer_only 1 = false.
Proof. by vm_compute. Qed.

End existing.

(** ** The table store: cell writes *)

Section cells.

Lemma cell_at_set_eq d idx col v :
  (idx < length (rows d))%nat -> cell (at_set d idx col v) idx col = Some v.
Proof.
  intros Hidx. unfold cell, at_set. simpl. rewrite list_lookup_alter_eq.
  destruct (lookup_lt_is_Some_2 (rows d) idx Hidx) as [r ->]. simpl.
  by rewrite lookup_insert_eq.
Qed.

Lemma cell_at_set_ne d idx col v i c :
  i ≠ idx \/ c ≠ col -> cell (at_set d idx col v) i c = cell d i c.
Proof.
  intros Hne. unfold cell, at_set. simpl.
  destruct (decide (i = idx)) as [->|Hi].
  - rewrite list_lookup_alter_eq. destruct (rows d !! idx) as [r|]; [|done].
    simpl. destruct Hne as [?|Hc]; [done|]. by rewrite lookup_insert_ne.
  - by rewrite list_lookup_alter_ne.
Qed.

Lemma cell_set_column_ne d col v i c :
  c ≠ col -> cell (set_column d col v) i c = cell d i c.
Proof.
  intros Hc. unfold cell, set_column. simpl. rewrite list_lookup_fmap.
  destruct (rows d !! i) as [r|]; [|done]. simpl. by rewrite lookup_insert_ne.
Qed.

Lemma has_column_true d col : has_column d col = true <-> col ∈ columns d.
Proof. unfold has_column. by rewrite bool_decide_eq_true. Qed.

Lemma has_column_false d col : has_column d col = false <-> col ∉ columns d.
Proof. unfold has_column. by rewrite bool_decide_eq_false. Qed.

Lemma ensure_column_columns d col c :
  c ∈ columns (ensure_column d col) <-> c ∈ columns d \/ c = col.
Proof.
  unfold ensure_column. destruct (has_column d col) eqn:H.
  - apply has_column_true in H. split; [by left|]. by intros [?| ->].
  - unfold set_column. simpl. rewrite H. rewrite elem_of_app, list_elem_of_singleton.
    done.
Qed.

Lemma ensure_column_rows d col :
  length (rows (ensure_column d col)) = length (rows d).
Proof.
  unfold ensure_column. destruct (has_column d col); [done|].
  unfold set_column. simpl. by rewrite length_fmap.
Qed.

Lemma cell_ensure_column d col i c :
  c ≠ col \/ c ∈ columns d -> cell (ensure_column d col) i c = cell d i c.
Proof.
  intros H. unfold ensure_column. destruct (has_column d col) eqn:Hc; [done|].
  apply has_column_false in Hc. apply cell_set_column_ne.
  destruct H as [?|H]; [done|]. by intros ->.
Qed.

Lemma put_rows idx d w : length (rows (put idx d w)) = length (rows d).
Proof.
  unfold put, at_set. simpl. by rewrite length_alter, ensure_column_rows.
Qed.

Lemma put_columns idx d w c :
  c ∈ columns (put idx d w) <-> c ∈ columns d \/ c = fst w.
Proof. unfold put, at_set. simpl. apply ensure_column_columns. Qed.

Lemma cell_put_eq idx d w :
  (idx < length (rows d))%nat -> cell (put idx d w) idx (fst w) = Some (snd w).
Proof.
  intros Hidx. unfold put. apply cell_at_set_eq. by rewrite ensure_column_rows.
Qed.

Lemma cell_put_other_column idx d w i c :
  c ≠ fst w -> cell (put idx d w) i c = cell d i c.
Proof.
  intros Hc. unfold put. rewrite cell_at_set_ne by (by right).
  apply cell_ensure_column. by left.
Qed.

Lemma cell_put_other_row idx d w i c :
  i ≠ idx -> c ∈ columns d -> cell (put idx d w) i c = cell d i c.
Proof.
  intros Hi Hc. unfold put. rewrite cell_at_set_ne by (by left).
  apply cell_ensure_column. by right.
Qed.

Lemma last_write_app col ws1 ws2 :
  last_write col (ws1 ++ ws2) =
  match last_write col ws2 with
  | Some v => Some v
  | None => last_write col ws1
  end.
Proof.
  induction ws1 as [|w ws1 IH]; simpl.
  - by destruct (last_write col ws2).
  - rewrite IH. by destruct (last_write col ws2).
Qed.

Lemma last_write_Some col ws v :
  last_write col ws = Some v -> (col, v) ∈ ws.
Proof.
  induction ws as [|[c x] ws IH]; simpl; [done|].
  destruct (last_write col ws) as [v'|].
  - intros [= <-]. right. by apply IH.
  - case_bool_decide; [|done]. simpl in *. intros [= <-]. subst. left.
Qed.

Lemma last_write_None col ws :
  last_write col ws = None <-> col ∉ map fst ws.
Proof.
  induction ws as [|[c x] ws IH]; simpl.
  - split; [intros _; apply not_elem_of_nil | done].
  - rewrite not_elem_of_cons, <- IH.
    destruct (last_write col ws); [by split; [|intros [_ ?]]|].
    case_bool_decide; simpl in *.
    + split; [done|]. intros [Hne _]. congruence.
    + split; [|done]. intros _. split; [congruence | done].
Qed.

(** The effect of a list of writes on the frame. *)
Lemma fold_put idx ws d :
  let d' := fold_left (put idx) ws d in
  length (rows d') = length (rows d) /\
  (forall c, c ∈ columns d' <-> c ∈ columns d \/ c ∈ map fst ws) /\
  (forall i c, i ≠ idx -> c ∈ columns d -> cell d' i c = cell d i c) /\
  (forall c, (idx < length (rows d))%nat ->
     cell d' idx c = match last_write c ws with
                     | Some v => Some v
                     | None => cell d idx c
                     end).
Proof.
  induction ws as [|w ws IH] using rev_ind; cbv zeta.
  - simpl. split; [done|]. split; [|done]. intros c. split; [by left|].
    intros [?|H]; [done|]. by apply elem_of_nil in H.
  - rewrite fold_left_app. cbn [fold_left]. cbv zeta in IH.
    destruct IH as (Hrows & Hcols & Hother & Hidx).
    set (d1 := fold_left (put idx) ws d) in *.
    split; [by rewrite put_rows|]. split; [|split].
    + intros c. rewrite put_columns, Hcols, map_app, elem_of_app. simpl.
      rewrite list_elem_of_singleton. tauto.
    + intros i c Hi Hc. rewrite cell_put_other_row; [by apply Hother|done|].
      apply Hcols. by left.
    + intros c Hlt. rewrite last_write_app. simpl.
      case_bool_decide as Hw.
      * subst c. apply cell_put_eq. by rewrite Hrows.
      * rewrite cell_put_other_column by done. by apply Hidx.
Qed.

End cells.

(** ** The table store: [update_row_with_qas] as a list of writes *)

Section writes.

Variable repr : pyval -> string.

Lemma fold_left_map {A B C} (f : A -> B -> A) (g : C -> B) (l : list C) (a : A) :
  fold_left f (map g l) a = fold_left (fun a x => f a (g x)) l a.
Proof. revert a. induction l as [|x l IH]; intros a; simpl; [done|]. apply IH. Qed.

Lemma fold_left_ext {A B} (f g : A -> B -> A) (l : list B) (a : A) :
  (forall a x, f a x = g a x) -> fold_left f l a = fold_left g l a.
Proof.
  intros H. revert a. induction l as [|x l IH]; intros a; simpl; [done|].
  by rewrite H, IH.
Qed.

Lemma put_existing idx d col v :
  col ∈ columns d -> put idx d (col, v) = at_set d idx col v.
Proof.
  intros Hc. unfold put, ensure_column. simpl.
  apply has_column_true in Hc. by rewrite Hc.
Qed.

Lemma clear_fold idx cs d :
  (forall c, c ∈ cs -> c ∈ columns d) ->
  fold_left (fun d' col => at_set d' idx col EmptyString) cs d
  = fold_left (put idx) (map (fun col => (col, EmptyString)) cs) d.
Proof.
  revert d. induction cs as [|c cs IH]; intros d Hcs; simpl; [done|].
  rewrite put_existing by (apply Hcs; left).
  apply IH. intros c' Hc'. simpl. apply Hcs. by right.
Qed.

Lemma clear_qa_writes idx d :
  clear_qa idx d = fold_left (put idx) (clear_writes d) d.
Proof.
  unfold clear_qa, clear_writes. apply clear_fold.
  intros c Hc. apply list_elem_of_In, filter_In in Hc as [Hc _].
  by apply list_elem_of_In.
Qed.

Lemma write_tags_writes idx payload d :
  write_tags repr idx payload d = fold_left (put idx) (tag_writes repr payload) d.
Proof. unfold write_tags, tag_writes. by destruct (payload_get "tags" payload). Qed.

Lemma write_key_writes idx payload d key :
  write_key repr idx payload d key
  = fold_left (put idx) (key_writes repr payload key) d.
Proof.
  unfold write_key, key_writes.
  destruct (payload_get key payload) as [[| | | | |items|]|]; try done.
  by rewrite fold_left_map.
Qed.

Lemma write_qas_writes idx payload d :
  write_qas repr idx payload d = fold_left (put idx) (qa_writes repr payload) d.
Proof.
  unfold write_qas, qa_writes.
  generalize (List.filter is_qa (map fst payload)). intros keys. revert d.
  induction keys as [|key keys IH]; intros d; simpl; [done|].
  by rewrite fold_left_app, <- write_key_writes, IH.
Qed.

(** The frame after an in-range update is the old one with the writes
    applied in order. *)
Lemma update_frame idx payload d :
  write_qas repr idx payload (write_tags repr idx payload (clear_qa idx d))
  = fold_left (put idx)
      (clear_writes d ++ tag_writes repr payload ++ qa_writes repr payload) d.
Proof.
  by rewrite !fold_left_app, <- clear_qa_writes, <- write_tags_writes,
       <- write_qas_writes.
Qed.

Lemma elem_of_enumerate {A} (start : nat) (items : list A) pos (item : A) :
  (pos, item) ∈ enumerate start items <->
  exists i, pos = (start + i)%nat /\ items !! i = Some item.
Proof.
  revert start. induction items as [|x items IH]; intros start; simpl.
  - split; [by intros ?%elem_of_nil | by intros (i & _ & ?)].
  - rewrite elem_of_cons, IH. split.
    + intros [[= -> ->]|(i & -> & Hi)].
      * exists 0%nat. split; [lia|done].
      * exists (S i). split; [lia|done].
    + intros ([|i] & -> & Hi); simpl in Hi.
      * left. injection Hi as ->. f_equal. lia.
      * right. exists i. split; [lia|done].
Qed.

Lemma payload_get_Some key payload v :
  payload_get key payload = Some v -> key ∈ map fst payload.
Proof.
  induction payload as [|[k x] payload IH]; simpl; [done|].
  case_bool_decide as Hk; [intros _; subst; left | intros H; right; by apply IH].
Qed.

Lemma elem_of_qa_writes payload col v :
  (col, v) ∈ qa_writes repr payload <->
  exists key items i item,
    is_qa key = true /\ payload_get key payload = Some (VList items) /\
    items !! i = Some item /\ col = col_name key (S i) /\
    v = item_text repr item.
Proof.
  unfold qa_writes. rewrite list_elem_of_In, in_flat_map. split.
  - intros (key & Hkey & Hw). apply filter_In in Hkey as [_ Hqa].
    unfold key_writes in Hw.
    destruct (payload_get key payload) as [[| | | | |items|]|] eqn:Hget;
      try done.
    apply in_map_iff in Hw as ([pos item] & [= <- <-] & Hp).
    apply list_elem_of_In, elem_of_enumerate in Hp as (i & Hpos & Hi).
    simpl in *. subst pos. by exists key, items, i, item.
  - intros (key & items & i & item & Hqa & Hget & Hi & -> & ->).
    exists key. split.
    + apply filter_In. split; [|done].
      apply list_elem_of_In. by eapply payload_get_Some.
    + unfold key_writes. rewrite Hget. apply in_map_iff.
      exists (S i, item). split; [done|].
      apply list_elem_of_In, elem_of_enumerate. by exists i.
Qed.

End writes.

(** ** Column names *)

Section names.

Local Open Scope string_scope.

Lemma find_char_append_Some c (a b : string) :
  find_char c (a ++ String c b) <> None.
Proof.
  induction a as [|x a IH]; rewrite ?append_cons, ?append_nil; simpl.
  - by rewrite Ascii.eqb_refl.
  - destruct (Ascii.eqb x c); [done|].
    destruct (find_char c (a ++ String c b)); [done|]. by destruct IH.
Qed.

(** A string splits in one way only around the last occurrence of [c]. *)
Lemma split_last_unique c (a x a' x' : string) :
  a ++ String c x = a' ++ String c x' ->
  find_char c x = None -> find_char c x' = None ->
  a = a' /\ x = x'.
Proof.
  revert a'. induction a as [|b a IH]; intros [|b' a'];
    rewrite ?append_cons, ?append_nil; intros Heq Hx Hx'.
  - by injection Heq as ->.
  - injection Heq as _ ->. by destruct (find_char_append_Some c a' x').
  - injection Heq as _ <-. by destruct (find_char_append_Some c a x).
  - injection Heq as -> Heq. destruct (IH a' Heq Hx Hx') as [-> ->]. done.
Qed.

Lemma string_of_uint_no_underscore d :
  find_char "_" (NilEmpty.string_of_uint d) = None.
Proof. induction d; simpl; [done|by rewrite IHd..]. Qed.

Lemma str_of_int_no_underscore (i : nat) :
  find_char "_" (str_of_int (Z.of_nat i)) = None.
Proof.
  unfold str_of_int. destruct (Z.of_nat i) eqn:Hi; simpl.
  - done.
  - apply string_of_uint_no_underscore.
  - lia.
Qed.

Lemma str_of_int_inj z z' : str_of_int z = str_of_int z' -> z = z'.
Proof.
  unfold str_of_int. intros H.
  apply (f_equal NilEmpty.int_of_string) in H. rewrite !NilEmpty.isi in H.
  injection H as H. apply (f_equal Z.of_int) in H.
  by rewrite !DecimalZ.of_to in H.
Qed.

Lemma col_name_inj key i key' i' :
  col_name key i = col_name key' i' -> key = key' /\ i = i'.
Proof.
  unfold col_name. rewrite !append_cons, !append_nil. intros H.
  apply split_last_unique in H as [-> H];
    [|apply str_of_int_no_underscore..].
  split; [done|]. apply str_of_int_inj in H. lia.
Qed.

Lemma prefix_append_r (p s t : string) :
  String.prefix p s = true -> String.prefix p (s ++ t) = true.
Proof.
  revert s. induction p as [|a p IH]; intros s; [intros _; by destruct (s ++ t)|].
  destruct s as [|b s]; [discriminate|]. rewrite append_cons. simpl.
  destruct (ascii_dec a b); [apply IH | done].
Qed.

Lemma is_qa_col_name key i : is_qa key = true -> is_qa (col_name key i) = true.
Proof.
  unfold is_qa, startswith_any, startswith, col_name. simpl.
  rewrite !orb_false_r. intros H.
  apply orb_true_iff in H as [H|H];
    rewrite (prefix_append_r _ _ _ H); [done | apply orb_true_r].
Qed.

End names.

(** ** Persistence *)

Section persistence.

Lemma tmp_path_ne (path : string) : (path +:+ ".tmp")%string ≠ path.
Proof.
  intros H. apply (f_equal String.length) in H.
  rewrite length_append in H. simpl in H. lia.
Qed.

Lemma fs_run_app ops1 ops2 fs : fs_run (ops1 ++ ops2) fs = fs_run ops2 (fs_run ops1 fs).
Proof. unfold fs_run. apply fold_left_app. Qed.

Lemma stages_other tmp ops fs path :
  Forall (stages tmp) ops -> path ≠ tmp -> fs_run ops fs !! path = fs !! path.
Proof.
  intros Hops Hne. revert fs. induction Hops as [|op ops Hop _ IH]; intros fs.
  - done.
  - change (fs_run (op :: ops) fs) with (fs_run ops (fs_step fs op)).
    rewrite IH. destruct op as [p|p r|]; simpl in *; [| |done]; subst p.
    + by rewrite lookup_insert_ne.
    + by rewrite lookup_alter_ne.
Qed.

Lemma appends_run tmp recs fs acc :
  fs !! tmp = Some acc ->
  fs_run (map (Append tmp) recs) fs !! tmp = Some (acc ++ recs).
Proof.
  revert fs acc. induction recs as [|r recs IH]; intros fs acc Hacc.
  - simpl. by rewrite app_nil_r.
  - change (fs_run (map (Append tmp) (r :: recs)) fs)
      with (fs_run (map (Append tmp) recs) (fs_step fs (Append tmp r))).
    rewrite (IH _ (acc ++ [r])).
    + by rewrite <- app_assoc.
    + simpl. rewrite lookup_alter_eq, Hacc. done.
Qed.

Lemma to_csv_stages d tmp : Forall (stages tmp) (to_csv d tmp).
Proof.
  unfold to_csv. constructor; [done|]. apply Forall_map, Forall_forall. done.
Qed.

Lemma to_csv_run d tmp fs :
  fs_run (to_csv d tmp) fs !! tmp = Some (csv_records d).
Proof.
  unfold to_csv.
  change (fs_run (Create tmp :: map (Append tmp) (csv_records d)) fs)
    with (fs_run (map (Append tmp) (csv_records d)) (<[tmp := []]> fs)).
  rewrite (appends_run tmp _ _ []); [done|]. apply lookup_insert_eq.
Qed.

(** Stage-then-replace is atomic on the table file. *)
Lemma persist_atomic st :
  atomic_on (csv_path st) (persist st) (csv_records (df st)).
Proof.
  intros fs k. unfold persist. cbv zeta.
  set (tmp := (csv_path st +:+ ".tmp")%string).
  pose proof (to_csv_stages (df st) tmp) as Hst.
  pose proof (to_csv_run (df st) tmp) as Hrun.
  generalize dependent (to_csv (df st) tmp). intros staging Hst Hrun.
  rewrite length_app. simpl. split; intros Hk.
  - rewrite take_app_le by lia.
    apply stages_other with (tmp := tmp).
    + by apply Forall_take.
    + intros H. symmetry in H. by apply tmp_path_ne in H.
  - rewrite take_ge by (rewrite length_app; simpl; lia).
    rewrite fs_run_app.
    change (fs_run [Replace tmp (csv_path st)] (fs_run staging fs))
      with (fs_step (fs_run staging fs) (Replace tmp (csv_path st))).
    unfold fs_step. rewrite Hrun. apply lookup_insert_eq.
Qed.

End persistence.

(** ** The table store: what an update leaves in the frame *)

Section update_cells.

Variable repr : pyval -> string.

Lemma elem_of_map_fst {A B} (l : list (A * B)) a :
  a ∈ map fst l <-> exists b, (a, b) ∈ l.
Proof.
  rewrite list_elem_of_In, in_map_iff. split.
  - intros ([a' b] & <- & Hin). exists b. by apply list_elem_of_In.
  - intros (b & Hin). exists (a, b). split; [done | by apply list_elem_of_In].
Qed.

Lemma qa_writes_is_qa payload col :
  col ∈ map fst (qa_writes repr payload) -> is_qa col = true.
Proof.
  intros (v & Hin)%elem_of_map_fst.
  apply elem_of_qa_writes in Hin as (key & items & i & item & Hqa & _ & _ & -> & _).
  by apply is_qa_col_name.
Qed.

Lemma last_write_qa_targeted payload key items i item :
  is_qa key = true -> payload_get key payload = Some (VList items) ->
  items !! i = Some item ->
  last_write (col_name key (S i)) (qa_writes repr payload)
  = Some (item_text repr item).
Proof.
  intros Hqa Hget Hi.
  destruct (last_write (col_name key (S i)) (qa_writes repr payload))
    as [v|] eqn:Hlast.
  - apply last_write_Some, elem_of_qa_writes in Hlast
      as (key' & items' & i' & item' & _ & Hget' & Hi' & Hcol & ->).
    apply col_name_inj in Hcol as [<- [= <-]].
    rewrite Hget in Hget'. injection Hget' as <-.
    rewrite Hi in Hi'. by injection Hi' as <-.
  - apply last_write_None in Hlast. destruct Hlast.
    apply elem_of_map_fst. exists (item_text repr item).
    apply elem_of_qa_writes. by exists key, items, i, item.
Qed.

Lemma last_write_qa_untargeted payload col :
  ~ targeted payload col -> last_write col (qa_writes repr payload) = None.
Proof.
  intros Hnt. apply last_write_None. intros (v & Hin)%elem_of_map_fst.
  apply elem_of_qa_writes in Hin as (key & items & i & item & Hqa & Hget & Hi & -> & _).
  apply Hnt. by exists key, items, i, item.
Qed.

Lemma elem_of_clear_writes d col v :
  (col, v) ∈ clear_writes d <->
  col ∈ columns d /\ is_qa col = true /\ v = EmptyString.
Proof.
  unfold clear_writes. rewrite list_elem_of_In, in_map_iff. split.
  - intros (c & [= <- <-] & Hc). apply filter_In in Hc as [Hc Hqa].
    split; [by apply list_elem_of_In | done].
  - intros (Hc & Hqa & ->). exists col. split; [done|].
    apply filter_In. split; [by apply list_elem_of_In | done].
Qed.

Lemma last_write_clear d col :
  col ∈ columns d -> is_qa col = true ->
  last_write col (clear_writes d) = Some EmptyString.
Proof.
  intros Hc Hqa. destruct (last_write col (clear_writes d)) as [v|] eqn:Hlast.
  - apply last_write_Some, elem_of_clear_writes in Hlast as (_ & _ & ->). done.
  - apply last_write_None in Hlast. destruct Hlast.
    apply elem_of_map_fst. exists EmptyString. by apply elem_of_clear_writes.
Qed.

Lemma last_write_clear_not_qa d col :
  is_qa col = false -> last_write col (clear_writes d) = None.
Proof.
  intros Hqa. apply last_write_None. intros (v & Hin)%elem_of_map_fst.
  apply elem_of_clear_writes in Hin as (_ & Hqa' & _). congruence.
Qed.

Lemma last_write_tag payload col :
  last_write col (tag_writes repr payload) =
  match payload_get "tags" payload with
  | Some v => if bool_decide (col = "tags") then Some (tag_text repr v) else None
  | None => None
  end.
Proof.
  unfold tag_writes. destruct (payload_get "tags" payload); simpl; [|done].
  repeat case_bool_decide; congruence.
Qed.

(** The frame after the three write phases of an in-range update. *)
Lemma update_frame_spec i payload d :
  (i < length (rows d))%nat ->
  let d' := write_qas repr i payload (write_tags repr i payload (clear_qa i d)) in
  length (rows d') = length (rows d) /\
  (forall c, c ∈ columns d -> c ∈ columns d') /\
  (forall j c, j ≠ i -> c ∈ columns d -> cell d' j c = cell d j c) /\
  (forall c, c ∈ columns d -> is_qa c = true -> ~ targeted payload c ->
     cell d' i c = Some EmptyString) /\
  (forall v, payload_get "tags" payload = Some v ->
     "tags" ∈ columns d' /\ cell d' i "tags" = Some (tag_text repr v)) /\
  (forall key items k item,
     is_qa key = true -> payload_get key payload = Some (VList items) ->
     items !! k = Some item ->
     col_name key (S k) ∈ columns d' /\
     cell d' i (col_name key (S k)) = Some (item_text repr item)) /\
  (forall c, is_qa c = false -> (c = "tags" -> payload_get "tags" payload = None) ->
     cell d' i c = cell d i c).
Proof.
  intros Hi d'. subst d'. rewrite update_frame.
  set (ws := clear_writes d ++ tag_writes repr payload ++ qa_writes repr payload).
  destruct (fold_put i ws d) as (Hrows & Hcols & Hother & Hcell).
  assert (Hlast : forall c,
    last_write c ws =
    match last_write c (qa_writes repr payload) with
    | Some v => Some v
    | None =>
        match last_write c (tag_writes repr payload) with
        | Some v => Some v
        | None => last_write c (clear_writes d)
        end
    end).
  { intros c. unfold ws. rewrite !last_write_app.
    by destruct (last_write c (qa_writes repr payload)). }
  split; [done|]. split; [|split; [|split; [|split; [|split]]]].
  - intros c Hc. apply Hcols. by left.
  - done.
  - intros c Hc Hqa Hnt. rewrite Hcell by done. rewrite Hlast.
    rewrite last_write_qa_untargeted by done.
    rewrite last_write_tag, last_write_clear by done.
    destruct (payload_get "tags" payload); [|done].
    case_bool_decide; [|done]. subst c. done.
  - intros v Hv. split.
    + apply Hcols. right. unfold ws, tag_writes. rewrite Hv.
      rewrite !map_app, !elem_of_app. simpl. right. left. left.
    + rewrite Hcell by done. rewrite Hlast.
      rewrite last_write_qa_untargeted.
      * rewrite last_write_tag, Hv. by rewrite bool_decide_eq_true_2.
      * intros (key & items & k & item & Hqa & _ & _ & Hcol).
        pose proof (is_qa_col_name key (S k) Hqa) as H. rewrite <- Hcol in H.
        done.
  - intros key items k item Hqa Hget Hk.
    pose proof (last_write_qa_targeted payload key items k item Hqa Hget Hk) as Hl.
    split.
    + apply Hcols. right. unfold ws. rewrite !map_app, !elem_of_app.
      right. right. apply elem_of_map_fst. eexists.
      by apply last_write_Some.
    + rewrite Hcell by done. by rewrite Hlast, Hl.
  - intros c Hqa Htag. rewrite Hcell by done. rewrite Hlast.
    assert (Hq : last_write c (qa_writes repr payload) = None).
    { apply last_write_None. intros H%qa_writes_is_qa. congruence. }
    rewrite Hq, last_write_tag, last_write_clear_not_qa by done.
    destruct (payload_get "tags" payload) eqn:Hget; [|done].
    case_bool_decide as Hc; [|done]. by specialize (Htag Hc).
Qed.

End update_cells.

(** ** The table store: [update_row_with_qas] and [ensure_headers] *)

Section store.

Variable repr : pyval -> string.

Lemma update_out_of_range st idx payload :
  idx < 0 \/ storage.row_count st <= idx ->
  update_row_with_qas repr st idx payload = (false, st, []).
Proof.
  unfold update_row_with_qas, storage.row_count. intros H.
  destruct (Z.ltb_spec idx 0); [done|].
  destruct (Z.leb_spec (len (rows (df st))) idx); [done|]. lia.
Qed.

Lemma update_in_range st idx payload :
  0 <= idx < storage.row_count st ->
  update_row_with_qas repr st idx payload =
  (true,
   {| csv_path := csv_path st;
      df := write_qas repr (Z.to_nat idx) payload
              (write_tags repr (Z.to_nat idx) payload
                 (clear_qa (Z.to_nat idx) (df st))) |},
   persist
     {| csv_path := csv_path st;
        df := write_qas repr (Z.to_nat idx) payload
                (write_tags repr (Z.to_nat idx) payload
                   (clear_qa (Z.to_nat idx) (df st))) |}).
Proof.
  unfold update_row_with_qas, storage.row_count. intros H.
  destruct (Z.ltb_spec idx 0); [lia|].
  destruct (Z.leb_spec (len (rows (df st))) idx); [lia|]. done.
Qed.


Lemma payload_get_remove_key key payload k :
  payload_get k (remove_key key payload) =
  if bool_decide (k = key) then None else payload_get k payload.
Proof.
  induction payload as [|[k' v] payload IH]; simpl.
  - by case_bool_decide.
  - destruct (bool_decide (k' = key)) eqn:Hk'; simpl.
    + apply bool_decide_eq_true in Hk'. subst k'. rewrite IH.
      repeat case_bool_decide; congruence.
    + apply bool_decide_eq_false in Hk'. rewrite IH.
      repeat case_bool_decide; congruence.
Qed.

Lemma key_writes_remove_key key payload k :
  k ≠ key ->
  key_writes repr (remove_key key payload) k = key_writes repr payload k.
Proof.
  intros Hk. unfold key_writes. rewrite payload_get_remove_key.
  by rewrite bool_decide_eq_false_2.
Qed.

Lemma qa_writes_remove_key key payload v :
  payload_get key payload = Some v -> is_list v = false ->
  qa_writes repr (remove_key key payload) = qa_writes repr payload.
Proof.
  intros Hget Hv. unfold qa_writes.
  assert (Hkw : key_writes repr payload key = []).
  { unfold key_writes. rewrite Hget. by destruct v. }
  assert (Hext : forall ks,
    flat_map (key_writes repr (remove_key key payload))
      (List.filter (fun k => negb (bool_decide (k = key))) ks)
    = flat_map (key_writes repr payload) ks).
  { induction ks as [|k ks IH]; simpl; [done|].
    case_bool_decide as Hk; simpl.
    - subst k. by rewrite Hkw, IH.
    - by rewrite key_writes_remove_key, IH. }
  assert (Hkeys :
    List.filter is_qa (map fst (remove_key key payload))
    = List.filter (fun k => negb (bool_decide (k = key)))
        (List.filter is_qa (map fst payload))).
  { unfold remove_key. clear.
    induction payload as [|[k x] payload IH]; simpl; [done|].
    case_bool_decide; simpl.
    - rewrite IH. destruct (is_qa k); simpl; [|done].
      by rewrite bool_decide_eq_true_2.
    - rewrite IH. destruct (is_qa k); simpl; [|done].
      by rewrite bool_decide_eq_false_2. }
  rewrite Hkeys. apply Hext.
Qed.

Lemma tag_writes_remove_key key payload :
  is_qa key = true ->
  tag_writes repr (remove_key key payload) = tag_writes repr payload.
Proof.
  intros Hqa. unfold tag_writes. rewrite payload_get_remove_key.
  case_bool_decide as Hk; [|done]. by rewrite <- Hk in Hqa.
Qed.

(** C10. In range, a QA-keyed payload entry whose value is not a list is
    passed over by the write loop: the call returns true and gives the
    same store and file operations as the call without the entry, and a
    QA column (such as the column named by the key itself) that no list
    item of the payload targets is left empty. *)
Theorem update_row_with_qas_ignores_scalars (st : CSVStorage) (idx : Z)
    (payload : list (string * pyval)) (key : string) (v : pyval) :
  0 <= idx < storage.row_count st ->
  is_qa key = true ->
  payload_get key payload = Some v ->
  is_list v = false ->
  (forall d, write_key repr (Z.to_nat idx) payload d key = d) /\
  exists st',
    update_row_with_qas repr st idx payload = (true, st', persist st') /\
    update_row_with_qas repr st idx (remove_key key payload)
    = (true, st', persist st') /\
    (forall c, c ∈ columns (df st) -> is_qa c = true -> ~ targeted payload c ->
       cell (df st') (Z.to_nat idx) c = Some EmptyString).
Proof.
  intros Hin Hqa Hget Hv. split.
  { intros d. unfold write_key. rewrite Hget. by destruct v. }
  eexists. split; [by apply update_in_range|]. split.
  - rewrite update_in_range by done.
    rewrite !update_frame.
    by rewrite (qa_writes_remove_key key payload v),
         tag_writes_remove_key by done.
  - apply update_frame_spec. unfold storage.row_count, len in Hin. lia.
Qed.


Lemma prefix_self (p t : string) : String.prefix p (p +:+ t) = true.
Proof.
  induction p as [|a p IH]; [by destruct t|].
  change (String a p +:+ t) with (String a (p +:+ t)). simpl.
  by destruct (ascii_dec a a).
Qed.

(** X18. Resume across runs: once a row has been saved with a question
    that is not blank, [has_existing_qa_data] answers true for it, so that
    no later batch run submits it. *)
Lemma saved_row_has_existing_qa (st : CSVStorage) (idx : Z)
    (payload : list (string * pyval)) (lang : string) items k item :
  0 <= idx < storage.row_count st ->
  lang ∈ ["en"; "hi"; "sa"] ->
  payload_get ("q_" +:+ lang)%string payload = Some (VList items) ->
  items !! k = Some item ->
  blank (item_text repr item) = false ->
  has_existing_qa_data (snd (fst (update_row_with_qas repr st idx payload))) idx
  = true.
Proof.
  intros Hin Hlang Hget Hk Hblank. rewrite update_in_range by done.
  cbn [fst snd].
  assert (Hqa : is_qa ("q_" +:+ lang)%string = true).
  { unfold is_qa, startswith_any, startswith. cbn [existsb].
    by rewrite (prefix_self "q_" lang). }
  assert (Hi : (Z.to_nat idx < length (rows (df st)))%nat)
    by (unfold storage.row_count, len in Hin; lia).
  destruct (update_frame_spec repr (Z.to_nat idx) payload (df st) Hi)
    as (Hrows & _ & _ & _ & _ & Hitems & _).
  destruct (Hitems _ _ _ _ Hqa Hget Hk) as [Hcol Hcell].
  apply has_existing_qa_data_iff. split.
  { unfold storage.row_count, len in *. cbn [df]. rewrite Hrows. exact Hin. }
  exists (col_name ("q_" +:+ lang)%string (S k)), (item_text repr item).
  split; [exact Hcol|]. split; [|by split].
  unfold is_question, startswith_any, startswith. cbn [existsb].
  apply list_elem_of_In in Hlang. simpl in Hlang.
  destruct Hlang as [<-|[<-|[<-|[]]]].
  - assert (H : String.prefix "q_en_" (col_name "q_en" (S k)) = true)
      by exact (prefix_self "q_en_" (str_of_int (Z.of_nat (S k)))).
    change ("q_" +:+ "en")%string with "q_en". by rewrite H.
  - assert (H : String.prefix "q_hi_" (col_name "q_hi" (S k)) = true)
      by exact (prefix_self "q_hi_" (str_of_int (Z.of_nat (S k)))).
    change ("q_" +:+ "hi")%string with "q_hi". rewrite H.
    by rewrite orb_true_r.
  - assert (H : String.prefix "q_sa_" (col_name "q_sa" (S k)) = true)
      by exact (prefix_self "q_sa_" (str_of_int (Z.of_nat (S k)))).
    change ("q_" +:+ "sa")%string with "q_sa". rewrite H.
    by rewrite !orb_true_r.
Qed.

End store.

(** *** Worked examples on a one-row table *)

Definition repr_opaque : pyval -> string := fun _ => "<container>".

Definition frame_saved : DataFrame :=
  {| columns := ["sanskrit"; "english"; "tags"; "q_en_1"; "a_en_1"];
     rows :=
       [ list_to_map [("sanskrit", "s0"); ("english", "e0"); ("tags", "old");
                      ("q_en_1", "Old question?"); ("a_en_1", "Old answer.")] ] |}.

Definition store_saved : CSVStorage :=
  {| csv_path := "data/f.csv"; df := frame_saved |}.

(** QA values given as flattened scalars. *)
Definition flat_payload : list (string * pyval) :=
  [("q_en_1", VStr "Who teaches?"); ("a_en_1", VStr "The elder.")].

(** QA values given as lists. *)
Definition list_payload : list (string * pyval) :=
  [("tags", VStr "ethics"); ("q_hi", VList [VStr "Kaun?"; VNone]);
   ("a_hi", VList [VStr "Guru."])].

Example update_with_lists :
  let '(ok, st', _) := update_row_with_qas repr_opaque store_saved 0 list_payload in
  ok = true /\
  csv_records (df st') =
    [ ["sanskrit"; "english"; "tags"; "q_en_1"; "a_en_1"; "q_hi_1"; "q_hi_2"; "a_hi_1"];
      ["s0"; "e0"; "ethics"; ""; ""; "Kaun?"; ""; "Guru."] ].
Proof. by vm_compute. Qed.

Lemma update_row_with_qas_ignores_scalars_witness :
  0 <= 0 < storage.row_count store_saved /\
  is_qa "q_en_1" = true /\
  payload_get "q_en_1" flat_payload = Some (VStr "Who teaches?") /\
  is_list (VStr "Who teaches?") = false /\
  exists st',
    update_row_with_qas repr_opaque store_saved 0 flat_payload
    = (true, st', persist st') /\
    cell (df st') 0 "q_en_1" = Some EmptyString.
Proof.
  assert (Hin : 0 <= 0 < storage.row_count store_saved)
    by (vm_compute; split; [discriminate | reflexivity]).
  split; [exact Hin|]. split; [reflexivity|]. split; [reflexivity|].
  split; [reflexivity|].
  destruct (update_row_with_qas_ignores_scalars repr_opaque store_saved 0
              flat_payload "q_en_1" (VStr "Who teaches?") Hin
              eq_refl eq_refl eq_refl) as [_ (st' & Hrun & _ & Hclear)].
  exists st'. split; [exact Hrun|].
  apply (Hclear "q_en_1").
  - vm_compute. do 3 right. left.
  - reflexivity.
  - intros (key & items & i & item & _ & Hget & _).
    unfold flat_payload in Hget. simpl in Hget.
    repeat case_bool_decide; discriminate.
Defined.

(** ** Reasoning about the batch monad *)

Section monad.

Context {S : Type} (R : S -> S -> Prop).
Context (R_refl : forall s, R s s).
Context (R_trans : forall s1 s2 s3, R s1 s2 -> R s2 s3 -> R s1 s3).

(** Whatever it returns or raises, [m] moves the world along [R]. *)
Definition preserves {A} (m : M S A) : Prop := forall s, R s (snd (m s)).

Lemma preserves_ret {A} (a : A) : preserves (mret a).
Proof. intros s. apply R_refl. Qed.

Lemma preserves_raise {A} (e : exn) : preserves (@raise S A e).
Proof. intros s. apply R_refl. Qed.

Lemma preserves_lift {A} (r : Result A) : preserves (lift r).
Proof. intros s. apply R_refl. Qed.

Lemma preserves_modify (f : S -> S) :
  (forall s, R s (f s)) -> preserves (modify f).
Proof. intros H s. apply H. Qed.

Lemma preserves_bind {A B} (m : M S A) (f : A -> M S B) :
  preserves m -> (forall a, preserves (f a)) -> preserves (x ← m; f x).
Proof.
  intros Hm Hf s. unfold mbind, M_bind. specialize (Hm s).
  destruct (m s) as [[a|e] s']; simpl in *; [|done].
  eapply R_trans; [exact Hm | apply Hf].
Qed.

(** The continuation of a lifted result may use what the result was. *)
Lemma preserves_bind_lift {A B} (r : Result A) (f : A -> M S B) :
  (forall a, r = Ok a -> preserves (f a)) -> preserves (x ← lift r; f x).
Proof.
  intros Hf s. unfold mbind, M_bind, lift. destruct r as [a|e]; simpl.
  - by apply Hf.
  - apply R_refl.
Qed.

(** The continuation of [get] may use that it received the current world. *)
Lemma preserves_bind_get {B} (f : S -> M S B) :
  (forall s, R s (snd (f s s))) -> preserves (x ← get; f x).
Proof. intros Hf s. unfold mbind, M_bind, get. apply Hf. Qed.

Lemma preserves_for_fold {A B} (l : list A) (acc : B) (body : B -> A -> M S B) :
  (forall acc x, x ∈ l -> preserves (body acc x)) ->
  preserves (for_fold l acc body).
Proof.
  revert acc. induction l as [|x l IH]; intros acc Hbody; simpl.
  - apply preserves_ret.
  - apply preserves_bind; [apply Hbody; left|].
    intros acc'. apply IH. intros acc'' y Hy. apply Hbody. by right.
Qed.

Lemma preserves_for_each {A} (l : list A) (body : A -> M S unit) :
  (forall x, x ∈ l -> preserves (body x)) -> preserves (for_each l body).
Proof.
  induction l as [|x l IH]; intros Hbody; simpl.
  - apply preserves_ret.
  - apply preserves_bind; [apply Hbody; left|].
    intros _. apply IH. intros y Hy. apply Hbody. by right.
Qed.

Lemma preserves_try_except (body : M S unit) (handler : exn -> M S unit) :
  preserves body -> (forall e, preserves (handler e)) ->
  preserves (try_except body handler).
Proof.
  intros Hb Hh s. unfold try_except. specialize (Hb s).
  destruct (body s) as [[[]|e] s']; simpl in *; [done|].
  eapply R_trans; [exact Hb | apply Hh].
Qed.

End monad.

(** ** The batch loops: which rows reach the generator *)

Section submissions.

Context {St : Type}.
Variable env : Env.
Variable file_ids : list string.

Local Abbreviation logged := (@logs_only St (eligible env file_ids)).

Lemma logs_only_refl (w : World St) : logged w w.
Proof. exists []. by rewrite app_nil_r. Qed.

Lemma logs_only_trans (w1 w2 w3 : World St) :
  logged w1 w2 -> logged w2 w3 -> logged w1 w3.
Proof.
  intros (n1 & H1 & F1) (n2 & H2 & F2). exists (n1 ++ n2).
  split; [by rewrite H2, H1, app_assoc | by apply Forall_app].
Qed.

(** A computation that leaves the log alone. *)
Lemma preserves_same_log {A} (m : M (World St) A) :
  (forall w, submitted (snd (m w)) = submitted w) -> preserves logged m.
Proof. intros H w. exists []. by rewrite H, app_nil_r. Qed.

Lemma on_status_logs (f : St -> St) : preserves logged (on_status f).
Proof. by apply preserves_same_log. Qed.

Lemma mark_registry_logs fid count :
  preserves logged (@mark_registry St fid count).
Proof.
  apply preserves_same_log. intros w. unfold mark_registry.
  by destruct (file_registry w !! fid).
Qed.

Lemma CSVStorage_new_Ok k path storage :
  CSVStorage_new env k path = Ok storage ->
  exists d, read_csv env k path = Ok d /\
            storage = {| csv_path := path; df := d |}.
Proof.
  unfold CSVStorage_new. destruct (read_csv env k path) as [d|e]; [|done].
  intros [= <-]. by exists d.
Qed.

Lemma generate_row_logs k fid d qa_count extra row results i :
  file_ids !! k = Some fid ->
  read_csv env k (get_file_path env fid) = Ok d ->
  get_row {| csv_path := get_file_path env fid; df := d |} i = Some row ->
  preserves logged
    (generate_row env k fid {| csv_path := get_file_path env fid; df := d |}
       qa_count extra row results i).
Proof.
  intros Hk Hd Hrow. unfold generate_row.
  destruct (has_existing_qa_data _ i) eqn:Hex;
    [apply preserves_ret, logs_only_refl|].
  destruct (string_empty (row_get row "sanskrit")) eqn:Hs; simpl;
    [apply preserves_ret, logs_only_refl|].
  destruct (string_empty (row_get row "english")) eqn:He; simpl;
    [apply preserves_ret, logs_only_refl|].
  apply preserves_bind; [apply logs_only_trans| |].
  - intros w. exists [(k, fid, i)]. split; [done|].
    constructor; [|constructor]. split; [done|]. exists d, row.
    repeat split; try done.
    + intros H. by rewrite H in Hs.
    + intros H. by rewrite H in He.
  - intros _. destruct (fst (generate_for_row _ _ _ _ _ _));
      apply preserves_ret, logs_only_refl.
Qed.

End submissions.

Section submissions_batch.

Variable env : Env.
Variable file_ids : list string.

Local Abbreviation logged := (@logs_only ProcessStatus (eligible env file_ids)).
Local Abbreviation dlogged := (@logs_only DetailedProcessStatus (eligible env file_ids)).

Lemma progress_at_logs fid f : preserves logged (progress_at fid f).
Proof.
  apply preserves_same_log. intros w. unfold progress_at.
  by destruct (progress (the_status w) !! fid).
Qed.

Lemma batch_file_logs qa_count k fid :
  file_ids !! k = Some fid ->
  preserves logged (batch_file env qa_count (k, fid)).
Proof.
  intros Hk. unfold batch_file.
  apply preserves_bind_get. intros w.
  destruct (file_registry w !! fid) as [file_info|];
    [|apply logs_only_refl].
  revert w. apply (preserves_bind_lift logged (@logs_only_refl _ env file_ids)).
  intros storage (d & Hd & ->)%CSVStorage_new_Ok.
  repeat (apply preserves_bind;
          [apply logs_only_trans
          |first [apply on_status_logs | apply progress_at_logs] | intros _]).
  apply preserves_bind; [apply logs_only_trans | |].
  - apply preserves_for_fold; [apply logs_only_refl | apply logs_only_trans |].
    intros results i _. unfold batch_row.
    repeat (apply preserves_bind;
            [apply logs_only_trans
            |first [apply on_status_logs | apply progress_at_logs] | intros _]).
    destruct (get_row _ i) as [row|] eqn:Hrow;
      [|apply preserves_raise, logs_only_refl].
    apply preserves_bind; [apply logs_only_trans | apply on_status_logs |].
    intros _. by apply generate_row_logs.
  - intros results.
    repeat (apply preserves_bind;
            [apply logs_only_trans
            |first [apply on_status_logs | apply progress_at_logs
                   |apply preserves_lift, logs_only_refl] | intros _]).
    apply mark_registry_logs.
Qed.

Lemma enumerate_lookup {A} (start : nat) (l : list A) k x :
  (k, x) ∈ enumerate start l -> l !! (k - start)%nat = Some x.
Proof.
  intros (i & -> & Hi)%elem_of_enumerate.
  by replace (start + i - start)%nat with i by lia.
Qed.

Lemma process_files_batch_logs qa_count :
  preserves logged (process_files_batch env file_ids qa_count).
Proof.
  unfold process_files_batch.
  apply preserves_try_except; [apply logs_only_trans | |].
  - apply preserves_bind; [apply logs_only_trans | | intros _; apply on_status_logs].
    apply preserves_for_each; [apply logs_only_refl | apply logs_only_trans |].
    intros [k fid] Hin. apply batch_file_logs.
    apply enumerate_lookup in Hin. by rewrite Nat.sub_0_r in Hin.
  - intros e. unfold batch_failed.
    repeat (apply preserves_bind;
            [apply logs_only_trans | apply on_status_logs | intros _]).
    apply on_status_logs.
Qed.

Lemma file_progress_lookup_logs fid : preserves dlogged (file_progress_lookup fid).
Proof.
  apply preserves_same_log. intros w. unfold file_progress_lookup.
  by destruct (d_file_progress (the_status w) !! fid).
Qed.

Lemma detailed_file_logs qa_count k fid :
  file_ids !! k = Some fid ->
  preserves dlogged (detailed_file env qa_count (k, fid)).
Proof.
  intros Hk. unfold detailed_file.
  apply preserves_bind_get. intros w.
  destruct (file_registry w !! fid) as [file_info|];
    [|apply logs_only_refl].
  revert w. apply (preserves_bind_lift dlogged (@logs_only_refl _ env file_ids)).
  intros storage (d & Hd & ->)%CSVStorage_new_Ok.
  unfold on_file_progress.
  repeat (apply preserves_bind;
          [apply logs_only_trans
          |first [apply on_status_logs | apply file_progress_lookup_logs]
          |intros _]).
  apply preserves_bind; [apply logs_only_trans | |].
  - apply preserves_for_fold; [apply logs_only_refl | apply logs_only_trans |].
    intros results i _. unfold detailed_row, on_file_progress.
    repeat (apply preserves_bind;
            [apply logs_only_trans | apply on_status_logs | intros _]).
    destruct (get_row _ i) as [row|] eqn:Hrow;
      [|apply preserves_raise, logs_only_refl].
    apply preserves_bind; [apply logs_only_trans | apply on_status_logs |].
    intros _.
    apply preserves_bind; [apply logs_only_trans | |].
    + destruct (i mod 10 =? 0);
        [apply on_status_logs | apply preserves_ret, logs_only_refl].
    + intros _. by apply generate_row_logs.
  - intros results.
    repeat (apply preserves_bind;
            [apply logs_only_trans
            |first [apply on_status_logs
                   |apply preserves_lift, logs_only_refl] | intros _]).
    apply mark_registry_logs.
Qed.

Lemma process_files_with_detailed_status_logs qa_count :
  preserves dlogged (process_files_with_detailed_status env file_ids qa_count).
Proof.
  unfold process_files_with_detailed_status.
  apply preserves_try_except; [apply logs_only_trans | |].
  - do 2 (apply preserves_bind;
          [apply logs_only_trans | apply on_status_logs | intros _]).
    apply preserves_bind; [apply logs_only_trans | |].
    + apply preserves_for_each; [apply logs_only_refl | apply logs_only_trans |].
      intros [k fid] Hin. apply detailed_file_logs.
      apply enumerate_lookup in Hin. by rewrite Nat.sub_0_r in Hin.
    + intros _. apply preserves_bind;
        [apply logs_only_trans | apply on_status_logs
        |intros _; apply on_status_logs].
  - intros e. unfold detailed_failed.
    repeat (apply preserves_bind;
            [apply logs_only_trans | apply on_status_logs | intros _]).
    apply on_status_logs.
Qed.

(** C4. In a run of either batch function, every call of
    [generate_for_row] is for a row of the batch's file that, in the table
    loaded for that file, has no existing Q&A data and has a non-empty
    source and a non-empty translation: a row for which
    [has_existing_qa_data] answers true is never submitted. *)
Theorem batch_submits_only_rows_without_qa (qa_count : Z) :
  (forall w : World ProcessStatus,
     exists new,
       submitted (snd (process_files_batch env file_ids qa_count w))
       = submitted w ++ new /\
       Forall (eligible env file_ids) new) /\
  (forall w : World DetailedProcessStatus,
     exists new,
       submitted (snd (process_files_with_detailed_status env file_ids qa_count w))
       = submitted w ++ new /\
       Forall (eligible env file_ids) new).
Proof.
  split; intros w.
  - apply process_files_batch_logs.
  - apply process_files_with_detailed_status_logs.
Qed.

End submissions_batch.

(** ** The batch loops: termination status and retained results *)

Section retained.

Context {St : Type}.
Variable res : St -> gmap string (list (gmap string pyval)).
Variable fid : string.

Local Abbreviation framed := (@same_results_except St res fid).

Lemma framed_refl (w : World St) : framed w w.
Proof. by intros f _. Qed.

Lemma framed_trans (w1 w2 w3 : World St) :
  framed w1 w2 -> framed w2 w3 -> framed w1 w3.
Proof. intros H1 H2 f Hf. by rewrite H2, H1. Qed.

Lemma preserves_same_status {A} (m : M (World St) A) :
  (forall w, the_status (snd (m w)) = the_status w) -> preserves framed m.
Proof. intros H w f _. by rewrite H. Qed.

Lemma on_status_framed (f : St -> St) :
  (forall st f', f' ≠ fid -> res (f st) !! f' = res st !! f') ->
  preserves framed (on_status f).
Proof. intros H w f' Hf'. simpl. by apply H. Qed.

Lemma mark_registry_framed fid' count :
  preserves framed (@mark_registry St fid' count).
Proof.
  apply preserves_same_status. intros w. unfold mark_registry.
  by destruct (file_registry w !! fid').
Qed.

Lemma generate_row_framed env k fid' storage qa_count extra row results i :
  preserves framed
    (generate_row env k fid' storage qa_count extra row results i).
Proof.
  apply preserves_same_status. intros w. unfold generate_row.
  destruct (has_existing_qa_data storage i); [done|].
  destruct (negb _ && negb _); [|done].
  unfold mbind, M_bind, log_call, modify. simpl.
  by destruct (fst (generate_for_row _ _ _ _ _ _)).
Qed.

End retained.

Section split.

Context {W : Type}.

(** A loop over the files either completes or stops in the body of the
    first file whose processing raises. *)
Lemma for_each_enumerate_split (body : nat * string -> M W unit)
    (ids : list string) (start : nat) (w : W) :
  fst (for_each (enumerate start ids) body w) = Ok tt \/
  exists done fid rest e,
    ids = done ++ fid :: rest /\
    fst (for_each (enumerate start done) body w) = Ok tt /\
    for_each (enumerate start ids) body w
    = body ((start + length done)%nat, fid)
        (snd (for_each (enumerate start done) body w)) /\
    fst (body ((start + length done)%nat, fid)
           (snd (for_each (enumerate start done) body w))) = Raise e.
Proof.
  revert start w. induction ids as [|x ids IH]; intros start w.
  - by left.
  - cbn [enumerate for_each]. unfold mbind, M_bind.
    destruct (body (start, x) w) as [[[]|e] w'] eqn:Hb.
    + destruct (IH (S start) w') as [Hok|(done & fid & rest & e & -> & Hdone & Heq & He)].
      * by left.
      * right. exists (x :: done), fid, rest, e.
        cbn [enumerate for_each length]. unfold mbind, M_bind. rewrite Hb.
        replace (start + S (length done))%nat with (S start + length done)%nat
          by lia.
        done.
    + right. exists [], x, ids, e. cbn [enumerate for_each length].
      rewrite Nat.add_0_r. simpl. by rewrite Hb.
Qed.

End split.

Section retained_batch.

Variable env : Env.
Variable qa_count : Z.

Ltac status_step :=
  apply on_status_framed; intros st f' Hf'; simpl;
  rewrite ?lookup_insert_ne by done; done.

Lemma progress_at_framed fid fid' f :
  preserves (same_results_except results fid) (progress_at fid' f).
Proof.
  intros w f' Hf'. unfold progress_at.
  by destruct (progress (the_status w) !! fid').
Qed.

Lemma batch_file_framed k fid :
  preserves (same_results_except results fid) (batch_file env qa_count (k, fid)).
Proof.
  unfold batch_file. apply preserves_bind_get. intros w.
  destruct (file_registry w !! fid) as [file_info|]; [|apply framed_refl].
  revert w.
  apply preserves_bind; [apply framed_trans | apply preserves_lift, framed_refl|].
  intros storage.
  repeat (apply preserves_bind;
          [apply framed_trans
          |first [status_step | apply progress_at_framed] | intros _]).
  apply preserves_bind; [apply framed_trans | |].
  - apply preserves_for_fold; [apply framed_refl | apply framed_trans |].
    intros acc i _. unfold batch_row.
    repeat (apply preserves_bind;
            [apply framed_trans
            |first [status_step | apply progress_at_framed] | intros _]).
    destruct (get_row storage i) as [row|];
      [|apply preserves_raise, framed_refl].
    apply preserves_bind; [apply framed_trans | status_step |].
    intros _. apply generate_row_framed.
  - intros acc.
    repeat (apply preserves_bind;
            [apply framed_trans
            |first [status_step | apply progress_at_framed
                   |apply preserves_lift, framed_refl] | intros _]).
    apply mark_registry_framed.
Qed.

Lemma batch_failed_framed fid e :
  preserves (same_results_except results fid) (batch_failed e).
Proof.
  unfold batch_failed.
  repeat (apply preserves_bind; [apply framed_trans | status_step | intros _]).
  apply on_status_framed. intros st f' Hf'.
  by destruct (negb (string_empty (current_file st))).
Qed.

Lemma batch_failed_status e w :
  fst (batch_failed e w) = Ok tt /\
  status (the_status (snd (batch_failed e w))) = "error".
Proof.
  unfold batch_failed, on_status, modify, mbind, M_bind. simpl.
  by destruct (negb (string_empty (current_file (the_status w)))).
Qed.

Lemma on_file_progress_framed fid fid' f :
  preserves (same_results_except d_results fid) (on_file_progress fid' f).
Proof. unfold on_file_progress. status_step. Qed.

Lemma file_progress_lookup_framed fid fid' :
  preserves (same_results_except d_results fid) (file_progress_lookup fid').
Proof.
  apply preserves_same_status. intros w. unfold file_progress_lookup.
  by destruct (d_file_progress (the_status w) !! fid').
Qed.

Lemma detailed_file_framed k fid :
  preserves (same_results_except d_results fid)
            (detailed_file env qa_count (k, fid)).
Proof.
  unfold detailed_file. apply preserves_bind_get. intros w.
  destruct (file_registry w !! fid) as [file_info|]; [|apply framed_refl].
  revert w.
  apply preserves_bind; [apply framed_trans | apply preserves_lift, framed_refl|].
  intros storage.
  repeat (apply preserves_bind;
          [apply framed_trans
          |first [status_step | apply on_file_progress_framed
                 |apply file_progress_lookup_framed] | intros _]).
  apply preserves_bind; [apply framed_trans | |].
  - apply preserves_for_fold; [apply framed_refl | apply framed_trans |].
    intros acc i _. unfold detailed_row.
    repeat (apply preserves_bind;
            [apply framed_trans
            |first [status_step | apply on_file_progress_framed] | intros _]).
    destruct (get_row storage i) as [row|];
      [|apply preserves_raise, framed_refl].
    apply preserves_bind;
      [apply framed_trans | apply on_file_progress_framed |].
    intros _. apply preserves_bind; [apply framed_trans | |].
    + destruct (i mod 10 =? 0); [status_step | apply preserves_ret, framed_refl].
    + intros _. apply generate_row_framed.
  - intros acc.
    repeat (apply preserves_bind;
            [apply framed_trans
            |first [status_step | apply on_file_progress_framed
                   |apply preserves_lift, framed_refl] | intros _]).
    apply mark_registry_framed.
Qed.

Lemma detailed_failed_framed fid e :
  preserves (same_results_except d_results fid) (detailed_failed e).
Proof.
  unfold detailed_failed.
  repeat (apply preserves_bind; [apply framed_trans | status_step | intros _]).
  status_step.
Qed.

Lemma detailed_failed_status e w :
  fst (detailed_failed e w) = Ok tt /\
  d_status (the_status (snd (detailed_failed e w))) = "error".
Proof. done. Qed.

End retained_batch.

Section termination.

Variable env : Env.
Variable qa_count : Z.

Lemma get_row_in_range storage i :
  i ∈ range (storage.row_count storage) -> is_Some (get_row storage i).
Proof.
  unfold range, storage.row_count, get_row, len.
  intros (j & -> & Hj)%list_elem_of_fmap.
  apply elem_of_seq in Hj.
  destruct (Z.ltb_spec (Z.of_nat j) 0); [lia|].
  destruct (Z.leb_spec (Z.of_nat (length (rows (df storage)))) (Z.of_nat j));
    [lia|].
  simpl. apply lookup_lt_is_Some_2. lia.
Qed.

Lemma generate_row_returns {St} k fid storage extra row acc i (w : World St) :
  exists acc' w',
    generate_row env k fid storage qa_count extra row acc i w = (Ok acc', w') /\
    the_status w' = the_status w.
Proof.
  unfold generate_row.
  destruct (has_existing_qa_data storage i); [by eexists _, _|].
  destruct (negb _ && negb _); [|by eexists _, _].
  unfold mbind, M_bind, log_call, modify. simpl.
  destruct (fst (generate_for_row _ _ _ _ _ _)); by eexists _, _.
Qed.

(** Row-level fault isolation: once the progress entry of the file is in
    place, the body of the row loop returns for every row of the table. *)
Lemma batch_row_returns k fid storage acc i w :
  is_Some (progress (the_status w) !! fid) ->
  is_Some (get_row storage i) ->
  exists acc' w',
    batch_row env k fid storage qa_count acc i w = (Ok acc', w') /\
    is_Some (progress (the_status w') !! fid).
Proof.
  intros [p Hp] [row Hrow].
  unfold batch_row, mbind, M_bind, on_status, modify, progress_at.
  simpl. rewrite Hp, Hrow. simpl.
  match goal with |- context [generate_row _ _ _ _ _ ?x ?r ?a ?j ?w0] =>
    destruct (generate_row_returns k fid storage x r a j w0)
      as (acc' & w' & -> & Hst) end.
  exists acc', w'. split; [done|]. rewrite Hst. simpl.
  by rewrite lookup_insert_eq.
Qed.

Lemma batch_rows_return k fid storage (rows_ : list Z) acc w :
  is_Some (progress (the_status w) !! fid) ->
  (forall i, i ∈ rows_ -> is_Some (get_row storage i)) ->
  exists acc' w',
    for_fold rows_ acc (batch_row env k fid storage qa_count) w = (Ok acc', w').
Proof.
  revert acc w. induction rows_ as [|i rows_ IH]; intros acc w Hp Hrows.
  - by eexists _, _.
  - destruct (batch_row_returns k fid storage acc i w Hp) as (acc1 & w1 & Hb & Hp1).
    { apply Hrows. left. }
    destruct (IH acc1 w1 Hp1) as (acc' & w' & Hf).
    { intros j Hj. apply Hrows. by right. }
    exists acc', w'. cbn [for_fold]. unfold mbind, M_bind. by rewrite Hb.
Qed.

Lemma detailed_row_returns k fid file_info storage total acc i w :
  is_Some (get_row storage i) ->
  exists acc' w',
    detailed_row env k fid file_info storage total qa_count acc i w = (Ok acc', w').
Proof.
  intros [row Hrow].
  unfold detailed_row, mbind, M_bind, on_file_progress, on_status, modify.
  simpl. rewrite Hrow. simpl.
  destruct (i mod 10 =? 0); simpl;
    match goal with |- context [generate_row _ _ _ _ _ ?x ?r ?a ?j ?w0] =>
      destruct (generate_row_returns k fid storage x r a j w0)
        as (acc' & w' & -> & _) end;
    by exists acc', w'.
Qed.

Lemma detailed_rows_return k fid file_info storage total (rows_ : list Z) acc w :
  (forall i, i ∈ rows_ -> is_Some (get_row storage i)) ->
  exists acc' w',
    for_fold rows_ acc
      (detailed_row env k fid file_info storage total qa_count) w = (Ok acc', w').
Proof.
  revert acc w. induction rows_ as [|i rows_ IH]; intros acc w Hrows.
  - by eexists _, _.
  - destruct (detailed_row_returns k fid file_info storage total acc i w)
      as (acc1 & w1 & Hb).
    { apply Hrows. left. }
    destruct (IH acc1 w1) as (acc' & w' & Hf).
    { intros j Hj. apply Hrows. by right. }
    exists acc', w'. cbn [for_fold]. unfold mbind, M_bind. by rewrite Hb.
Qed.

Lemma process_files_batch_run file_ids w0 :
  let run := process_files_batch env file_ids qa_count w0 in
  fst run = Ok tt /\
  (status (the_status (snd run)) = "completed" \/
   status (the_status (snd run)) = "error" /\
   exists done fid rest,
     file_ids = done ++ fid :: rest /\
     status (the_status (snd (process_files_batch env done qa_count w0)))
     = "completed" /\
     same_results_except results fid
       (snd (process_files_batch env done qa_count w0)) (snd run)).
Proof.
  cbv zeta.
  destruct (for_each_enumerate_split (batch_file env qa_count) file_ids 0 w0)
    as [Hok|(done & fid & rest & e & -> & Hdone & Heq & He)].
  - unfold process_files_batch, try_except, mbind, M_bind.
    destruct (for_each _ _ w0) as [[[]|e] w']; [|done].
    simpl. split; [done|]. by left.
  - destruct (for_each (enumerate 0 done) (batch_file env qa_count) w0)
      as [r wd] eqn:Hd.
    cbn [fst snd] in Hdone, Heq, He. subst r.
    pose proof (batch_file_framed env qa_count (0 + length done) fid wd) as Hfile.
    destruct (batch_file env qa_count ((0 + length done)%nat, fid) wd)
      as [r wf] eqn:Hb.
    cbn [fst snd] in He, Hfile. subst r.
    assert (Hrun : process_files_batch env (done ++ fid :: rest) qa_count w0
                   = batch_failed e wf).
    { unfold process_files_batch, try_except, mbind, M_bind. by rewrite Heq. }
    assert (Hbefore : process_files_batch env done qa_count w0
                      = on_status (set_status "completed") wd).
    { unfold process_files_batch, try_except, mbind, M_bind. by rewrite Hd. }
    rewrite Hrun.
    destruct (batch_failed_status e wf) as [Hr Hs].
    split; [done|]. right. split; [done|].
    exists done, fid, rest. rewrite Hbefore. split; [done|]. split; [done|].
    intros f Hf.
    rewrite (batch_failed_framed fid e wf f Hf). by rewrite (Hfile f Hf).
Qed.

Lemma process_files_with_detailed_status_run file_ids w0 :
  let run := process_files_with_detailed_status env file_ids qa_count w0 in
  fst run = Ok tt /\
  (d_status (the_status (snd run)) = "completed" \/
   d_status (the_status (snd run)) = "error" /\
   exists done fid rest,
     file_ids = done ++ fid :: rest /\
     d_status (the_status
        (snd (process_files_with_detailed_status env done qa_count w0)))
     = "completed" /\
     same_results_except d_results fid
       (snd (process_files_with_detailed_status env done qa_count w0)) (snd run)).
Proof.
  cbv zeta.
  set (start := (_ ← on_status (d_set_status "running");
                 on_status (d_set_current_operation "Preparing files..."))
                : M (World DetailedProcessStatus) unit).
  set (finish := (_ ← on_status (d_set_status "completed");
                  on_status (d_set_current_operation
                               "Batch processing completed successfully"))
                 : M (World DetailedProcessStatus) unit).
  set (w1 := snd (start w0)).
  assert (Hshape : forall ids,
    process_files_with_detailed_status env ids qa_count w0 =
    match for_each (enumerate 0 ids) (detailed_file env qa_count) w1 with
    | (Ok _, w') => finish w'
    | (Raise e, w') => detailed_failed e w'
    end).
  { intros ids.
    unfold process_files_with_detailed_status, try_except, w1, start, finish.
    unfold mbind, M_bind. simpl.
    destruct (for_each _ _ _) as [[[]|e] w']; done. }
  rewrite Hshape.
  destruct (for_each_enumerate_split (detailed_file env qa_count) file_ids 0 w1)
    as [Hok|(done & fid & rest & e & -> & Hdone & Heq & He)].
  - destruct (for_each _ _ w1) as [[[]|e] w']; [|done].
    split; [done|]. by left.
  - pose proof (Hshape done) as Hbefore.
    destruct (for_each (enumerate 0 done) (detailed_file env qa_count) w1)
      as [r wd] eqn:Hd.
    cbn [fst snd] in Hdone, Heq, He. subst r.
    pose proof (detailed_file_framed env qa_count (0 + length done) fid wd) as Hfile.
    destruct (detailed_file env qa_count ((0 + length done)%nat, fid) wd)
      as [r wf] eqn:Hb.
    cbn [fst snd] in He, Hfile. subst r. rewrite Heq.
    split; [done|]. right. split; [done|].
    exists done, fid, rest. rewrite Hbefore. split; [done|]. split; [done|].
    intros f Hf.
    rewrite (detailed_failed_framed fid e wf f Hf). by rewrite (Hfile f Hf).
Qed.


End termination.

(** *** A worked batch: the first file is processed, the second cannot be
    read *)

(** Row 0 already has a question, row 1 has none, row 2 has no
    translation. *)
Definition frame_three : DataFrame :=
  {| columns := ["sanskrit"; "english"; "tags"; "q_en_1"; "a_en_1"];
     rows :=
       [ list_to_map [("sanskrit", "s0"); ("english", "e0"); ("tags", "");
                      ("q_en_1", "Who?"); ("a_en_1", "He.")];
         list_to_map [("sanskrit", "s1"); ("english", "e1"); ("tags", "");
                      ("q_en_1", ""); ("a_en_1", "")];
         list_to_map [("sanskrit", "s2"); ("english", ""); ("tags", "");
                      ("q_en_1", ""); ("a_en_1", "")] ] |}.

Definition env_two_files : Env :=
  {| cfg := cfg_default; CSV_FOLDER := "./data";
     APP_MODEL_NAME := "gpt-oss:120b";
     read_csv := fun k _ =>
       match k with
       | O => Ok frame_three
       | S _ => Raise (ValueError "No columns to parse from file")
       end;
     service := fun _ _ => srv_one_answer;
     save_file_metadata := fun _ _ => Ok tt |}.

Definition file_info_of (fid : string) : FileInfo :=
  {| file_id := fid; filename := (fid +:+ ".csv")%string; row_count := 3;
     processed_count := 0; file_status := "pending" |}.

(** The status object [start_batch_process] creates for the files a and b. *)
Definition world_started : World ProcessStatus :=
  {| the_status :=
       {| status := "running"; current_file := ""; current_row := 0;
          total_rows := 0; processed_files := 0; current_sanskrit := "";
          error_message := "";
          results := list_to_map [("a", []); ("b", [])];
          progress :=
            list_to_map
              [("a", {| processed := 0; total := 3; progress_status := "pending" |});
               ("b", {| processed := 0; total := 3; progress_status := "pending" |})] |};
     file_registry := list_to_map [("a", file_info_of "a"); ("b", file_info_of "b")];
     submitted := [] |}.

Example batch_two_files :
  let run := process_files_batch env_two_files ["a"; "b"] 2 world_started in
  fst run = Ok tt /\
  status (the_status (snd run)) = "error" /\
  error_message (the_status (snd run)) = "No columns to parse from file" /\
  submitted (snd run) = [(0%nat, "a", 1)] /\
  (exists item,
     results (the_status (snd run)) !! "a" = Some [item] /\
     item !! "id" = Some (VInt 1) /\
     item !! "q_en" = Some (VList [VStr "Q"; VStr ""])) /\
  results (the_status (snd run)) !! "b" = Some [].
Proof.
  cbv zeta. repeat (split; [by vm_compute|]). split; [|by vm_compute].
  eexists. split; [vm_compute; reflexivity|]. split; by vm_compute.
Qed.

(** * Further properties *)

(** ** Response validation: every length, every dict *)

Section validation_more.

Lemma validate_key_resized n j k l :
  j !! k = Some (VList l) ->
  validate_key n j k = Ok (<[k := VList (resized l n)]> j).
Proof.
  intros Hk. unfold resized. destruct (Z.ltb_spec n 0) as [Hneg|Hpos].
  - unfold validate_key. rewrite Hk. unfold len.
    destruct (Z.eqb_spec (Z.of_nat (length l)) n); [lia|].
    destruct (Z.ltb_spec n (Z.of_nat (length l))); [|lia].
    unfold slice_to, len. destruct (Z.leb_spec 0 n); [lia|].
    do 4 f_equal. lia.
  - by apply validate_key_list.
Qed.

Lemma validate_keys_resized n ks j :
  NoDup ks ->
  (forall k, k ∈ ks -> is_list_at j k = true) ->
  exists j', validate_keys n ks j = Ok j' /\
    (forall k l, k ∈ ks -> j !! k = Some (VList l) ->
       j' !! k = Some (VList (resized l n))) /\
    (forall k, k ∉ ks -> j' !! k = j !! k).
Proof.
  revert j. induction ks as [|k ks IH]; intros j Hnd Hall.
  - exists j. split; [done|]. split; [|done]. intros k l Hk. by apply elem_of_nil in Hk.
  - apply NoDup_cons in Hnd as [Hk Hnd].
    assert (Hl : is_list_at j k = true) by (apply Hall; left).
    unfold is_list_at in Hl.
    destruct (j !! k) as [[| | | | |l|]|] eqn:Hjk; try discriminate.
    destruct (IH (<[k := VList (resized l n)]> j) Hnd) as (j' & Hrun & Hin & Hout).
    { intros k' Hk'. unfold is_list_at.
      destruct (decide (k = k')) as [->|Hne]; [by rewrite lookup_insert_eq|].
      rewrite lookup_insert_ne by done. apply (Hall k'). by right. }
    exists j'. split.
    { simpl. rewrite (validate_key_resized n j k l Hjk). exact Hrun. }
    split.
    + intros k' l' Hk' Hjk'. apply elem_of_cons in Hk' as [->|Hk'].
      * rewrite Hout by done. rewrite lookup_insert_eq. congruence.
      * apply Hin; [done|]. rewrite lookup_insert_ne; [done|].
        intros ->. done.
    + intros k' Hk'. apply not_elem_of_cons in Hk' as [Hne Hk'].
      rewrite Hout by done. by rewrite lookup_insert_ne.
Qed.

Lemma validate_keys_bad n ks j k :
  k ∈ ks -> is_list_at j k = false ->
  exists msg, validate_keys n ks j = Raise (ValueError msg).
Proof.
  revert j. induction ks as [|k0 ks IH]; intros j Hk Hbad.
  - by apply elem_of_nil in Hk.
  - simpl. destruct (is_list_at j k0) eqn:Hl.
    + unfold is_list_at in Hl.
      destruct (j !! k0) as [[| | | | |l|]|] eqn:Hjk; try discriminate.
      rewrite (validate_key_resized n j k0 l Hjk). simpl.
      apply elem_of_cons in Hk as [->|Hk].
      { unfold is_list_at in Hbad. rewrite Hjk in Hbad. discriminate. }
      apply IH; [done|]. unfold is_list_at in *.
      destruct (decide (k0 = k)) as [->|Hne].
      * rewrite Hjk in Hbad. discriminate.
      * by rewrite lookup_insert_ne.
    + destruct (validate_key_not_list n j k0 Hl) as [msg ->]. by exists msg.
Qed.

(** X1. Whatever [n] is, [_validate_output] raises exactly when one of the
    six required keys is missing or holds something that is not a list,
    and what it raises is a [ValueError]; otherwise it returns. *)
Theorem validate_output_raises_iff (j : gmap string pyval) (n : Z) :
  ((exists k, k ∈ required /\ is_list_at j k = false) <->
   exists msg, _validate_output j n = Raise (ValueError msg)) /\
  ((forall k, k ∈ required -> is_list_at j k = true) <->
   exists j', _validate_output j n = Ok j') /\
  (forall e, _validate_output j n = Raise e -> exists msg, e = ValueError msg).
Proof.
  assert (Hcases :
    (exists k, k ∈ required /\ is_list_at j k = false) \/
    (forall k, k ∈ required -> is_list_at j k = true)).
  { destruct (forallb (is_list_at j) required) eqn:Hall.
    - right. by apply forallb_elem_of.
    - left. by apply forallb_false_elem_of. }
  assert (Hbad : (exists k, k ∈ required /\ is_list_at j k = false) ->
                 exists msg, _validate_output j n = Raise (ValueError msg)).
  { intros (k & Hk & Hl). by apply (validate_keys_bad n required j k). }
  assert (Hgood : (forall k, k ∈ required -> is_list_at j k = true) ->
                  exists j', _validate_output j n = Ok j').
  { intros Hall.
    destruct (validate_keys_resized n required j required_NoDup Hall)
      as (j' & Hrun & _). by exists j'. }
  split; [|split].
  - split; [done|]. intros [msg Hr]. destruct Hcases as [?|Hall]; [done|].
    destruct (Hgood Hall) as [j' Hj']. congruence.
  - split; [done|]. intros [j' Hj']. destruct Hcases as [Hk|?]; [|done].
    destruct (Hbad Hk) as [msg Hr]. congruence.
  - intros e He. destruct Hcases as [Hk|Hall].
    + destruct (Hbad Hk) as [msg Hr]. exists msg. congruence.
    + destruct (Hgood Hall) as [j' Hj']. congruence.
Qed.

(** X2. With [n <= 0] and the six keys holding lists, [_validate_output]
    returns without complaint: for [n = 0] it empties every list, and for a
    negative [n] it removes the last [-n] items of every list (all of them
    when the list has no more than that), so that no list has [n] items. *)
Theorem validate_output_nonpositive (j : gmap string pyval) (n : Z) :
  n <= 0 ->
  (forall k, k ∈ required -> is_list_at j k = true) ->
  exists j', _validate_output j n = Ok j' /\
    (forall k l, k ∈ required -> j !! k = Some (VList l) ->
       j' !! k = Some (VList (if n =? 0 then []
                              else take (length l - Z.to_nat (- n)) l))) /\
    (forall k, k ∉ required -> j' !! k = j !! k).
Proof.
  intros Hn Hall.
  destruct (validate_keys_resized n required j required_NoDup Hall)
    as (j' & Hrun & Hin & Hout).
  exists j'. split; [done|]. split; [|done].
  intros k l Hk Hjk. rewrite (Hin k l Hk Hjk). unfold resized.
  destruct (Z.ltb_spec n 0) as [Hneg|Hpos].
  - destruct (Z.eqb_spec n 0); [lia|done].
  - assert (n = 0) as -> by lia. done.
Qed.

Definition j_two_each : gmap string pyval :=
  list_to_map (map (fun k => (k, VList [VStr "x"; VStr "y"])) required).

Lemma validate_output_nonpositive_witness :
  exists j', _validate_output j_two_each (-1) = Ok j' /\
             j' !! "q_en" = Some (VList [VStr "x"]).
Proof.
  destruct (validate_output_nonpositive j_two_each (-1)) as (j' & Hrun & Hin & _).
  - lia.
  - intros k Hk. apply list_elem_of_In in Hk. simpl in Hk.
    repeat (destruct Hk as [<-|Hk]; [reflexivity|]). destruct Hk.
  - exists j'. split; [exact Hrun|].
    apply (Hin "q_en" [VStr "x"; VStr "y"]); [vm_compute; left | reflexivity].
Defined.

(** X3. Validation is idempotent: for [n >= 0], a dict that
    [_validate_output] returned passes [_validate_output] again unchanged. *)
Theorem validate_output_idempotent (j j' : gmap string pyval) (n : Z) :
  0 <= n ->
  _validate_output j n = Ok j' ->
  _validate_output j' n = Ok j'.
Proof.
  intros Hn Hrun.
  pose proof (validate_output_ok_inv j n j' Hn Hrun) as Hkeys.
  unfold _validate_output.
  assert (Hgen : forall ks,
    (forall k, k ∈ ks -> k ∈ required) -> validate_keys n ks j' = Ok j').
  { induction ks as [|k ks IH]; intros Hks; [done|].
    destruct (Hkeys k) as (l & _ & Hk'); [apply Hks; left|].
    simpl. unfold validate_key. rewrite Hk'.
    rewrite (len_fit l n Hn), Z.eqb_refl. simpl.
    apply IH. intros k' Hk''. apply Hks. by right. }
  by apply Hgen.
Qed.

Lemma validate_output_idempotent_witness :
  exists j', _validate_output j_three_and_none 2 = Ok j' /\
             _validate_output j' 2 = Ok j'.
Proof.
  destruct (_validate_output j_three_and_none 2) as [j'|] eqn:Hrun;
    [|vm_compute in Hrun; discriminate].
  exists j'. split; [reflexivity|].
  exact (validate_output_idempotent j_three_and_none j' 2 ltac:(lia) Hrun).
Defined.

End validation_more.

(** ** Single generations: the retry loop *)

Section retries.

Lemma retry_loop_cons srv req rank a rest last_err :
  retry_loop srv req rank (a :: rest) last_err =
  match attempt_outcome srv req rank a with
  | Ok r => (Ok r, [req])
  | Raise e =>
      (fst (retry_loop srv req rank rest (Some e)),
       req :: snd (retry_loop srv req rank rest (Some e)))
  end.
Proof.
  cbn [retry_loop]. unfold attempt_outcome.
  destruct (post srv req rank a) as [e|[parsed|]].
  - by destruct (retry_loop srv req rank rest (Some e)).
  - case_bool_decide.
    + by destruct (retry_loop srv req rank rest _).
    + destruct (_validate_output parsed 1) as [r|e]; [done|].
      by destruct (retry_loop srv req rank rest (Some e)).
  - by destruct (retry_loop srv req rank rest _).
Qed.

(** The loop over the attempts [start, start + 1, ...]: the first attempt
    that succeeds ends it. *)
Lemma retry_loop_first_success srv req rank start before after r last_err :
  (forall b, (start <= b < start + before)%nat ->
     is_ok (attempt_outcome srv req rank b) = false) ->
  attempt_outcome srv req rank (start + before) = Ok r ->
  retry_loop srv req rank (seq start (S (before + after))) last_err
  = (Ok r, replicate (S before) req).
Proof.
  revert start last_err. induction before as [|before IH]; intros start last_err Hfail Hok.
  - rewrite <- cons_seq, retry_loop_cons.
    rewrite Nat.add_0_r in Hok. by rewrite Hok.
  - replace (S (S before + after)) with (S (S (before + after))) by lia.
    rewrite <- cons_seq, retry_loop_cons.
    destruct (attempt_outcome srv req rank start) as [r0|e] eqn:Hstart.
    { specialize (Hfail start ltac:(lia)). by rewrite Hstart in Hfail. }
    rewrite (IH (S start) (Some e)).
    + done.
    + intros b Hb. apply Hfail. lia.
    + by replace (S start + before)%nat with (start + S before)%nat by lia.
Qed.

(** The loop when every attempt fails: all requests are sent and the last
    error is raised. *)
Lemma retry_loop_exhausted srv req rank start count last_err :
  (forall b, (start <= b < start + count)%nat ->
     is_ok (attempt_outcome srv req rank b) = false) ->
  exists e,
    retry_loop srv req rank (seq start count) last_err
    = (Raise e, replicate count req) /\
    (count = 0%nat ->
     e = default (RuntimeError "Single generation failed") last_err) /\
    ((1 <= count)%nat ->
     attempt_outcome srv req rank (start + count - 1) = Raise e).
Proof.
  revert start last_err. induction count as [|count IH]; intros start last_err Hfail.
  - eexists. split; [reflexivity|]. split; [done|lia].
  - rewrite <- cons_seq, retry_loop_cons.
    destruct (attempt_outcome srv req rank start) as [r0|e0] eqn:Hstart.
    { specialize (Hfail start ltac:(lia)). by rewrite Hstart in Hfail. }
    destruct (IH (S start) (Some e0)) as (e & Hrun & Hzero & Hlast).
    { intros b Hb. apply Hfail. lia. }
    exists e. rewrite Hrun. split; [done|]. split; [lia|]. intros _.
    destruct count as [|count].
    + rewrite (Hzero eq_refl). simpl.
      by replace (start + 1 - 1)%nat with start by lia.
    + replace (start + S (S count) - 1)%nat with (S start + S count - 1)%nat by lia.
      apply Hlast. lia.
Qed.

Lemma retry_loop_sent_length srv req rank attempts last_err :
  (length (snd (retry_loop srv req rank attempts last_err)) <= length attempts)%nat /\
  (attempts ≠ [] ->
   (1 <= length (snd (retry_loop srv req rank attempts last_err)))%nat).
Proof.
  revert last_err. induction attempts as [|a rest IH]; intros last_err.
  - simpl. split; [lia|done].
  - rewrite retry_loop_cons.
    destruct (attempt_outcome srv req rank a) as [r|e]; simpl.
    + split; [lia|intros _; lia].
    + destruct (IH (Some e)) as [Hle _]. split; [lia|intros _; lia].
Qed.

(** X4. [_generate_single_qa] returns the validated dict of the first
    round trip that succeeds, and stops there: when attempts 1 to a-1 fail
    and attempt a (no later than MAX_RETRIES) succeeds, exactly a requests
    are sent, all with the same model and prompt. *)
Theorem single_qa_returns_first_success (cfg : Config) (srv : Service)
    (rank : nat) (sanskrit english model : string) (a : nat)
    (r : gmap string pyval) :
  let req := {| req_model := model;
                req_prompt := build_prompt cfg sanskrit english |} in
  (1 <= a)%nat -> Z.of_nat a <= MAX_RETRIES cfg ->
  (forall b, (1 <= b < a)%nat -> is_ok (attempt_outcome srv req rank b) = false) ->
  attempt_outcome srv req rank a = Ok r ->
  _generate_single_qa cfg srv rank sanskrit english model
  = (Ok r, replicate a req).
Proof.
  intros req Ha Hmax Hfail Hok. unfold _generate_single_qa. fold req.
  destruct a as [|before]; [lia|].
  replace (Z.to_nat (MAX_RETRIES cfg))
    with (S (before + (Z.to_nat (MAX_RETRIES cfg) - S before)))%nat by lia.
  apply retry_loop_first_success.
  - intros b Hb. apply Hfail. lia.
  - exact Hok.
Qed.

(** The second round trip of every task answers; the first one times out. *)
Definition srv_second_try : Service :=
  {| get_tags := tags_ok ["gpt-oss:120b"];
     post := fun _ _ attempt =>
       match attempt with
       | 2%nat => Parsed (Some one_pair)
       | _ => PostRaises (RequestException "Read timed out")
       end |}.

Lemma single_qa_returns_first_success_witness :
  _generate_single_qa cfg_default srv_second_try 0 "s" "e" "m"
  = (Ok one_pair,
     replicate 2 {| req_model := "m"; req_prompt := build_prompt cfg_default "s" "e" |}).
Proof.
  apply (single_qa_returns_first_success cfg_default srv_second_try 0 "s" "e" "m" 2).
  - lia.
  - vm_compute. discriminate.
  - intros b Hb. assert (b = 1%nat) as -> by lia. reflexivity.
  - vm_compute. reflexivity.
Defined.

(** X5. When every round trip fails, [_generate_single_qa] sends exactly
    MAX_RETRIES requests and raises the error of the last one; with
    MAX_RETRIES <= 0 it sends nothing and raises
    [RuntimeError("Single generation failed")]. *)
Theorem single_qa_exhausts_retries (cfg : Config) (srv : Service)
    (rank : nat) (sanskrit english model : string) :
  let req := {| req_model := model;
                req_prompt := build_prompt cfg sanskrit english |} in
  (forall b, (1 <= b)%nat -> Z.of_nat b <= MAX_RETRIES cfg ->
     is_ok (attempt_outcome srv req rank b) = false) ->
  exists e,
    _generate_single_qa cfg srv rank sanskrit english model
    = (Raise e, replicate (Z.to_nat (MAX_RETRIES cfg)) req) /\
    (MAX_RETRIES cfg <= 0 -> e = RuntimeError "Single generation failed") /\
    (1 <= MAX_RETRIES cfg ->
     attempt_outcome srv req rank (Z.to_nat (MAX_RETRIES cfg)) = Raise e).
Proof.
  intros req Hfail. unfold _generate_single_qa. fold req.
  destruct (retry_loop_exhausted srv req rank 1 (Z.to_nat (MAX_RETRIES cfg)) None)
    as (e & Hrun & Hzero & Hlast).
  { intros b Hb. apply Hfail; lia. }
  exists e. split; [exact Hrun|]. split.
  - intros Hle. apply Hzero. lia.
  - intros Hge.
    replace (Z.to_nat (MAX_RETRIES cfg))
      with (1 + Z.to_nat (MAX_RETRIES cfg) - 1)%nat at 1 by lia.
    apply Hlast. lia.
Qed.

(** A server that is reachable for the listing and times out on every
    generation. *)
Definition srv_timeouts : Service :=
  {| get_tags := tags_ok ["gpt-oss:120b"];
     post := fun _ _ _ => PostRaises (RequestException "Read timed out") |}.

Lemma single_qa_exhausts_retries_witness :
  exists e,
    _generate_single_qa cfg_default srv_timeouts 0 "s" "e" "m"
    = (Raise e,
       replicate 3 {| req_model := "m"; req_prompt := build_prompt cfg_default "s" "e" |}) /\
    e = RequestException "Read timed out".
Proof.
  destruct (single_qa_exhausts_retries cfg_default srv_timeouts 0 "s" "e" "m")
    as (e & Hrun & _ & Hlast).
  - intros b _ _. reflexivity.
  - exists e. split; [exact Hrun|].
    specialize (Hlast ltac:(vm_compute; discriminate)).
    vm_compute in Hlast. by injection Hlast as <-.
Defined.

End retries.

(** ** Fan-out generation: requests, keys, whitespace *)

Section fanout_more.

Lemma concat_length_bounds {A} (ls : list (list A)) (m : nat) :
  Forall (fun l => (1 <= length l <= m)%nat) ls ->
  (length ls <= length (concat ls) <= length ls * m)%nat.
Proof.
  induction 1 as [|l ls Hl _ IH]; simpl; [lia|].
  rewrite length_app. lia.
Qed.

(** X6. The request budget of [generate_for_row]: when the health check
    fails or [n <= 0] no generate request is sent; otherwise, with
    MAX_RETRIES >= 1, every one of the [n] tasks sends at least one request
    and at most MAX_RETRIES, so between [n] and [n * MAX_RETRIES] in all. *)
Theorem generate_for_row_request_budget (cfg : Config) (srv : Service)
    (sanskrit english model : string) (n : Z) :
  let sent := snd (generate_for_row cfg srv sanskrit english model n) in
  (_check_server_health cfg srv = false \/ n <= 0 -> sent = []) /\
  (_check_server_health cfg srv = true -> 1 <= n -> 1 <= MAX_RETRIES cfg ->
   n <= len sent <= n * MAX_RETRIES cfg).
Proof.
  cbv zeta. unfold generate_for_row. split.
  - intros [Hh|Hn].
    + by rewrite Hh.
    + destruct (_check_server_health cfg srv); [|done]. simpl.
      by destruct (Z.leb_spec n 0); [|lia].
  - intros Hh Hn Hmax. rewrite Hh. simpl.
    destruct (Z.leb_spec n 0); [lia|]. simpl.
    pose proof (concat_length_bounds
                  (map snd (run_tasks cfg srv sanskrit english model n))
                  (Z.to_nat (MAX_RETRIES cfg))) as Hb.
    rewrite length_map, run_tasks_length in Hb. unfold len.
    assert (Hall : Forall (fun l => (1 <= length l <= Z.to_nat (MAX_RETRIES cfg))%nat)
                     (map snd (run_tasks cfg srv sanskrit english model n))).
    { apply Forall_map, Forall_forall. intros task Htask.
      unfold run_tasks in Htask.
      apply list_elem_of_fmap in Htask as (rank & -> & _).
      unfold _generate_single_qa.
      match goal with |- context [retry_loop ?s ?r ?k ?l ?e] =>
        destruct (retry_loop_sent_length s r k l e) as [Hle Hge] end.
      rewrite length_seq in Hle. split; [|exact Hle].
      apply Hge. destruct (Z.to_nat (MAX_RETRIES cfg)) eqn:Hz; [lia|done]. }
    specialize (Hb Hall). nia.
Qed.

Lemma merge_keys_dom ks r res k :
  is_Some (merge_keys ks r res !! k) <-> is_Some (res !! k).
Proof.
  revert res. induction ks as [|k0 ks IH]; intros res; [done|].
  simpl. destruct (r !! k0 ≫= py_iter) as [items|]; [|done].
  destruct (res !! k0) as [[| | | | |acc|]|] eqn:Hk0; try done.
  rewrite IH. destruct (decide (k0 = k)) as [->|Hne].
  - rewrite lookup_insert_eq, Hk0. split; eauto.
  - by rewrite lookup_insert_ne.
Qed.

Lemma validate_keys_dom n ks j j' k :
  validate_keys n ks j = Ok j' -> is_Some (j' !! k) <-> is_Some (j !! k).
Proof.
  revert j. induction ks as [|k0 ks IH]; intros j; simpl.
  - by intros [= ->].
  - unfold validate_key at 1.
    destruct (j !! k0) as [[| | | | |l|]|] eqn:Hk0; try done.
    assert (Hins : forall v, is_Some (<[k0 := v]> j !! k) <-> is_Some (j !! k)).
    { intros v. destruct (decide (k0 = k)) as [->|Hne].
      - rewrite lookup_insert_eq, Hk0. split; eauto.
      - by rewrite lookup_insert_ne. }
    destruct (len l =? n); [apply IH|].
    destruct (n <? len l); simpl; intros Hrun; rewrite (IH _ Hrun); apply Hins.
Qed.

Lemma empty_results_dom k : is_Some (empty_results !! k) <-> k ∈ required.
Proof.
  unfold empty_results. rewrite <- elem_of_dom, dom_list_to_map_L.
  by rewrite elem_of_list_to_set, map_map.
Qed.

Lemma generate_for_row_dom cfg srv sanskrit english model n res k :
  fst (generate_for_row cfg srv sanskrit english model n) = Ok res ->
  is_Some (res !! k) <-> k ∈ required.
Proof.
  unfold generate_for_row.
  destruct (_check_server_health cfg srv); simpl; [|done].
  destruct (n <=? 0); simpl; [done|].
  intros Hrun. rewrite (validate_keys_dom _ _ _ _ _ Hrun).
  rewrite <- empty_results_dom.
  generalize (map fst (run_tasks cfg srv sanskrit english model n)).
  generalize empty_results.
  intros res0 outcomes. revert res0.
  induction outcomes as [|o outs IH]; intros res0; [done|].
  cbn [fold_left]. rewrite IH. destruct o as [r|e]; [|done].
  apply merge_keys_dom.
Qed.

(** X7. The dict [generate_for_row] returns has the six keys and no other:
    whatever the tasks' dicts hold besides, only the six lists are
    merged. *)
Theorem generate_for_row_six_keys (cfg : Config) (srv : Service)
    (sanskrit english model : string) (n : Z) (res : gmap string pyval) :
  fst (generate_for_row cfg srv sanskrit english model n) = Ok res ->
  forall k, is_Some (res !! k) <-> k ∈ required.
Proof. intros Hrun k. by eapply generate_for_row_dom. Qed.

(** A server whose answers carry a seventh key. *)
Definition srv_chatty : Service :=
  {| get_tags := tags_ok ["gpt-oss:120b"];
     post := fun _ _ _ => Parsed (Some (<["id" := VInt 99]> one_pair)) |}.

Lemma generate_for_row_six_keys_witness :
  exists res,
    fst (generate_for_row cfg_default srv_chatty "s" "e" "gpt-oss:120b" 2) = Ok res /\
    res !! "id" = None /\ is_Some (res !! "q_en").
Proof.
  destruct (fst (generate_for_row cfg_default srv_chatty "s" "e" "gpt-oss:120b" 2))
    as [res|] eqn:Hrun; [|vm_compute in Hrun; discriminate].
  exists res. split; [reflexivity|].
  pose proof (generate_for_row_six_keys _ _ _ _ _ _ _ Hrun) as Hkeys. split.
  - destruct (res !! "id") eqn:Hid; [|reflexivity].
    assert (Hin : "id" ∈ required) by (apply Hkeys; eauto).
    apply list_elem_of_In in Hin. simpl in Hin.
    repeat (destruct Hin as [Hin|Hin]; [discriminate Hin|]). destruct Hin.
  - apply Hkeys. vm_compute. left.
Defined.

Lemma lstrip_head s c t : lstrip s = String c t -> isspace c = false.
Proof.
  induction s as [|a s IH]; simpl; [done|].
  destruct (isspace a) eqn:Ha; [done|]. by intros [= <- <-].
Qed.

Lemma rstrip_idempotent s : rstrip (rstrip s) = rstrip s.
Proof.
  induction s as [|c s IH]; simpl; [done|].
  destruct (isspace c && string_empty (rstrip s)) eqn:Hc; [done|].
  simpl. by rewrite IH, Hc.
Qed.

Lemma strip_idempotent s : strip (strip s) = strip s.
Proof.
  unfold strip.
  assert (Hl : lstrip (rstrip (lstrip s)) = rstrip (lstrip s)).
  { destruct (lstrip s) as [|c t] eqn:Hs; [done|].
    apply lstrip_head in Hs. simpl. rewrite Hs. simpl. by rewrite Hs. }
  by rewrite Hl, rstrip_idempotent.
Qed.

(** X8. [generate_for_row] depends on the two texts only through their
    stripped forms: leading and trailing whitespace of the Sanskrit or of
    the English text changes neither the requests sent nor the result. *)
Theorem generate_for_row_ignores_outer_whitespace (cfg : Config) (srv : Service)
    (sanskrit english model : string) (n : Z) :
  generate_for_row cfg srv sanskrit english model n
  = generate_for_row cfg srv (strip sanskrit) (strip english) model n.
Proof.
  unfold generate_for_row, run_tasks, _generate_single_qa, build_prompt.
  by rewrite !strip_idempotent.
Qed.

End fanout_more.

(** ** The health check: what a listed name must look like *)

Section health_more.

Local Open Scope string_scope.

Lemma prefix_iff (p s : string) :
  String.prefix p s = true <-> exists t, s = p ++ t.
Proof.
  revert s. induction p as [|a p IH]; intros s.
  - split; [intros _; by exists s | intros _; by destruct s].
  - destruct s as [|b s]; simpl.
    + split; [done | intros [t Ht]; discriminate Ht].
    + destruct (ascii_dec a b) as [->|Hne].
      * rewrite IH. split; intros [t Ht]; exists t.
        -- by rewrite Ht.
        -- by injection Ht.
      * split; [done|]. intros [t Ht]. injection Ht as Hab _. by destruct Hne.
Qed.

(** [needle in hay] holds exactly when [hay] is some text, the needle,
    and some text. *)
Lemma contains_iff (needle hay : string) :
  contains needle hay = true <-> exists a b, hay = a ++ needle ++ b.
Proof.
  induction hay as [|c hay IH]; cbn [contains].
  - rewrite orb_false_r, prefix_iff. split.
    + intros [t Ht]. by exists "", t.
    + intros (a & b & Hab). destruct a as [|x a]; [by exists b | discriminate Hab].
  - rewrite orb_true_iff, prefix_iff, IH. split.
    + intros [[t Ht]|(a & b & ->)].
      * by exists "", t.
      * by exists (String c a), b.
    + intros ([|x a] & b & Hab).
      * left. by exists b.
      * right. injection Hab as -> ->. by exists a, b.
Qed.

(** X9. The health check passes exactly when the listing answers 200 and
    some listed name contains the target (MODEL_NAME, or gpt-oss:120b when
    unset) as a contiguous part: the name need not be equal to it. In
    particular, with MODEL_NAME set to the empty string every listing with
    at least one model passes. *)
Theorem health_check_matches_substrings (cfg : Config) (srv : Service) :
  (_check_server_health cfg srv = true <->
   exists resp names,
     get_tags srv = Ok resp /\ status_code resp = 200 /\
     model_names resp = Ok names /\
     exists before after,
       (before ++ default "gpt-oss:120b" (MODEL_NAME cfg) ++ after) ∈ names) /\
  (MODEL_NAME cfg = Some "" ->
   (_check_server_health cfg srv = true <->
    exists resp names,
      get_tags srv = Ok resp /\ status_code resp = 200 /\
      model_names resp = Ok names /\ names ≠ [])).
Proof.
  assert (Hex : forall target names,
    existsb (contains target) names = true <->
    exists before after, (before ++ target ++ after) ∈ names).
  { intros target names. rewrite existsb_exists. split.
    - intros (name & Hin & (a & b & ->)%contains_iff).
      exists a, b. by apply list_elem_of_In.
    - intros (a & b & Hin). exists (a ++ target ++ b).
      split; [by apply list_elem_of_In|]. apply contains_iff. by exists a, b. }
  assert (Hmain : _check_server_health cfg srv = true <->
    exists resp names,
      get_tags srv = Ok resp /\ status_code resp = 200 /\
      model_names resp = Ok names /\
      exists before after,
        (before ++ default "gpt-oss:120b" (MODEL_NAME cfg) ++ after) ∈ names).
  { unfold _check_server_health. split.
    - destruct (get_tags srv) as [resp|] eqn:Ht; [|done].
      destruct (Z.eqb_spec (status_code resp) 200) as [Hc|]; [|done]. simpl.
      destruct (model_names resp) as [names|] eqn:Hn; [|done].
      destruct (existsb _ names) eqn:He; [|done]. intros _.
      exists resp, names. do 3 (split; [done|]). by apply Hex.
    - intros (resp & names & -> & -> & -> & Hn). simpl.
      apply Hex in Hn. by rewrite Hn. }
  split; [exact Hmain|]. intros Hempty. rewrite Hmain, Hempty. simpl.
  split; intros (resp & names & Ht & Hc & Hn & H); exists resp, names;
    repeat (split; [done|]).
  - intros ->. destruct H as (a & b & H). by apply elem_of_nil in H.
  - destruct names as [|name names]; [done|]. exists "", name. left.
Qed.

End health_more.

(** ** Span extraction and response parsing *)

Section parsing_more.

Local Open Scope string_scope.

Ltac norm_append := rewrite ?append_cons, ?append_nil.

Lemma append_nil_r (s : string) : s ++ "" = s.
Proof. induction s as [|c s IH]; norm_append; [done|]. by rewrite IH. Qed.

Lemma extract_at_brace rest :
  _extract_first_json (String "{" rest) =
  match scan rest 1 (depth lex_inside) (in_string lex_inside)
             (escaped lex_inside) with
  | Some i => Some (substring 0 (i + 1 - 0) (String "{" rest))
  | None => None
  end.
Proof. reflexivity. Qed.

(** X10. Extraction is idempotent: the span [_extract_first_json] returns
    is its own first span. *)
Theorem extract_first_json_idempotent (s t : string) :
  _extract_first_json s = Some t -> _extract_first_json t = Some t.
Proof.
  intros (pre & body & post & _ & _ & -> & Hzero & Hmin)%extract_Some.
  destruct body as [|c body]; [done|].
  rewrite extract_at_brace.
  pose proof (scan_lex (String c body) 1 lex_inside ltac:(done)) as Hscan.
  destruct (scan (String c body) 1 _ _ _) as [j|].
  - destruct Hscan as (p & q & Hpq & Hp & -> & Hz & _).
    destruct q as [|x q].
    + rewrite append_nil_r in Hpq. subst p. f_equal.
      replace (1 + String.length (String c body) - 1 + 1 - 0)%nat
        with (String.length (String "{" (String c body))) by (simpl; lia).
      pose proof (substring_append "" (String "{" (String c body)) "") as Hs.
      rewrite append_nil, append_nil_r in Hs. exact Hs.
    + exfalso. apply (Hmin (String "{" p) (String x q)); try done.
      by rewrite append_cons, <- Hpq.
  - exfalso. apply (Hscan (String c body) ""); [by rewrite append_nil_r | done |].
    exact Hzero.
Qed.

Lemma extract_first_json_idempotent_witness :
  _extract_first_json "so: {[1, 2]} and {3}" = Some "{[1, 2]}" /\
  _extract_first_json "{[1, 2]}" = Some "{[1, 2]}".
Proof.
  split; [reflexivity|].
  apply (extract_first_json_idempotent "so: {[1, 2]} and {3}"). reflexivity.
Defined.

(** *** Lines *)

Lemma split_lines_nonempty s : split_lines s ≠ [].
Proof.
  destruct s as [|c s]; [done|]. simpl.
  destruct (Ascii.eqb c newline); [done|]. by destruct (split_lines s).
Qed.

Lemma join_lines_cons line lines :
  lines ≠ [] ->
  join_lines (line :: lines) = line ++ String newline (join_lines lines).
Proof. by destruct lines. Qed.

(** Splitting into lines and joining them again gives the text back. *)
Lemma join_split_lines s : join_lines (split_lines s) = s.
Proof.
  induction s as [|c s IH]; [done|]. cbn [split_lines].
  destruct (Ascii.eqb_spec c newline) as [->|Hc].
  - rewrite join_lines_cons by apply split_lines_nonempty.
    by rewrite IH.
  - pose proof (split_lines_nonempty s) as Hne.
    destruct (split_lines s) as [|line lines]; [done|].
    destruct lines as [|line' lines].
    + simpl in *. by rewrite IH.
    + rewrite join_lines_cons by done. rewrite join_lines_cons in IH by done.
      by rewrite append_cons, IH.
Qed.

Lemma join_lines_drop lines k :
  (k < length lines)%nat ->
  exists pre, join_lines lines = pre ++ join_lines (drop k lines).
Proof.
  revert lines. induction k as [|k IH]; intros lines Hk.
  - by exists "".
  - destruct lines as [|line lines]; [simpl in Hk; lia|].
    simpl in Hk. destruct (IH lines ltac:(lia)) as [pre Hpre].
    exists (line ++ String newline pre).
    rewrite join_lines_cons by (intros ->; simpl in Hk; lia).
    cbn [drop]. by rewrite Hpre, append_assoc3, append_cons.
Qed.

Lemma find_json_start_lt lines k :
  find_json_start lines = Some k -> (k < length lines)%nat.
Proof.
  revert k. induction lines as [|line lines IH]; intros k; simpl; [done|].
  destruct (startswith (strip line) "{"); [intros [= <-]; lia|].
  destruct (find_json_start lines) as [k'|]; [|done].
  intros [= <-]. specialize (IH k' eq_refl). lia.
Qed.

(** The cleaned text is the response from some point on. *)
Lemma cleaned_text_suffix resp : exists pre, resp = pre ++ cleaned_text resp.
Proof.
  unfold cleaned_text.
  destruct (find_json_start (split_lines resp)) as [k|] eqn:Hk.
  - apply find_json_start_lt in Hk.
    destruct (join_lines_drop _ k Hk) as [pre Hpre].
    exists pre. by rewrite <- Hpre, join_split_lines.
  - by exists "".
Qed.

Lemma count_char_append c (a b : string) :
  count_char c (a ++ b) = count_char c a + count_char c b.
Proof.
  induction a as [|x a IH]; norm_append; simpl; [done|]. rewrite IH. lia.
Qed.

Lemma count_char_repeat c x (n : Z) :
  count_char c (string_repeat x n) = if Ascii.eqb x c then Z.max 0 n else 0.
Proof.
  unfold string_repeat.
  assert (H : forall k : nat,
    count_char c (string_of_list_ascii (replicate k x))
    = if Ascii.eqb x c then Z.of_nat k else 0).
  { induction k as [|k IH]; simpl; [by destruct (Ascii.eqb x c)|].
    rewrite IH. destruct (Ascii.eqb x c); lia. }
  rewrite H. destruct (Ascii.eqb x c); lia.
Qed.

Lemma loads_dict_Some json_loads text d :
  loads_dict json_loads text = Ok (Some d) <-> json_loads text = Ok (VDict d).
Proof.
  unfold loads_dict. destruct (json_loads text) as [[]|[]]; split; congruence.
Qed.

Lemma repair_Some json_loads json_str d :
  _repair_incomplete_json json_loads json_str = Ok (Some d) ->
  let m := opening_brackets json_str - closing_brackets json_str in
  1 <= m /\
  json_loads (json_str ++ string_repeat "}" m ++ string_repeat "]" (m / 2))
  = Ok (VDict d).
Proof.
  cbv zeta. unfold _repair_incomplete_json.
  fold (opening_brackets json_str) (closing_brackets json_str).
  destruct (Z.ltb_spec (closing_brackets json_str)
                       (opening_brackets json_str)); [|done].
  intros Hd%loads_dict_Some. split; [lia|done].
Qed.

(** X11. [_repair_incomplete_json] consults the parser only when the text
    has more opening than closing brackets, m more; the text it then
    submits is the input followed by m closing braces and m // 2 closing
    square brackets, which has m // 2 more closing than opening brackets.
    A dict it returns is the parser's reading of that text. *)
Theorem repair_appends_closers (json_loads : string -> Result pyval)
    (json_str : string) :
  let m := opening_brackets json_str - closing_brackets json_str in
  let repaired :=
    json_str ++ string_repeat "}" m ++ string_repeat "]" (m / 2) in
  (m <= 0 -> _repair_incomplete_json json_loads json_str = Ok None) /\
  (1 <= m ->
   _repair_incomplete_json json_loads json_str = loads_dict json_loads repaired /\
   closing_brackets repaired - opening_brackets repaired = m / 2) /\
  (forall d,
     _repair_incomplete_json json_loads json_str = Ok (Some d) ->
     1 <= m /\ json_loads repaired = Ok (VDict d)).
Proof.
  cbv zeta. unfold _repair_incomplete_json.
  fold (opening_brackets json_str) (closing_brackets json_str).
  set (m := opening_brackets json_str - closing_brackets json_str).
  assert (Hm2 : 1 <= m -> 0 <= m / 2) by (intros; apply Z.div_pos; lia).
  split; [|split].
  - intros Hm. destruct (Z.ltb_spec (closing_brackets json_str)
                                    (opening_brackets json_str)); [lia|done].
  - intros Hm. destruct (Z.ltb_spec (closing_brackets json_str)
                                    (opening_brackets json_str)); [|lia].
    split; [done|]. specialize (Hm2 Hm).
    unfold closing_brackets, opening_brackets.
    rewrite !count_char_append, !count_char_repeat. simpl.
    unfold closing_brackets, opening_brackets in m. lia.
  - intros d. destruct (Z.ltb_spec (closing_brackets json_str)
                                   (opening_brackets json_str)); [|done].
    intros Hd%loads_dict_Some. split; [lia|done].
Qed.

(** X12. [_try_parse_response] returns no dict for a response that is
    empty or only whitespace, and it never makes one up: a dict it returns
    is what [json.loads] decodes from the response taken from one of its
    line starts on (the cleaned text), from the first bracket-balanced span
    of the cleaned text, or from the cleaned text with closing brackets
    appended, and in the last case the dict is not empty. *)
Theorem try_parse_response_provenance (json_loads : string -> Result pyval)
    (resp_text : string) :
  (blank resp_text = true -> _try_parse_response json_loads resp_text = Ok None) /\
  (forall d,
     _try_parse_response json_loads resp_text = Ok (Some d) ->
     blank resp_text = false /\
     exists pre text,
       resp_text = pre ++ cleaned_text resp_text /\
       json_loads text = Ok (VDict d) /\
       (text = cleaned_text resp_text \/
        _extract_first_json (cleaned_text resp_text) = Some text \/
        d ≠ []%list /\
        let m := opening_brackets (cleaned_text resp_text)
                 - closing_brackets (cleaned_text resp_text) in
        1 <= m /\
        text = cleaned_text resp_text ++ string_repeat "}" m
                 ++ string_repeat "]" (m / 2))).
Proof.
  unfold _try_parse_response, blank. split.
  - intros ->. by rewrite orb_true_r.
  - intros d.
    destruct (string_empty resp_text) eqn:He; [done|].
    destruct (string_empty (strip resp_text)) eqn:Hs; [done|]. simpl.
    intros Hrun. split; [done|].
    destruct (cleaned_text_suffix resp_text) as [pre Hpre].
    set (cleaned := cleaned_text resp_text) in *.
    exists pre.
    destruct (loads_dict json_loads cleaned) as [[d1|]|e1] eqn:H1;
      simpl in Hrun; [| |done].
    { injection Hrun as ->. apply loads_dict_Some in H1.
      exists cleaned. split; [done|]. split; [done|]. by left. }
    destruct (_extract_first_json cleaned) as [span|] eqn:Hx.
    + destruct (string_empty span) eqn:Hspan.
      * simpl in Hrun.
        destruct (_repair_incomplete_json json_loads cleaned)
          as [[[|entry entries]|]|e3] eqn:H3; simpl in Hrun; try done.
        injection Hrun as <-.
        destruct (repair_Some json_loads cleaned _ H3) as [Hm Hd].
        eexists. split; [done|]. split; [exact Hd|]. right. right. done.
      * destruct (loads_dict json_loads span) as [[d2|]|e2] eqn:H2;
          simpl in Hrun; [| |done].
        { injection Hrun as ->. apply loads_dict_Some in H2.
          exists span. split; [done|]. split; [done|]. right. by left. }
        destruct (_repair_incomplete_json json_loads cleaned)
          as [[[|entry entries]|]|e3] eqn:H3; simpl in Hrun; try done.
        injection Hrun as <-.
        destruct (repair_Some json_loads cleaned _ H3) as [Hm Hd].
        eexists. split; [done|]. split; [exact Hd|]. right. right. done.
    + simpl in Hrun.
      destruct (_repair_incomplete_json json_loads cleaned)
        as [[[|entry entries]|]|e3] eqn:H3; simpl in Hrun; try done.
      injection Hrun as <-.
      destruct (repair_Some json_loads cleaned _ H3) as [Hm Hd].
      eexists. split; [done|]. split; [exact Hd|]. right. right. done.
Qed.

Lemma split_lines_append prose rest :
  split_lines (prose ++ String newline rest)
  = (split_lines prose ++ split_lines rest)%list.
Proof.
  induction prose as [|c prose IH]; norm_append.
  - done.
  - cbn [split_lines]. rewrite IH.
    destruct (Ascii.eqb c newline); [done|].
    pose proof (split_lines_nonempty prose) as Hne.
    by destruct (split_lines prose).
Qed.

Lemma find_json_start_app lines1 lines2 :
  Forall (fun line => startswith (strip line) "{" = false) lines1 ->
  find_json_start (lines1 ++ lines2)
  = (fun k => (length lines1 + k)%nat) <$> find_json_start lines2.
Proof.
  induction 1 as [|line lines1 Hline _ IH]; simpl.
  - by destruct (find_json_start lines2).
  - rewrite Hline, IH. by destruct (find_json_start lines2).
Qed.

Lemma split_lines_head c s :
  Ascii.eqb c newline = false ->
  exists line lines, split_lines (String c s) = String c line :: lines.
Proof.
  intros Hc. cbn [split_lines]. rewrite Hc.
  destruct (split_lines s) as [|line lines]; eauto.
Qed.

Lemma find_json_start_brace s :
  find_json_start (split_lines (String "{" s)) = Some 0%nat.
Proof.
  destruct (split_lines_head "{" s eq_refl) as (line & lines & ->).
  cbn [find_json_start]. unfold strip. cbn [lstrip].
  change (isspace "{") with false. cbv iota. cbn [rstrip].
  change (isspace "{") with false. cbn [andb]. unfold startswith.
  change (String "{" (rstrip line)) with ("{" +:+ rstrip line).
  by rewrite prefix_self.
Qed.

Lemma cleaned_text_after_prose lead s :
  lead = "" \/
  (exists prose, lead = prose ++ String newline "" /\
     Forall (fun line => startswith (strip line) "{" = false)
            (split_lines prose)) ->
  cleaned_text (lead ++ String "{" s) = String "{" s.
Proof.
  unfold cleaned_text. intros [->|(prose & -> & Hprose)].
  - rewrite append_nil, find_json_start_brace. cbn [drop]. apply join_split_lines.
  - rewrite append_assoc3. norm_append.
    rewrite split_lines_append, find_json_start_app by done.
    rewrite find_json_start_brace. cbn [fmap option_fmap option_map].
    rewrite Nat.add_0_r, drop_app_length. apply join_split_lines.
Qed.

Lemma rstrip_keeps a c b :
  isspace c = false -> string_empty (rstrip (a ++ String c b)) = false.
Proof.
  intros Hc. induction a as [|x a IH]; norm_append; cbn [rstrip].
  - by rewrite Hc.
  - by rewrite IH, andb_false_r.
Qed.

Lemma lstrip_keeps a c b :
  isspace c = false -> exists a', lstrip (a ++ String c b) = a' ++ String c b.
Proof.
  intros Hc. induction a as [|x a IH]; norm_append; cbn [lstrip].
  - rewrite Hc. by exists "".
  - destruct (isspace x); [exact IH|]. by exists (String x a).
Qed.

Lemma not_blank a c b : isspace c = false -> blank (a ++ String c b) = false.
Proof.
  intros Hc. unfold blank, strip.
  destruct (lstrip_keeps a c b Hc) as [a' ->]. by apply rstrip_keeps.
Qed.

(** X13. Text around the object is tolerated: when the response is
    narrative lines none of which starts with a brace, then (at a line
    start) a balanced object that [json.loads] decodes to a dict, then any
    trailing text that [json.loads] rejects together with the object,
    [_try_parse_response] returns that dict. *)
Theorem try_parse_response_tolerates_chatter
    (json_loads : string -> Result pyval) (lead obj trailing : string)
    (d : list (string * pyval)) :
  lead = "" \/
  (exists prose, lead = prose ++ String newline "" /\
     Forall (fun line => startswith (strip line) "{" = false)
            (split_lines prose)) ->
  balanced_object obj ->
  json_loads obj = Ok (VDict d) ->
  trailing = "" \/
  (exists msg, json_loads (obj ++ trailing) = Raise (ValueError msg)) ->
  _try_parse_response json_loads (lead ++ obj ++ trailing) = Ok (Some d).
Proof.
  intros Hlead Hobj Hd Htrail.
  pose proof Hobj as (b & Hb & Hshape).
  assert (Hcleaned : cleaned_text (lead ++ obj ++ trailing) = obj ++ trailing).
  { rewrite Hshape. norm_append. by apply cleaned_text_after_prose. }
  assert (Hblank : blank (lead ++ obj ++ trailing) = false).
  { rewrite Hshape. norm_append. by apply not_blank. }
  unfold _try_parse_response.
  assert (Hne : string_empty (lead ++ obj ++ trailing) = false).
  { rewrite Hshape. norm_append. by destruct lead. }
  unfold blank in Hblank. rewrite Hne, Hblank, Hcleaned. cbn [orb].
  destruct Htrail as [->|[msg Hbad]].
  - rewrite append_nil_r.
    assert (H1 : loads_dict json_loads obj = Ok (Some d))
      by (by apply loads_dict_Some).
    by rewrite H1.
  - assert (H1 : loads_dict json_loads (obj ++ trailing) = Ok None)
      by (unfold loads_dict; by rewrite Hbad).
    rewrite H1. cbn [mbind Result_bind].
    pose proof (extract_balanced "" obj trailing eq_refl Hobj) as Hx.
    rewrite append_nil in Hx. rewrite Hx.
    assert (Hobj_ne : string_empty obj = false) by (by rewrite Hshape).
    rewrite Hobj_ne.
    assert (H2 : loads_dict json_loads obj = Ok (Some d))
      by (by apply loads_dict_Some).
    by rewrite H2.
Qed.

(** A parser that knows one object only. *)
Definition loads_sample (text : string) : Result pyval :=
  if bool_decide (text = sample_object)
  then Ok (VDict [("a", VStr "x")])
  else Raise (ValueError "Expecting value").

Lemma try_parse_response_tolerates_chatter_witness :
  _try_parse_response loads_sample
    (("Let me think." ++ String newline "") ++ sample_object ++ " Done.")
  = Ok (Some [("a", VStr "x")]).
Proof.
  apply try_parse_response_tolerates_chatter.
  - right. exists "Let me think.". split; [reflexivity|].
    by repeat constructor.
  - apply sample_object_balanced.
  - reflexivity.
  - right. eexists. reflexivity.
Defined.

End parsing_more.

(** ** The table store: headers *)

Section headers.

Local Open Scope string_scope.

Ltac norm_append := rewrite ?append_cons, ?append_nil.

(** The two headers of slot [i] of a language, in the naming of
    [update_row_with_qas]. *)
Lemma slot_headers lang (k : nat) :
  ["q_" ++ lang ++ "_" ++ str_of_int (Z.of_nat k);
   "a_" ++ lang ++ "_" ++ str_of_int (Z.of_nat k)]
  = [col_name ("q_" ++ lang) k; col_name ("a_" ++ lang) k].
Proof. unfold col_name. by rewrite !append_assoc3. Qed.

Lemma flat_map_ext_in {A B} (f g : A -> list B) (l : list A) :
  (forall x, x ∈ l -> f x = g x) -> flat_map f l = flat_map g l.
Proof.
  induction l as [|x l IH]; intros H; simpl; [done|].
  rewrite H by left. rewrite IH; [done|]. intros y Hy. apply H. by right.
Qed.

(** [headers_for_qa_count] in terms of nat slots and [col_name]. *)
Lemma headers_for_qa_count_alt n :
  headers_for_qa_count n =
  app ["sanskrit"; "english"; "tags"]
    (flat_map (fun lang =>
       flat_map (fun k => [col_name ("q_" ++ lang) k; col_name ("a_" ++ lang) k])
                (seq 1 (Z.to_nat n)))
       ["en"; "hi"; "sa"]).
Proof.
  unfold headers_for_qa_count, range1. f_equal.
  apply flat_map_ext_in. intros lang _.
  induction (seq 1 (Z.to_nat n)) as [|k ks IH]; [done|].
  cbn [map flat_map]. by rewrite IH, slot_headers.
Qed.

Lemma elem_of_flat_map {A B} (f : A -> list B) (l : list A) (y : B) :
  y ∈ flat_map f l <-> exists x, x ∈ l /\ y ∈ f x.
Proof.
  rewrite list_elem_of_In, in_flat_map. split; intros (x & Hx & Hy); exists x.
  - split; by apply list_elem_of_In.
  - split; by apply list_elem_of_In.
Qed.

Lemma NoDup_flat_map {A B} (f : A -> list B) (l : list A) :
  NoDup l ->
  (forall x, x ∈ l -> NoDup (f x)) ->
  (forall x y z, x ∈ l -> y ∈ l -> z ∈ f x -> z ∈ f y -> x = y) ->
  NoDup (flat_map f l).
Proof.
  induction 1 as [|x l Hx Hl IH]; intros Hf Hdisj; simpl; [constructor|].
  apply NoDup_app. split; [apply Hf; left|]. split.
  - intros z Hz (y & Hy & Hzy)%elem_of_flat_map.
    assert (x = y) by (apply (Hdisj x y z); [left | by right | done | done]).
    by subst y.
  - apply IH.
    + intros y Hy. apply Hf. by right.
    + intros y1 y2 z H1 H2. apply Hdisj; by right.
Qed.

Lemma length_flat_map_const {A B} (f : A -> list B) (l : list A) (m : nat) :
  (forall x, length (f x) = m) -> length (flat_map f l) = (length l * m)%nat.
Proof.
  intros Hf. induction l as [|x l IH]; simpl; [done|].
  rewrite length_app, Hf, IH. lia.
Qed.

Lemma col_name_head key k : exists rest, col_name key k = key ++ String "_" rest.
Proof. by eexists. Qed.

Lemma slot_ne lang lang' k k' : col_name ("q_" ++ lang) k ≠ col_name ("a_" ++ lang') k'.
Proof. unfold col_name. norm_append. done. Qed.

Lemma language_headers_NoDup lang (n : nat) :
  NoDup (flat_map (fun k => [col_name ("q_" ++ lang) k; col_name ("a_" ++ lang) k])
                  (seq 1 n)).
Proof.
  apply NoDup_flat_map.
  - apply NoDup_seq.
  - intros k _. apply NoDup_cons. split; [|apply NoDup_singleton].
    rewrite list_elem_of_singleton. apply slot_ne.
  - intros k k' z _ _ Hz Hz'.
    rewrite !elem_of_cons in Hz, Hz'.
    destruct Hz as [->|[->|?%elem_of_nil]], Hz' as [Hz'|[Hz'|?%elem_of_nil]];
      try done.
    + by apply col_name_inj in Hz' as [_ ->].
    + by apply col_name_inj in Hz' as [_ ->].
Qed.

Lemma elem_of_language_headers lang (n : nat) h :
  h ∈ flat_map (fun k => [col_name ("q_" ++ lang) k; col_name ("a_" ++ lang) k])
               (seq 1 n) <->
  exists k, (1 <= k <= n)%nat /\
            (h = col_name ("q_" ++ lang) k \/ h = col_name ("a_" ++ lang) k).
Proof.
  rewrite elem_of_flat_map. split.
  - intros (k & Hk%elem_of_seq & Hh).
    rewrite !elem_of_cons in Hh.
    exists k. split; [lia|]. destruct Hh as [->|[->|?%elem_of_nil]]; tauto.
  - intros (k & Hk & Hh). exists k. split; [apply elem_of_seq; lia|].
    destruct Hh as [->| ->]; [left | right; left].
Qed.

(** The positional columns of the six generation keys, slots 1 to [n]. *)
Lemma elem_of_headers n h :
  h ∈ headers_for_qa_count n <->
  h ∈ ["sanskrit"; "english"; "tags"] \/
  exists key k, key ∈ required /\ (1 <= k <= Z.to_nat n)%nat /\ h = col_name key k.
Proof.
  rewrite headers_for_qa_count_alt, elem_of_app, elem_of_flat_map.
  apply or_iff_compat_l. split.
  - intros (lang & Hlang & (k & Hk & Hh)%elem_of_language_headers).
    apply list_elem_of_In in Hlang. simpl in Hlang.
    destruct Hlang as [<-|[<-|[<-|[]]]];
      destruct Hh as [->| ->]; eexists _, k;
      (split; [|split; [exact Hk | reflexivity]]);
      apply list_elem_of_In; simpl; tauto.
  - intros (key & k & Hkey & Hk & ->).
    apply list_elem_of_In in Hkey. simpl in Hkey.
    destruct Hkey as [<-|[<-|[<-|[<-|[<-|[<-|[]]]]]]].
    + exists "en". split; [left|]. apply elem_of_language_headers. eauto.
    + exists "en". split; [left|]. apply elem_of_language_headers. eauto.
    + exists "hi". split; [right; left|]. apply elem_of_language_headers. eauto.
    + exists "hi". split; [right; left|]. apply elem_of_language_headers. eauto.
    + exists "sa". split; [do 2 right; left|]. apply elem_of_language_headers. eauto.
    + exists "sa". split; [do 2 right; left|]. apply elem_of_language_headers. eauto.
Qed.

Lemma headers_length n :
  length (headers_for_qa_count n) = (3 + 6 * Z.to_nat n)%nat.
Proof.
  rewrite headers_for_qa_count_alt, length_app. cbn [flat_map].
  rewrite !length_app.
  rewrite !(length_flat_map_const _ _ 2) by done.
  rewrite length_seq. simpl. lia.
Qed.

Lemma headers_NoDup n : NoDup (headers_for_qa_count n).
Proof.
  rewrite headers_for_qa_count_alt. apply NoDup_app. split; [|split].
  - apply (bool_decide_unpack _). by vm_compute.
  - intros h Hbase (lang & _ & (k & _ & Hh)%elem_of_language_headers)%elem_of_flat_map.
    apply list_elem_of_In in Hbase. simpl in Hbase.
    unfold col_name in Hh. rewrite !append_cons in Hh.
    destruct Hbase as [<-|[<-|[<-|[]]]]; destruct Hh as [Hh|Hh]; discriminate Hh.
  - apply NoDup_flat_map.
    + apply (bool_decide_unpack _). by vm_compute.
    + intros lang _. apply language_headers_NoDup.
    + intros lang lang' h _ _
        (k & _ & Hh)%elem_of_language_headers
        (k' & _ & Hh')%elem_of_language_headers.
      destruct Hh as [->| ->], Hh' as [Hh'|Hh'].
      * apply col_name_inj in Hh' as [Hl _].
        rewrite !append_cons, !append_nil in Hl. by injection Hl.
      * by apply slot_ne in Hh'.
      * symmetry in Hh'. by apply slot_ne in Hh'.
      * apply col_name_inj in Hh' as [Hl _].
        rewrite !append_cons, !append_nil in Hl. by injection Hl.
Qed.

(** X14. [headers_for_qa_count(n)] is the three base headers followed by
    the positional columns of the six generation keys for the slots 1 to
    n, named as [update_row_with_qas] names them; it has 3 + 6n headers
    (3 when n <= 0), all distinct. *)
Theorem headers_for_qa_count_spec (n : Z) :
  length (headers_for_qa_count n) = (3 + 6 * Z.to_nat n)%nat /\
  NoDup (headers_for_qa_count n) /\
  take 3 (headers_for_qa_count n) = ["sanskrit"; "english"; "tags"] /\
  (forall h, h ∈ headers_for_qa_count n <->
     h ∈ ["sanskrit"; "english"; "tags"] \/
     exists key k, key ∈ required /\ (1 <= k <= Z.to_nat n)%nat /\
                   h = col_name key k).
Proof.
  split; [apply headers_length|]. split; [apply headers_NoDup|].
  split; [done | apply elem_of_headers].
Qed.

End headers.

(** ** The table store: [ensure_headers] *)

Section ensure.

Lemma ensure_column_new_columns d col :
  col ∉ columns d -> columns (ensure_column d col) = columns d ++ [col].
Proof.
  intros H. apply has_column_false in H.
  unfold ensure_column, set_column. by rewrite H.
Qed.

Lemma ensure_column_old d col : col ∈ columns d -> ensure_column d col = d.
Proof. intros H. apply has_column_true in H. unfold ensure_column. by rewrite H. Qed.

Lemma cell_ensure_column_new d col i :
  col ∉ columns d -> (i < length (rows d))%nat ->
  cell (ensure_column d col) i col = Some EmptyString.
Proof.
  intros H Hi. apply has_column_false in H.
  unfold ensure_column, set_column, cell. rewrite H. simpl.
  rewrite list_lookup_fmap.
  destruct (lookup_lt_is_Some_2 (rows d) i Hi) as [r ->]. simpl.
  by rewrite lookup_insert_eq.
Qed.

Lemma missing_headers_snoc cols h hs :
  h ∉ hs -> missing_headers (cols ++ [h]) hs = missing_headers cols hs.
Proof.
  intros Hh. unfold missing_headers. induction hs as [|x hs IH]; [done|].
  apply not_elem_of_cons in Hh as [Hne Hh]. simpl. rewrite IH by done.
  assert (Hx : bool_decide (x ∈ cols ++ [h]) = bool_decide (x ∈ cols)).
  { apply bool_decide_ext. rewrite elem_of_app, list_elem_of_singleton.
    split; [intros [?|?]; [done|congruence] | by left]. }
  by rewrite Hx.
Qed.

Lemma ensure_columns_spec hs d :
  NoDup hs ->
  let d' := fold_left ensure_column hs d in
  columns d' = columns d ++ missing_headers (columns d) hs /\
  length (rows d') = length (rows d) /\
  (forall i c, c ∈ columns d -> cell d' i c = cell d i c) /\
  (forall i c, (i < length (rows d))%nat -> c ∈ hs -> c ∉ columns d ->
     cell d' i c = Some EmptyString).
Proof.
  intros Hnd. revert d. induction Hnd as [|h hs Hh Hnd IH]; intros d; cbv zeta.
  - simpl. rewrite app_nil_r. split; [done|]. split; [done|]. split; [done|].
    intros i c _ Hc. by apply elem_of_nil in Hc.
  - cbn [fold_left]. specialize (IH (ensure_column d h)). cbv zeta in IH.
    destruct IH as (Hcols & Hrows & Hold & Hnew).
    rewrite Hrows, ensure_column_rows.
    destruct (decide (h ∈ columns d)) as [Hin|Hout].
    + rewrite ensure_column_old in * by done.
      split.
      { rewrite Hcols. unfold missing_headers. simpl.
        by rewrite bool_decide_eq_true_2. }
      split; [done|]. split; [done|].
      intros i c Hi Hc Hcd. apply Hnew; [done| |done].
      apply elem_of_cons in Hc as [->|Hc]; done.
    + rewrite ensure_column_new_columns in Hcols by done.
      split.
      { rewrite Hcols, missing_headers_snoc by done.
        unfold missing_headers. simpl. rewrite bool_decide_eq_false_2 by done.
        simpl. by rewrite <- app_assoc. }
      split; [done|]. split.
      * intros i c Hc. rewrite Hold.
        -- apply cell_ensure_column. by right.
        -- apply ensure_column_columns. by left.
      * intros i c Hi Hc Hcd. apply elem_of_cons in Hc as [->|Hc].
        -- rewrite Hold by (apply ensure_column_columns; by right).
           by apply cell_ensure_column_new.
        -- apply Hnew; [by rewrite ensure_column_rows | done |].
           rewrite ensure_column_columns. intros [?| ->]; done.
Qed.

Lemma ensure_columns_present hs d :
  (forall h, h ∈ hs -> h ∈ columns d) -> fold_left ensure_column hs d = d.
Proof.
  induction hs as [|h hs IH]; intros H; simpl; [done|].
  rewrite ensure_column_old by (apply H; left).
  apply IH. intros h' Hh'. apply H. by right.
Qed.

Lemma persist_run st fs :
  fs_run (persist st) fs !! csv_path st = Some (csv_records (df st)).
Proof.
  destruct (persist_atomic st fs (length (persist st))) as [_ H].
  rewrite firstn_all in H. by apply H.
Qed.

(** X15. [ensure_headers(count)] appends to the columns, in header order,
    exactly the headers of [headers_for_qa_count(count)] that the table
    lacks; it keeps the number of rows and every cell of the old columns,
    fills the new columns with the empty string in every row, and leaves
    the new table in the file. *)
Theorem ensure_headers_adds_missing_columns (st : CSVStorage) (count : Z) :
  let st' := fst (ensure_headers st count) in
  csv_path st' = csv_path st /\
  columns (df st')
  = columns (df st)
    ++ missing_headers (columns (df st)) (headers_for_qa_count count) /\
  length (rows (df st')) = length (rows (df st)) /\
  (forall i c, c ∈ columns (df st) -> cell (df st') i c = cell (df st) i c) /\
  (forall i c, (i < length (rows (df st)))%nat ->
     c ∈ headers_for_qa_count count -> c ∉ columns (df st) ->
     cell (df st') i c = Some EmptyString) /\
  (forall fs, fs_run (snd (ensure_headers st count)) fs !! csv_path st
              = Some (csv_records (df st'))).
Proof.
  cbv zeta. unfold ensure_headers. cbn [fst snd csv_path df].
  destruct (ensure_columns_spec (headers_for_qa_count count) (df st))
    as (Hcols & Hrows & Hold & Hnew).
  { apply headers_NoDup. }
  split; [done|]. split; [done|]. split; [done|]. split; [done|].
  split; [done|]. intros fs.
  match goal with |- context [persist ?s] => apply (persist_run s) end.
Qed.

Lemma ensured_header_present d n h :
  h ∈ headers_for_qa_count n ->
  h ∈ columns (fold_left ensure_column (headers_for_qa_count n) d).
Proof.
  intros Hh.
  destruct (ensure_columns_spec (headers_for_qa_count n) d) as (Hcols & _).
  { apply headers_NoDup. }
  rewrite Hcols, elem_of_app.
  destruct (decide (h ∈ columns d)) as [?|Hout]; [by left|].
  right. unfold missing_headers.
  apply list_elem_of_In, filter_In. split; [by apply list_elem_of_In|].
  by rewrite bool_decide_eq_false_2.
Qed.

(** X16. Ensuring headers is idempotent and monotone: once the headers for
    [n] slots are ensured, ensuring the headers for any [m <= n] leaves
    the table as it is (the file is rewritten with the same content). *)
Theorem ensure_headers_is_monotone (st : CSVStorage) (n m : Z) :
  m <= n ->
  let st1 := fst (ensure_headers st n) in
  let '(st2, ops) := ensure_headers st1 m in
  st2 = st1 /\
  forall fs, fs_run ops fs !! csv_path st = Some (csv_records (df st1)).
Proof.
  intros Hmn. cbv zeta. unfold ensure_headers. cbn [fst snd csv_path df].
  set (d1 := fold_left ensure_column (headers_for_qa_count n) (df st)) in *.
  assert (Hsame : fold_left ensure_column (headers_for_qa_count m) d1 = d1).
  { apply ensure_columns_present. intros h Hh.
    apply ensured_header_present.
    apply elem_of_headers in Hh. apply elem_of_headers.
    destruct Hh as [?|(key & k & Hkey & Hk & ->)]; [by left|].
    right. exists key, k. split; [done|]. split; [lia|done]. }
  rewrite Hsame. split; [done|]. intros fs.
  apply (persist_run {| csv_path := csv_path st; df := d1 |}).
Qed.

Lemma ensure_headers_is_monotone_witness :
  let st1 := fst (ensure_headers store_saved 2) in
  fst (ensure_headers st1 1) = st1.
Proof.
  cbv zeta.
  pose proof (ensure_headers_is_monotone store_saved 2 1 ltac:(lia)) as H.
  cbv zeta in H.
  destruct (ensure_headers (fst (ensure_headers store_saved 2)) 1) as [st2 ops].
  exact (proj1 H).
Defined.

End ensure.

(** ** The table store: updates composed *)

Section update_more.

Variable repr : pyval -> string.

Lemma put_old idx d w :
  fst w ∈ columns d ->
  columns (put idx d w) = columns d /\
  forall j, j ≠ idx -> rows (put idx d w) !! j = rows d !! j.
Proof.
  intros Hw. unfold put. rewrite ensure_column_old by done.
  split; [done|]. intros j Hj. unfold at_set. simpl.
  by rewrite list_lookup_alter_ne.
Qed.

(** Writes to columns that exist leave the columns and the other rows
    exactly as they are. *)
Lemma fold_put_old idx ws d :
  (forall w, w ∈ ws -> fst w ∈ columns d) ->
  columns (fold_left (put idx) ws d) = columns d /\
  forall j, j ≠ idx -> rows (fold_left (put idx) ws d) !! j = rows d !! j.
Proof.
  revert d. induction ws as [|w ws IH]; intros d Hws; [done|].
  cbn [fold_left].
  destruct (put_old idx d w) as [Hc Hr]; [apply Hws; left|].
  destruct (IH (put idx d w)) as [Hc' Hr'].
  { intros w' Hw'. rewrite Hc. apply Hws. by right. }
  split; [by rewrite Hc', Hc|]. intros j Hj. by rewrite Hr', Hr.
Qed.

(** A column that the writes create holds the empty string in the other
    rows. *)
Lemma fold_put_new idx ws d j c :
  j ≠ idx -> (j < length (rows d))%nat ->
  c ∈ columns (fold_left (put idx) ws d) -> c ∉ columns d ->
  cell (fold_left (put idx) ws d) j c = Some EmptyString.
Proof.
  intros Hj Hlt. induction ws as [|w ws IH] using rev_ind; [done|].
  rewrite fold_left_app. cbn [fold_left].
  set (d1 := fold_left (put idx) ws d) in *.
  intros Hc Hcd.
  destruct (decide (c ∈ columns d1)) as [Hin|Hout].
  - rewrite cell_put_other_row by done. by apply IH.
  - apply put_columns in Hc as [?| ->]; [done|].
    unfold put. rewrite cell_at_set_ne by (by left).
    apply cell_ensure_column_new; [done|].
    destruct (fold_put idx ws d) as (Hrows & _). fold d1 in Hrows. lia.
Qed.

Definition update_writes (payload : list (string * pyval)) (d : DataFrame)
  : list (string * string) :=
  clear_writes d ++ tag_writes repr payload ++ qa_writes repr payload.

Lemma last_write_update payload d c :
  last_write c (update_writes payload d) =
  match last_write c (qa_writes repr payload) with
  | Some v => Some v
  | None =>
      match last_write c (tag_writes repr payload) with
      | Some v => Some v
      | None => last_write c (clear_writes d)
      end
  end.
Proof.
  unfold update_writes. rewrite !last_write_app.
  by destruct (last_write c (qa_writes repr payload)).
Qed.

Lemma frame_eq d1 d2 :
  columns d1 = columns d2 -> rows d1 = rows d2 -> d1 = d2.
Proof. destruct d1, d2. simpl. by intros -> ->. Qed.

(** A second pass of the same writes changes nothing. *)
Lemma update_frame_twice i payload d :
  (i < length (rows d))%nat ->
  let d1 := fold_left (put i) (update_writes payload d) d in
  fold_left (put i) (update_writes payload d1) d1 = d1.
Proof.
  intros Hi d1.
  destruct (fold_put i (update_writes payload d) d) as (Hrows & Hcols & _ & Hcell).
  fold d1 in Hrows, Hcols, Hcell. specialize (fun c => Hcell c Hi).
  assert (Hsub : forall w, w ∈ update_writes payload d1 -> fst w ∈ columns d1).
  { intros [c v] Hw. simpl. unfold update_writes in Hw.
    rewrite !elem_of_app in Hw. destruct Hw as [Hw|[Hw|Hw]].
    - by apply elem_of_clear_writes in Hw as [? _].
    - apply Hcols. right. unfold update_writes.
      rewrite !map_app, !elem_of_app. right. left.
      apply elem_of_map_fst. by exists v.
    - apply Hcols. right. unfold update_writes.
      rewrite !map_app, !elem_of_app. right. right.
      apply elem_of_map_fst. by exists v. }
  destruct (fold_put_old i _ d1 Hsub) as [Hc2 Hr2].
  destruct (fold_put i (update_writes payload d1) d1) as (Hrows2 & _ & _ & Hcell2).
  set (d2 := fold_left (put i) (update_writes payload d1) d1) in *.
  assert (Hi1 : (i < length (rows d1))%nat) by lia.
  specialize (fun c => Hcell2 c Hi1).
  apply frame_eq; [done|]. apply list_eq. intros j.
  destruct (decide (j = i)) as [->|Hj]; [|by apply Hr2].
  destruct (lookup_lt_is_Some_2 (rows d1) i Hi1) as [r1 Hr1].
  destruct (lookup_lt_is_Some_2 (rows d2) i ltac:(lia)) as [r2 Hr2i].
  rewrite Hr1, Hr2i. f_equal. apply map_eq. intros c.
  specialize (Hcell2 c). specialize (Hcell c). unfold cell in Hcell2, Hcell.
  rewrite Hr2i in Hcell2. rewrite Hr1 in Hcell2, Hcell. simpl in Hcell2, Hcell.
  rewrite Hcell2. rewrite last_write_update.
  rewrite last_write_update in Hcell.
  destruct (last_write c (qa_writes repr payload)) as [v|] eqn:Hq; [done|].
  destruct (last_write c (tag_writes repr payload)) as [v|] eqn:Ht; [done|].
  destruct (last_write c (clear_writes d1)) as [v|] eqn:Hc1; [|done].
  apply last_write_Some, elem_of_clear_writes in Hc1 as (Hcin & Hqa & ->).
  rewrite Hcell.
  destruct (decide (c ∈ columns d)) as [Hcd|Hcd].
  - by rewrite last_write_clear.
  - exfalso. apply Hcols in Hcin as [?|Hcin]; [done|].
    unfold update_writes in Hcin. rewrite !map_app, !elem_of_app in Hcin.
    destruct Hcin as [Hcin|[Hcin|Hcin]].
    + apply elem_of_map_fst in Hcin as [v Hv].
      by apply elem_of_clear_writes in Hv as [? _].
    + by apply last_write_None in Ht.
    + by apply last_write_None in Hq.
Qed.

Lemma update_in_range_writes st idx payload :
  0 <= idx < storage.row_count st ->
  update_row_with_qas repr st idx payload =
  (true,
   {| csv_path := csv_path st;
      df := fold_left (put (Z.to_nat idx)) (update_writes payload (df st)) (df st) |},
   persist
     {| csv_path := csv_path st;
        df := fold_left (put (Z.to_nat idx)) (update_writes payload (df st)) (df st) |}).
Proof.
  intros Hin. rewrite update_in_range by done. by rewrite update_frame.
Qed.

(** X17. Saving is idempotent: repeating [update_row_with_qas] with the
    same index and payload on the store it left gives the same answer,
    the same table and the same file operations. *)
Theorem update_row_with_qas_idempotent (st : CSVStorage) (idx : Z)
    (payload : list (string * pyval)) :
  let '(ok, st1, ops) := update_row_with_qas repr st idx payload in
  update_row_with_qas repr st1 idx payload = (ok, st1, ops).
Proof.
  destruct (decide (0 <= idx < storage.row_count st)) as [Hin|Hout].
  - rewrite (update_in_range_writes st idx payload Hin).
    set (d1 := fold_left (put (Z.to_nat idx)) (update_writes payload (df st)) (df st)).
    assert (Hi : (Z.to_nat idx < length (rows (df st)))%nat)
      by (unfold storage.row_count, len in Hin; lia).
    destruct (fold_put (Z.to_nat idx) (update_writes payload (df st)) (df st))
      as (Hrows & _). fold d1 in Hrows.
    rewrite update_in_range_writes
      by (unfold storage.row_count, len in *; cbn [df]; lia).
    cbn [csv_path df].
    pose proof (update_frame_twice (Z.to_nat idx) payload (df st) Hi) as Htwice.
    cbv zeta in Htwice. fold d1 in Htwice. by rewrite Htwice.
  - rewrite (update_out_of_range repr st idx payload) by lia.
    apply update_out_of_range. lia.
Qed.

Lemma blank_empty : blank EmptyString = true.
Proof. reflexivity. Qed.

(** What row [i] holds after the writes, column by column. *)
Lemma update_cell i payload d c :
  (i < length (rows d))%nat ->
  cell (fold_left (put i) (update_writes payload d) d) i c =
  match last_write c (qa_writes repr payload) with
  | Some v => Some v
  | None =>
      match last_write c (tag_writes repr payload) with
      | Some v => Some v
      | None =>
          match last_write c (clear_writes d) with
          | Some v => Some v
          | None => cell d i c
          end
      end
  end.
Proof.
  intros Hi.
  destruct (fold_put i (update_writes payload d) d) as (_ & _ & _ & Hcell).
  rewrite (Hcell c Hi), last_write_update.
  destruct (last_write c (qa_writes repr payload)); [done|].
  by destruct (last_write c (tag_writes repr payload)).
Qed.

Lemma not_is_qa_tags : is_qa "tags" = false.
Proof. reflexivity. Qed.

(** X19. Saving without a question resets the row: after an in-range
    update whose payload puts no text that is not blank into a question
    column (for instance a payload with no list-valued QA key, or the
    empty payload), [has_existing_qa_data] answers false for the row,
    whatever it held before. *)
Theorem update_without_question_resets_row (st : CSVStorage) (idx : Z)
    (payload : list (string * pyval)) :
  0 <= idx < storage.row_count st ->
  (forall key items k item,
     is_qa key = true -> payload_get key payload = Some (VList items) ->
     items !! k = Some item -> is_question (col_name key (S k)) = true ->
     blank (item_text repr item) = true) ->
  has_existing_qa_data (snd (fst (update_row_with_qas repr st idx payload))) idx
  = false.
Proof.
  intros Hin Hblank. rewrite update_in_range_writes by done. cbn [fst snd].
  set (i := Z.to_nat idx).
  assert (Hi : (i < length (rows (df st)))%nat)
    by (unfold storage.row_count, len in Hin; lia).
  match goal with |- ?b = false => destruct b eqn:Hex; [|done] end.
  exfalso. apply has_existing_qa_data_iff in Hex
    as (_ & col & v & Hcol & Hq & Hcell & Hv).
  cbn [df] in Hcol, Hcell. fold i in Hcell.
  rewrite update_cell in Hcell by done.
  pose proof (is_question_is_qa col Hq) as Hqa.
  destruct (last_write col (qa_writes repr payload)) as [v1|] eqn:H1.
  { injection Hcell as <-.
    apply last_write_Some, elem_of_qa_writes in H1
      as (key & items & k & item & Hkey & Hget & Hk & -> & ->).
    rewrite (Hblank key items k item) in Hv; done. }
  rewrite last_write_tag in Hcell.
  assert (Htag : match payload_get "tags" payload with
                 | Some v0 => if bool_decide (col = "tags")
                              then Some (tag_text repr v0) else None
                 | None => None
                 end = None).
  { destruct (payload_get "tags" payload); [|done].
    case_bool_decide as Hc; [|done]. subst col. done. }
  rewrite Htag in Hcell.
  destruct (last_write col (clear_writes (df st))) as [v3|] eqn:H3.
  { injection Hcell as <-.
    apply last_write_Some, elem_of_clear_writes in H3 as (_ & _ & ->). done. }
  destruct (fold_put i (update_writes payload (df st)) (df st)) as (_ & Hcols & _).
  apply Hcols in Hcol as [Hcol|Hcol].
  - rewrite last_write_clear in H3; done.
  - unfold update_writes in Hcol. rewrite !map_app, !elem_of_app in Hcol.
    destruct Hcol as [Hcol|[Hcol|Hcol]].
    + by apply last_write_None in H3.
    + unfold tag_writes in Hcol. destruct (payload_get "tags" payload); simpl in Hcol.
      * apply list_elem_of_singleton in Hcol. subst col. done.
      * by apply elem_of_nil in Hcol.
    + by apply last_write_None in H1.
Qed.

(** X20. Saving one row leaves the answer of [has_existing_qa_data]
    for every other row as it was, even when the update adds columns. *)
Theorem update_keeps_other_rows_status (st : CSVStorage) (idx j : Z)
    (payload : list (string * pyval)) :
  j ≠ idx ->
  has_existing_qa_data (snd (fst (update_row_with_qas repr st idx payload))) j
  = has_existing_qa_data st j.
Proof.
  intros Hj.
  destruct (decide (0 <= idx < storage.row_count st)) as [Hin|Hout];
    [|by rewrite update_out_of_range by lia].
  rewrite update_in_range_writes by done. cbn [fst snd].
  set (i := Z.to_nat idx).
  set (d1 := fold_left (put i) (update_writes payload (df st)) (df st)).
  destruct (fold_put i (update_writes payload (df st)) (df st))
    as (Hrows & Hcols & Hother & _). fold d1 in Hrows, Hcols, Hother.
  assert (Hiff : has_existing_qa_data {| csv_path := csv_path st; df := d1 |} j = true
                 <-> has_existing_qa_data st j = true).
  { rewrite !has_existing_qa_data_iff. unfold storage.row_count, len. cbn [df].
    rewrite Hrows.
    assert (Hne : 0 <= j -> Z.to_nat j ≠ i)
      by (unfold i; unfold storage.row_count, len in Hin; lia).
    split.
    - intros (Hjr & col & v & Hcol & Hq & Hcell & Hv). split; [done|].
      exists col, v.
      destruct (decide (col ∈ columns (df st))) as [Hold|Hnew].
      + rewrite <- (Hother _ _ (Hne (proj1 Hjr)) Hold). done.
      + exfalso. unfold d1 in Hcell.
        rewrite fold_put_new in Hcell; [| apply Hne; lia | lia | done | done].
        injection Hcell as <-. done.
    - intros (Hjr & col & v & Hcol & Hq & Hcell & Hv). split; [done|].
      exists col, v.
      split; [apply Hcols; by left|]. split; [done|].
      by rewrite (Hother _ _ (Hne (proj1 Hjr)) Hcol). }
  destruct (has_existing_qa_data st j);
    destruct (has_existing_qa_data _ j); try done.
  - by apply Hiff.
  - symmetry. by apply Hiff.
Qed.

(** X21. The two naming schemes agree: once [ensure_headers(n)] has run,
    an update whose list-valued QA keys are among the six generation keys
    and carry at most n items each (such as a result of
    [generate_for_row] for n pairs) adds no column: the header of the
    table stays what [ensure_headers] made it. *)
Theorem update_after_ensure_headers_keeps_columns (st : CSVStorage)
    (n idx : Z) (payload : list (string * pyval)) :
  (forall key items,
     is_qa key = true -> payload_get key payload = Some (VList items) ->
     key ∈ required /\ (length items <= Z.to_nat n)%nat) ->
  let st1 := fst (ensure_headers st n) in
  columns (df (snd (fst (update_row_with_qas repr st1 idx payload))))
  = columns (df st1).
Proof.
  intros Hfit st1.
  destruct (decide (0 <= idx < storage.row_count st1)) as [Hin|Hout];
    [|by rewrite update_out_of_range by lia].
  rewrite update_in_range_writes by done. cbn [fst snd df].
  apply fold_put_old. intros [c v] Hw. simpl.
  unfold update_writes in Hw. rewrite !elem_of_app in Hw.
  destruct Hw as [Hw|[Hw|Hw]].
  - by apply elem_of_clear_writes in Hw as [? _].
  - unfold tag_writes in Hw. destruct (payload_get "tags" payload); simpl in Hw.
    + apply list_elem_of_singleton in Hw. injection Hw as -> _.
      unfold st1, ensure_headers. cbn [fst df].
      apply ensured_header_present, elem_of_headers. left. do 2 right. left.
    + by apply elem_of_nil in Hw.
  - apply elem_of_qa_writes in Hw as (key & items & k & item & Hqa & Hget & Hk & -> & _).
    destruct (Hfit key items Hqa Hget) as [Hkey Hlen].
    apply lookup_lt_Some in Hk.
    unfold st1, ensure_headers. cbn [fst df].
    apply ensured_header_present, elem_of_headers. right.
    exists key, (S k). split; [done|]. split; [lia|done].
Qed.

End update_more.

Lemma saved_row_has_existing_qa_witness :
  has_existing_qa_data
    (snd (fst (update_row_with_qas repr_opaque store_saved 0 list_payload))) 0
  = true.
Proof.
  apply (saved_row_has_existing_qa repr_opaque store_saved 0 list_payload
           "hi" [VStr "Kaun?"; VNone] 0 (VStr "Kaun?")).
  - vm_compute. split; [discriminate | reflexivity].
  - vm_compute. right. left.
  - reflexivity.
  - reflexivity.
  - reflexivity.
Defined.

Lemma update_without_question_resets_row_witness :
  has_existing_qa_data store_saved 0 = true /\
  has_existing_qa_data
    (snd (fst (update_row_with_qas repr_opaque store_saved 0 flat_payload))) 0
  = false.
Proof.
  split; [reflexivity|].
  apply update_without_question_resets_row.
  - vm_compute. split; [discriminate | reflexivity].
  - intros key items k item _ Hget. exfalso.
    unfold flat_payload in Hget. simpl in Hget.
    repeat case_bool_decide; discriminate.
Defined.

Lemma update_keeps_other_rows_status_witness :
  has_existing_qa_data
    (snd (fst (update_row_with_qas repr_opaque store_answer_only 0 list_payload))) 1
  = has_existing_qa_data store_answer_only 1.
Proof. apply update_keeps_other_rows_status. discriminate. Defined.

(** A result for two pairs, as [generate_for_row] shapes it. *)
Definition generated_payload : list (string * pyval) :=
  map (fun key => (key, VList [VStr "x"; VStr "y"])) required.

Lemma update_after_ensure_headers_keeps_columns_witness :
  let st1 := fst (ensure_headers store_saved 2) in
  columns (df (snd (fst (update_row_with_qas repr_opaque st1 0 generated_payload))))
  = columns (df st1).
Proof.
  apply update_after_ensure_headers_keeps_columns.
  intros key items _ Hget.
  pose proof (payload_get_Some key generated_payload _ Hget) as Hkey.
  split; [exact Hkey|].
  apply list_elem_of_In in Hkey. simpl in Hkey.
  repeat (destruct Hkey as [<-|Hkey];
          [vm_compute in Hget; injection Hget as <-; simpl; lia|]).
  destruct Hkey.
Defined.
(** ** The table store: listing rows *)

Section listing_more.

Variable re_compile : string -> Result (string -> bool).

Lemma py_slice_window {A} (l : list A) (lo n : Z) :
  0 <= lo -> 0 <= n ->
  py_slice l lo (lo + n) = take (Z.to_nat n) (drop (Z.to_nat lo) l).
Proof.
  intros Hlo Hn. unfold py_slice, clamp_index, len.
  destruct (Z.ltb_spec lo 0); [lia|]. destruct (Z.ltb_spec (lo + n) 0); [lia|].
  destruct (decide (Z.of_nat (length l) <= lo)) as [Hbig|Hsmall].
  - rewrite (Z.min_r lo) by lia.
    rewrite (drop_ge l (Z.to_nat (Z.of_nat (length l)))) by lia.
    rewrite (drop_ge l (Z.to_nat lo)) by lia. by rewrite !take_nil.
  - rewrite (Z.min_l lo) by lia.
    destruct (decide (lo + n <= Z.of_nat (length l))) as [Hfit|Hover].
    + rewrite Z.min_l by lia. f_equal. lia.
    + rewrite Z.min_r by lia.
      rewrite (take_ge _ (Z.to_nat n)) by (rewrite length_drop; lia).
      apply take_ge. rewrite length_drop. lia.
Qed.

Lemma take_add_drop {A} (l : list A) (a b : nat) :
  take (a + b) l = take a l ++ take b (drop a l).
Proof.
  revert l. induction a as [|a IH]; intros l; [done|].
  destruct l as [|x l]; [by rewrite drop_nil, !take_nil|].
  cbn [Nat.add take drop app]. by rewrite IH.
Qed.

Lemma length_enumerate {A} (start : nat) (l : list A) :
  length (enumerate start l) = length l.
Proof. revert start. induction l as [|x l IH]; intros start; simpl; [done|]. by rewrite IH. Qed.

Lemma lookup_enumerate {A} (start : nat) (l : list A) k :
  enumerate start l !! k = (fun x => ((start + k)%nat, x)) <$> l !! k.
Proof.
  revert start k. induction l as [|x l IH]; intros start [|k]; simpl; try done.
  - by rewrite Nat.add_0_r.
  - rewrite IH. replace (S start + k)%nat with (start + S k)%nat by lia. done.
Qed.

(** X22. Pages of [list_rows] tile the listing: for non-negative skip and
    page sizes, the page of [a + b] rows at [skip] is the page of [a]
    rows at [skip] followed by the page of [b] rows at [skip + a], for
    every query (and the same error when the query fails). *)
Theorem list_rows_pages_concatenate (st : CSVStorage) (skip a b : Z) (q : string) :
  0 <= skip -> 0 <= a -> 0 <= b ->
  list_rows re_compile st skip (a + b) q =
  (first_page ← list_rows re_compile st skip a q;
   next_page ← list_rows re_compile st (skip + a) b q;
   Ok (first_page ++ next_page)).
Proof.
  intros Hs Ha Hb. unfold list_rows.
  destruct (select_rows re_compile (df st) q) as [selected|e]; [|done].
  cbn [mbind Result_bind]. f_equal.
  rewrite !py_slice_window by lia. rewrite <- map_app. f_equal.
  replace (Z.to_nat (a + b)) with (Z.to_nat a + Z.to_nat b)%nat by lia.
  rewrite take_add_drop, drop_drop. do 3 f_equal. lia.
Qed.

Definition frame_listing : DataFrame :=
  {| columns := ["sanskrit"; "english"];
     rows := [ list_to_map [("sanskrit", "s0"); ("english", "e0")];
               list_to_map [("sanskrit", "s1"); ("english", "e1")];
               list_to_map [("sanskrit", "s2"); ("english", "e2")] ] |}.

End listing_more.

Lemma list_rows_pages_concatenate_witness :
  exists p1 p2,
    list_rows (fun _ => Ok (fun _ => true))
      {| csv_path := "f.csv"; df := frame_listing |} 0 1 "" = Ok p1 /\
    list_rows (fun _ => Ok (fun _ => true))
      {| csv_path := "f.csv"; df := frame_listing |} 1 2 "" = Ok p2 /\
    list_rows (fun _ => Ok (fun _ => true))
      {| csv_path := "f.csv"; df := frame_listing |} 0 3 "" = Ok (p1 ++ p2) /\
    map row_id (p1 ++ p2) = [0; 1; 2].
Proof.
  eexists _, _. split; [reflexivity|]. split; [reflexivity|].
  split; [|reflexivity].
  exact (list_rows_pages_concatenate (fun _ => Ok (fun _ => true))
           {| csv_path := "f.csv"; df := frame_listing |} 0 1 2 ""
           ltac:(lia) ltac:(lia) ltac:(lia)).
Defined.

Section listing_content.

Variable re_compile : string -> Result (string -> bool).

(** X23. Without a query, [list_rows(skip, limit)] for non-negative skip
    and limit returns the rows skip, skip + 1, ... in table order, at most
    limit of them and none past the end; each entry carries its row index
    as id, the first 120 characters of the Sanskrit cell, the first 240 of
    the English cell and the tags cell. With a query, a table without the
    sanskrit column (such as the empty table of a missing file) raises
    [KeyError]. *)
Theorem list_rows_without_query (st : CSVStorage) (skip limit : Z) :
  0 <= skip -> 0 <= limit ->
  (exists out,
     list_rows re_compile st skip limit "" = Ok out /\
     len out = Z.min limit (Z.max 0 (storage.row_count st - skip)) /\
     forall k entry,
       out !! k = Some entry ->
       exists row,
         rows (df st) !! (Z.to_nat skip + k)%nat = Some row /\
         entry = {| row_id := skip + Z.of_nat k;
                    row_sanskrit := substring 0 120 (default "" (row !! "sanskrit"));
                    row_english := substring 0 240 (default "" (row !! "english"));
                    row_tags := default "" (row !! "tags") |}) /\
  (forall q, q ≠ "" -> "sanskrit" ∉ columns (df st) ->
     list_rows re_compile st skip limit q = Raise (KeyError "sanskrit")).
Proof.
  intros Hs Hl. split.
  - unfold list_rows, select_rows. cbn [string_empty mbind Result_bind].
    eexists. split; [reflexivity|].
    rewrite py_slice_window by lia. split.
    + unfold len, storage.row_count, len.
      rewrite length_map, length_take, length_drop, length_enumerate. lia.
    + intros k entry Hk. rewrite list_lookup_fmap in Hk.
      destruct (take _ _ !! k) as [[i row]|] eqn:Hp; [|done].
      injection Hk as <-.
      apply lookup_take_Some in Hp as [Hp _].
      rewrite lookup_drop, lookup_enumerate in Hp.
      destruct (rows (df st) !! (Z.to_nat skip + k)%nat) as [row'|]; [|done].
      injection Hp as <- <-. exists row'. split; [done|]. cbn [fst snd].
      f_equal. lia.
  - intros q Hq Hcol. unfold list_rows, select_rows.
    destruct q as [|c q]; [done|]. cbn [string_empty].
    assert (Hraise : column_contains re_compile (df st) "sanskrit" (String c q)
                     = Raise (KeyError "sanskrit")).
    { unfold column_contains. apply has_column_false in Hcol. by rewrite Hcol. }
    by rewrite Hraise.
Qed.

End listing_content.

Lemma list_rows_without_query_witness :
  exists out,
    list_rows (fun _ => Ok (fun _ => true))
      {| csv_path := "f.csv"; df := frame_listing |} 1 5 "" = Ok out /\
    len out = 2.
Proof.
  destruct (list_rows_without_query (fun _ => Ok (fun _ => true))
              {| csv_path := "f.csv"; df := frame_listing |} 1 5
              ltac:(lia) ltac:(lia)) as [(out & Hrun & Hlen & _) _].
  exists out. split; [exact Hrun|]. rewrite Hlen. reflexivity.
Defined.

(** ** The save endpoints: the payload they build *)

Section save_payload.

Variable repr : pyval -> string.

Lemma payload_get_app key (l1 l2 : list (string * pyval)) :
  payload_get key (l1 ++ l2) =
  match payload_get key l1 with
  | Some v => Some v
  | None => payload_get key l2
  end.
Proof.
  induction l1 as [|[k v] l1 IH]; simpl; [done|].
  case_bool_decide; [done | apply IH].
Qed.

Lemma payload_get_filter_qa key (row_data : list (string * pyval)) :
  payload_get key (List.filter (fun kv => is_qa (fst kv)) row_data) =
  if is_qa key then payload_get key row_data else None.
Proof.
  induction row_data as [|[k v] row_data IH]; simpl.
  - by destruct (is_qa key).
  - destruct (is_qa k) eqn:Hk; simpl.
    + case_bool_decide as Hkey; [subst k; by rewrite Hk | apply IH].
    + rewrite IH. case_bool_decide as Hkey; [subst k; by rewrite Hk | done].
Qed.

Lemma payload_get_qa_payload key row_data :
  is_qa key = true \/ key = "tags" ->
  payload_get key (qa_payload row_data) = payload_get key row_data.
Proof.
  intros Hkey. unfold qa_payload.
  rewrite payload_get_app, payload_get_filter_qa.
  destruct Hkey as [Hqa| ->].
  - rewrite Hqa. destruct (payload_get key row_data) eqn:Hget; [done|].
    destruct (payload_get "tags" row_data); simpl; [|done].
    case_bool_decide as Ht; [|done]. subst key. discriminate Hqa.
  - change (is_qa "tags") with false. cbv iota.
    by destruct (payload_get "tags" row_data).
Qed.

Lemma qa_keys_qa_payload row_data :
  List.filter is_qa (map fst (qa_payload row_data))
  = List.filter is_qa (map fst row_data).
Proof.
  unfold qa_payload. rewrite map_app, List.filter_app.
  assert (Htail :
    List.filter is_qa
      (map fst match payload_get "tags" row_data with
               | Some v => [("tags", v)]
               | None => []
               end) = []).
  { by destruct (payload_get "tags" row_data). }
  rewrite Htail, app_nil_r. clear Htail.
  induction row_data as [|[k v] row_data IH]; simpl; [done|].
  destruct (is_qa k) eqn:Hk; simpl; [by rewrite Hk, IH | done].
Qed.

(** X24. The payload extraction of the save endpoints is transparent for
    the store: [update_row_with_qas] gives the same answer, the same table
    and the same file operations on the extracted [qa_payload] as on the
    row data itself, since it reads nothing but the tags and the
    QA-prefixed keys. *)
Theorem update_row_with_qas_reads_qa_payload (st : CSVStorage) (idx : Z)
    (row_data : list (string * pyval)) :
  update_row_with_qas repr st idx (qa_payload row_data)
  = update_row_with_qas repr st idx row_data.
Proof.
  destruct (decide (0 <= idx < storage.row_count st)) as [Hin|Hout].
  - rewrite !update_in_range by done. rewrite !update_frame.
    assert (Htag : tag_writes repr (qa_payload row_data) = tag_writes repr row_data).
    { unfold tag_writes. rewrite payload_get_qa_payload; [done | by right]. }
    assert (Hqa : qa_writes repr (qa_payload row_data) = qa_writes repr row_data).
    { unfold qa_writes. rewrite qa_keys_qa_payload.
      apply flat_map_ext_in. intros key Hkey.
      apply list_elem_of_In, filter_In in Hkey as [_ Hkey].
      unfold key_writes. rewrite payload_get_qa_payload; [done | by left]. }
    by rewrite Htag, Hqa.
  - by rewrite !update_out_of_range by lia.
Qed.

End save_payload.

(** ** The batch loops: what they publish *)

Section published.

Variable env : Env.
Variable qa_count : Z.

Lemma generate_row_run {St} k fid storage extra row acc i (w : World St) :
  get_row storage i = Some row ->
  exists w',
    generate_row env k fid storage qa_count extra row acc i w
    = (Ok (acc ++ row_results env k fid storage qa_count extra i), w') /\
    the_status w' = the_status w /\ file_registry w' = file_registry w /\
    submitted w'
    = submitted w ++ (if wants_generation storage i then [(k, fid, i)] else []).
Proof.
  intros Hrow. unfold generate_row, row_results, wants_generation.
  rewrite Hrow. cbv zeta.
  destruct (has_existing_qa_data storage i).
  { exists w. by rewrite !app_nil_r. }
  cbn [negb andb].
  destruct (negb _ && negb _).
  - unfold mbind, M_bind, log_call, modify.
    destruct (fst (generate_for_row _ _ _ _ _ _)).
    + eexists. split; [reflexivity|done].
    + eexists. split; [rewrite app_nil_r; reflexivity | done].
  - exists w. by rewrite !app_nil_r.
Qed.

Lemma batch_row_run k fid storage acc i w :
  is_Some (progress (the_status w) !! fid) ->
  is_Some (get_row storage i) ->
  exists w',
    batch_row env k fid storage qa_count acc i w
    = (Ok (acc ++ row_results env k fid storage qa_count ∅ i), w') /\
    is_Some (progress (the_status w') !! fid) /\
    submitted w'
    = submitted w ++ (if wants_generation storage i then [(k, fid, i)] else []).
Proof.
  intros [p Hp] [row Hrow].
  unfold batch_row, mbind, M_bind, on_status, modify, progress_at.
  simpl. rewrite Hp, Hrow. simpl.
  match goal with |- context [generate_row _ _ _ _ _ ?x ?r ?a ?j ?w0] =>
    destruct (generate_row_run k fid storage x r a j w0 Hrow)
      as (w' & -> & Hst & _ & Hlog) end.
  exists w'. split; [done|]. split; [|exact Hlog].
  rewrite Hst. simpl. by rewrite lookup_insert_eq.
Qed.

Lemma batch_rows_run k fid storage (rows_ : list Z) acc w :
  is_Some (progress (the_status w) !! fid) ->
  (forall i, i ∈ rows_ -> is_Some (get_row storage i)) ->
  exists w',
    for_fold rows_ acc (batch_row env k fid storage qa_count) w
    = (Ok (acc ++ flat_map (row_results env k fid storage qa_count ∅) rows_), w') /\
    submitted w'
    = submitted w
      ++ map (fun i => (k, fid, i)) (List.filter (wants_generation storage) rows_).
Proof.
  revert acc w. induction rows_ as [|i rows_ IH]; intros acc w Hp Hrows.
  - exists w. simpl. by rewrite !app_nil_r.
  - destruct (batch_row_run k fid storage acc i w Hp) as (w1 & Hb & Hp1 & Hlog1).
    { apply Hrows. left. }
    destruct (IH (acc ++ row_results env k fid storage qa_count ∅ i) w1 Hp1)
      as (w' & Hf & Hlog).
    { intros j Hj. apply Hrows. by right. }
    exists w'. cbn [for_fold flat_map List.filter]. unfold mbind, M_bind.
    rewrite Hb, Hf, app_assoc. split; [done|].
    rewrite Hlog, Hlog1, <- app_assoc.
    by destruct (wants_generation storage i).
Qed.

Lemma detailed_row_run k fid file_info storage total acc i w :
  is_Some (get_row storage i) ->
  exists w',
    detailed_row env k fid file_info storage total qa_count acc i w
    = (Ok (acc ++ row_results env k fid storage qa_count
                    {["filename" := VStr (filename file_info)]} i), w') /\
    submitted w'
    = submitted w ++ (if wants_generation storage i then [(k, fid, i)] else []).
Proof.
  intros [row Hrow].
  unfold detailed_row, mbind, M_bind, on_file_progress, on_status, modify.
  simpl. rewrite Hrow. simpl.
  destruct (i mod 10 =? 0); simpl;
    match goal with |- context [generate_row _ _ _ _ _ ?x ?r ?a ?j ?w0] =>
      destruct (generate_row_run k fid storage x r a j w0 Hrow)
        as (w' & -> & _ & _ & Hlog) end;
    by exists w'.
Qed.

Lemma detailed_rows_run k fid file_info storage total (rows_ : list Z) acc w :
  (forall i, i ∈ rows_ -> is_Some (get_row storage i)) ->
  exists w',
    for_fold rows_ acc
      (detailed_row env k fid file_info storage total qa_count) w
    = (Ok (acc ++ flat_map (row_results env k fid storage qa_count
                              {["filename" := VStr (filename file_info)]}) rows_),
       w') /\
    submitted w'
    = submitted w
      ++ map (fun i => (k, fid, i)) (List.filter (wants_generation storage) rows_).
Proof.
  revert acc w. induction rows_ as [|i rows_ IH]; intros acc w Hrows.
  - exists w. simpl. by rewrite !app_nil_r.
  - destruct (detailed_row_run k fid file_info storage total acc i w)
      as (w1 & Hb & Hlog1).
    { apply Hrows. left. }
    destruct (IH (acc ++ row_results env k fid storage qa_count
                           {["filename" := VStr (filename file_info)]} i) w1)
      as (w' & Hf & Hlog).
    { intros j Hj. apply Hrows. by right. }
    exists w'. cbn [for_fold flat_map List.filter]. unfold mbind, M_bind.
    rewrite Hb, Hf, app_assoc. split; [done|].
    rewrite Hlog, Hlog1, <- app_assoc.
    by destruct (wants_generation storage i).
Qed.

Lemma not_required key :
  key ∈ ["id"; "sanskrit"; "english"; "file_id"; "filename"] -> key ∉ required.
Proof.
  intros Hkey Hreq. apply list_elem_of_In in Hkey, Hreq. simpl in Hkey, Hreq.
  repeat (destruct Hkey as [<-|Hkey];
          [repeat (destruct Hreq as [Hreq|Hreq]; [discriminate Hreq|]);
           destruct Hreq|]).
  destruct Hkey.
Qed.

(** An item of [row_results] is a published item, provided the extra
    entries do not use an item key. *)
Lemma row_results_published k fid storage extra i item :
  (forall key, is_Some (extra !! key) -> key = "filename") ->
  item ∈ row_results env k fid storage qa_count extra i ->
  published_item fid storage qa_count i item.
Proof.
  intros Hextra. unfold row_results.
  destruct (get_row storage i) as [row|] eqn:Hrow; [|by intros ?%elem_of_nil].
  cbv zeta.
  destruct (has_existing_qa_data storage i) eqn:Hex; [by intros ?%elem_of_nil|].
  destruct (string_empty (row_get row "sanskrit")) eqn:Hs; simpl;
    [by intros ?%elem_of_nil|].
  destruct (string_empty (row_get row "english")) eqn:He; simpl;
    [by intros ?%elem_of_nil|].
  destruct (generate_for_row _ _ _ _ _ _) as [[g|e] sent] eqn:Hgen; simpl;
    [|by intros ?%elem_of_nil].
  intros ->%list_elem_of_singleton.
  assert (Hrun : fst (generate_for_row (cfg env) (service env k i)
                        (row_get row "sanskrit") (row_get row "english")
                        (APP_MODEL_NAME env) qa_count) = Ok g)
    by (by rewrite Hgen).
  assert (Hn : 1 <= qa_count /\ _check_server_health (cfg env) (service env k i) = true).
  { revert Hrun. unfold generate_for_row.
    destruct (_check_server_health _ _); simpl; [|done].
    destruct (Z.leb_spec qa_count 0); simpl; [done|]. intros _. split; [lia|done]. }
  destruct Hn as [Hn Hh].
  destruct (generate_for_row_healthy (cfg env) (service env k i)
              (row_get row "sanskrit") (row_get row "english")
              (APP_MODEL_NAME env) qa_count Hn Hh)
    as (_ & _ & g' & Hrun' & Hkeys).
  rewrite Hrun in Hrun'. injection Hrun' as <-.
  assert (Hnone : forall key,
    key ∈ ["id"; "sanskrit"; "english"; "file_id"] -> (g ∪ extra) !! key = None).
  { intros key Hkey. apply lookup_union_None. split.
    - destruct (g !! key) eqn:Hg; [|done]. exfalso.
      apply (not_required key).
      + rewrite !elem_of_cons in Hkey. rewrite !elem_of_cons. tauto.
      + eapply generate_for_row_dom; [exact Hrun | eauto].
    - destruct (extra !! key) eqn:Hx; [|done]. exfalso.
      assert (key = "filename") as -> by (apply Hextra; eauto).
      apply list_elem_of_In in Hkey. simpl in Hkey.
      repeat (destruct Hkey as [Hkey|Hkey]; [discriminate Hkey|]). destruct Hkey. }
  exists row. split; [done|]. split; [done|].
  split; [intros H; by rewrite H in Hs|]. split; [intros H; by rewrite H in He|].
  unfold result_item.
  split; [|split; [|split; [|split]]].
  - rewrite lookup_union_r by (apply Hnone; left). by rewrite lookup_insert_eq.
  - rewrite lookup_union_r by (apply Hnone; right; left).
    rewrite lookup_insert_ne by done. by rewrite lookup_insert_eq.
  - rewrite lookup_union_r by (apply Hnone; do 2 right; left).
    rewrite !lookup_insert_ne by done. by rewrite lookup_insert_eq.
  - rewrite lookup_union_r by (apply Hnone; do 3 right; left).
    rewrite !lookup_insert_ne by done. by rewrite lookup_singleton_eq.
  - intros key Hkey. destruct (Hkeys key Hkey) as (Hg & _ & Hlen).
    eexists. split; [|exact Hlen].
    apply lookup_union_Some_l. by apply lookup_union_Some_l.
Qed.

(** The items of a row loop, each with the row it comes from, in row
    order. *)
Lemma flat_map_row_results_sorted k fid storage extra (rows_ : list Z) :
  (forall key, is_Some (extra !! key) -> key = "filename") ->
  exists picked : list Z,
    sublist picked rows_ /\
    Forall2 (published_item fid storage qa_count) picked
            (flat_map (row_results env k fid storage qa_count extra) rows_).
Proof.
  intros Hextra. induction rows_ as [|i rows_ (picked & Hsub & Hall)].
  - exists []. split; [done | constructor].
  - cbn [flat_map].
    assert (Hone : row_results env k fid storage qa_count extra i = [] \/
                   exists item, row_results env k fid storage qa_count extra i = [item]).
    { unfold row_results. destruct (get_row storage i); [|by left]. cbv zeta.
      destruct (has_existing_qa_data storage i); [by left|].
      destruct (negb _ && negb _); [|by left].
      destruct (fst (generate_for_row _ _ _ _ _ _)); [right; eauto | by left]. }
    destruct Hone as [Hnil|[item Hitem]].
    + rewrite Hnil. exists picked. split; [by apply sublist_cons | done].
    + exists (i :: picked). split; [by apply sublist_skip|].
      rewrite Hitem. constructor; [|done].
      apply (row_results_published k fid storage extra i item Hextra).
      rewrite Hitem. left.
Qed.

Lemma row_results_nonpositive k fid storage extra i :
  qa_count <= 0 -> row_results env k fid storage qa_count extra i = [].
Proof.
  intros Hn. unfold row_results. destruct (get_row storage i); [|done].
  cbv zeta. destruct (has_existing_qa_data storage i); [done|].
  destruct (negb _ && negb _); [|done].
  unfold generate_for_row. destruct (_check_server_health _ _); simpl; [|done].
  by destruct (Z.leb_spec qa_count 0); [|lia].
Qed.

Lemma flat_map_nil {A B} (f : A -> list B) (l : list A) :
  (forall x, f x = []) -> flat_map f l = [].
Proof. intros H. induction l as [|x l IH]; simpl; [done|]. by rewrite H, IH. Qed.

(** X25. What a file pass collects. In both batch functions the row loop
    over a table returns (in [process_files_batch], once the progress entry
    of the file exists) a list of items taken from the rows in table order,
    at most one per row: each item belongs to a row that had no existing
    Q&A data and both texts, and carries that row's index, texts and file
    id and, under each of the six keys, a list of exactly [qa_count]
    items. With [qa_count <= 0] the list is empty. *)
Theorem row_loops_publish_rows_without_qa (k : nat) (fid : string)
    (storage : CSVStorage) :
  (forall w : World ProcessStatus,
     is_Some (progress (the_status w) !! fid) ->
     exists rs w' picked,
       for_fold (range (storage.row_count storage)) []
         (batch_row env k fid storage qa_count) w = (Ok rs, w') /\
       sublist picked (range (storage.row_count storage)) /\
       Forall2 (published_item fid storage qa_count) picked rs /\
       (qa_count <= 0 -> rs = [])) /\
  (forall (w : World DetailedProcessStatus) (file_info : FileInfo),
     exists rs w' picked,
       for_fold (range (storage.row_count storage)) []
         (detailed_row env k fid file_info storage
            (storage.row_count storage) qa_count) w = (Ok rs, w') /\
       sublist picked (range (storage.row_count storage)) /\
       Forall2 (published_item fid storage qa_count) picked rs /\
       (qa_count <= 0 -> rs = [])).
Proof.
  split.
  - intros w Hp.
    destruct (batch_rows_run k fid storage (range (storage.row_count storage)) [] w Hp)
      as (w' & Hrun & _); [apply get_row_in_range|].
    destruct (flat_map_row_results_sorted k fid storage ∅
                (range (storage.row_count storage)))
      as (picked & Hsub & Hall).
    { intros key [v Hv]. by rewrite lookup_empty in Hv. }
    eexists _, w', picked. split; [exact Hrun|]. split; [done|]. split; [done|].
    intros Hn. simpl. apply flat_map_nil. intros i.
    by apply row_results_nonpositive.
  - intros w file_info.
    destruct (detailed_rows_run k fid file_info storage
                (storage.row_count storage)
                (range (storage.row_count storage)) [] w)
      as (w' & Hrun & _); [apply get_row_in_range|].
    destruct (flat_map_row_results_sorted k fid storage
                {["filename" := VStr (filename file_info)]}
                (range (storage.row_count storage)))
      as (picked & Hsub & Hall).
    { intros key [v Hv]. apply lookup_singleton_Some in Hv as [<- _]. done. }
    eexists _, w', picked. split; [exact Hrun|]. split; [done|]. split; [done|].
    intros Hn. simpl. apply flat_map_nil. intros i.
    by apply row_results_nonpositive.
Qed.

(** X30. No eligible row is skipped or submitted twice: in both batch
    functions the row loop over a table calls [generate_for_row] exactly
    once, in table order, for every row that has no existing Q&A data, a
    non-empty source and a non-empty translation, and for no other row. *)
Theorem row_loops_submit_every_eligible_row_once (k : nat) (fid : string)
    (storage : CSVStorage) :
  (forall w : World ProcessStatus,
     is_Some (progress (the_status w) !! fid) ->
     submitted
       (snd (for_fold (range (storage.row_count storage)) []
               (batch_row env k fid storage qa_count) w))
     = submitted w
       ++ map (fun i => (k, fid, i))
            (List.filter (wants_generation storage)
               (range (storage.row_count storage)))) /\
  (forall (w : World DetailedProcessStatus) (file_info : FileInfo),
     submitted
       (snd (for_fold (range (storage.row_count storage)) []
               (detailed_row env k fid file_info storage
                  (storage.row_count storage) qa_count) w))
     = submitted w
       ++ map (fun i => (k, fid, i))
            (List.filter (wants_generation storage)
               (range (storage.row_count storage)))) /\
  NoDup (List.filter (wants_generation storage)
           (range (storage.row_count storage))) /\
  (forall i, i ∈ List.filter (wants_generation storage)
                   (range (storage.row_count storage)) <->
     0 <= i < storage.row_count storage /\
     has_existing_qa_data storage i = false /\
     exists row, get_row storage i = Some row /\
       row_get row "sanskrit" ≠ EmptyString /\
       row_get row "english" ≠ EmptyString).
Proof.
  split; [|split; [|split]].
  - intros w Hp.
    destruct (batch_rows_run k fid storage (range (storage.row_count storage)) [] w Hp)
      as (w' & Hrun & Hlog); [apply get_row_in_range|].
    by rewrite Hrun.
  - intros w file_info.
    destruct (detailed_rows_run k fid file_info storage
                (storage.row_count storage)
                (range (storage.row_count storage)) [] w)
      as (w' & Hrun & Hlog); [apply get_row_in_range|].
    by rewrite Hrun.
  - apply NoDup_ListNoDup, List.NoDup_filter, NoDup_ListNoDup.
    unfold range. apply NoDup_fmap; [apply Nat2Z.inj' | apply NoDup_seq].
  - intros i. rewrite list_elem_of_In, filter_In, <- list_elem_of_In.
    unfold range. rewrite list_elem_of_fmap. unfold wants_generation.
    split.
    + intros [(j & -> & Hj%elem_of_seq) Hw].
      destruct (get_row storage (Z.of_nat j)) as [row|] eqn:Hrow; [|done].
      apply andb_true_iff in Hw as [Hex Hw]. apply andb_true_iff in Hw as [Hs He].
      split; [lia|]. split; [by apply negb_true_iff|].
      exists row. split; [done|].
      split; intros H; rewrite H in *; done.
    + intros (Hi & Hex & row & Hrow & Hs & He). split.
      * exists (Z.to_nat i). split; [lia | apply elem_of_seq; lia].
      * rewrite Hrow, Hex. cbn [negb andb].
        destruct (row_get row "sanskrit"); [done|].
        by destruct (row_get row "english").
Qed.

End published.

Section completion.

Variable env : Env.
Variable qa_count : Z.

Lemma batch_row_state k fid storage acc i w p0 st0 :
  row_state fid p0 st0 (the_status w) ->
  is_Some (get_row storage i) ->
  exists w',
    batch_row env k fid storage qa_count acc i w
    = (Ok (acc ++ row_results env k fid storage qa_count ∅ i), w') /\
    row_state fid p0 st0 (the_status w') /\
    file_registry w' = file_registry w.
Proof.
  intros (H1 & H2 & H3 & H4 & H5 & H6 & x & Hx) [row Hrow].
  unfold batch_row, mbind, M_bind, on_status, modify, progress_at.
  simpl. rewrite Hx, lookup_insert_eq, Hrow. simpl.
  match goal with |- context [generate_row _ _ _ _ _ ?x ?r ?a ?j ?w0] =>
    destruct (generate_row_run env qa_count k fid storage x r a j w0 Hrow)
      as (w' & -> & Hst & Hreg & _) end.
  exists w'. split; [done|]. split; [|by rewrite Hreg].
  rewrite Hst. simpl. unfold row_state. simpl. repeat (split; [done|]).
  exists (i + 1). by rewrite Hx, insert_insert_eq.
Qed.

Lemma with_processed_id p : with_processed (processed p) p = p.
Proof. by destruct p. Qed.

Lemma row_state_start fid p st :
  progress st !! fid = Some p -> row_state fid p st st.
Proof.
  intros Hp. unfold row_state. repeat (split; [done|]).
  exists (processed p). by rewrite with_processed_id, insert_id.
Qed.

Lemma batch_rows_state k fid storage (rows_ : list Z) acc w p0 st0 :
  row_state fid p0 st0 (the_status w) ->
  (forall i, i ∈ rows_ -> is_Some (get_row storage i)) ->
  exists w',
    for_fold rows_ acc (batch_row env k fid storage qa_count) w
    = (Ok (acc ++ flat_map (row_results env k fid storage qa_count ∅) rows_), w') /\
    row_state fid p0 st0 (the_status w') /\
    file_registry w' = file_registry w.
Proof.
  revert acc w. induction rows_ as [|i rows_ IH]; intros acc w Hst Hrows.
  - exists w. simpl. by rewrite app_nil_r.
  - destruct (batch_row_state k fid storage acc i w p0 st0 Hst)
      as (w1 & Hb & Hst1 & Hreg1).
    { apply Hrows. left. }
    destruct (IH (acc ++ row_results env k fid storage qa_count ∅ i) w1 Hst1)
      as (w' & Hf & Hst' & Hreg').
    { intros j Hj. apply Hrows. by right. }
    exists w'. cbn [for_fold flat_map]. unfold mbind, M_bind.
    rewrite Hb, Hf, app_assoc. split; [done|]. split; [done|]. congruence.
Qed.

(** One file of the batch, when its table loads and its metadata can be
    written. *)
Lemma batch_file_run k fid w info p d :
  file_registry w !! fid = Some info ->
  progress (the_status w) !! fid = Some p ->
  read_csv env k (get_file_path env fid) = Ok d ->
  save_file_metadata env k fid = Ok tt ->
  let storage := {| csv_path := get_file_path env fid; df := d |} in
  let rs := flat_map (row_results env k fid storage qa_count ∅)
              (range (len (rows d))) in
  exists w' p',
    batch_file env qa_count (k, fid) w = (Ok tt, w') /\
    status (the_status w') = status (the_status w) /\
    error_message (the_status w') = error_message (the_status w) /\
    total_rows (the_status w') = total_rows (the_status w) + len (rows d) /\
    processed_files (the_status w') = Z.of_nat k + 1 /\
    results (the_status w') = <[fid := rs]> (results (the_status w)) /\
    progress (the_status w') = <[fid := p']> (progress (the_status w)) /\
    progress_status p' = "completed" /\ total p' = len (rows d) /\
    file_registry w'
    = <[fid := {| file_id := file_id info; filename := filename info;
                  row_count := row_count info;
                  processed_count := len rs;
                  file_status := "completed" |}]> (file_registry w).
Proof.
  intros Hreg Hp Hd Hsave storage rs.
  unfold batch_file. unfold mbind at 1, M_bind at 1, get at 1. rewrite Hreg.
  unfold CSVStorage_new. rewrite Hd. cbn [mbind Result_bind].
  fold storage.
  unfold mbind at 1, M_bind at 1, lift at 1.
  unfold mbind at 1, M_bind at 1, on_status at 1, modify at 1.
  unfold mbind at 1, M_bind at 1, progress_at at 1.
  cbn [the_status progress set_current_file].
  rewrite Hp.
  unfold on_status at 1, modify at 1. cbn [the_status file_registry submitted].
  unfold mbind at 1, M_bind at 1, progress_at at 1.
  cbn [the_status progress set_progress].
  rewrite lookup_insert_eq.
  unfold on_status at 1, modify at 1. cbn [the_status file_registry submitted].
  unfold mbind at 1, M_bind at 1, on_status at 1, modify at 1.
  cbn [the_status file_registry submitted].
  unfold mbind at 1, M_bind at 1.
  match goal with |- context [for_fold ?l ?a ?b ?w1] =>
    destruct (batch_rows_state k fid storage l a w1
                (with_total (storage.row_count storage)
                   (with_progress_status "processing" p))
                (the_status w1))
      as (w2 & Hloop & Hst & Hreg2) end.
  { apply row_state_start. cbn. by rewrite insert_insert_eq, lookup_insert_eq. }
  { apply get_row_in_range. }
  rewrite Hloop. cbn [app].
  destruct Hst as (H1 & H2 & H3 & H4 & H5 & H6 & x & Hx).
  cbn in H1, H2, H3, H4, H5, H6, Hx, Hreg2.
  rewrite !insert_insert_eq in Hx.
  unfold mbind at 1, M_bind at 1, on_status at 1, modify at 1.
  unfold mbind at 1, M_bind at 1, progress_at at 1.
  cbn [the_status progress set_results].
  rewrite Hx, lookup_insert_eq.
  unfold on_status at 1, modify at 1. cbn [the_status file_registry submitted].
  unfold mbind at 1, M_bind at 1, on_status at 1, modify at 1.
  cbn [the_status file_registry submitted].
  unfold mbind at 1, M_bind at 1, lift at 1. rewrite Hsave.
  unfold mark_registry. cbn [the_status file_registry submitted].
  rewrite Hreg2. cbn [file_registry]. rewrite Hreg.
  eexists _, _. split; [reflexivity|].
  cbn. rewrite H1, H3, H5, H6, Hx. rewrite !insert_insert_eq.
  split; [done|]. split; [done|]. split; [done|]. split; [done|].
  split; [done|]. split; [reflexivity|]. split; [done|]. split; [done|]. done.
Qed.

(** One file of the batch, when its table loads and its metadata cannot
    be written: the results are stored and the progress entry says
    completed, and the registry is left as it was. *)
Lemma batch_file_save_fails k fid w info p d e :
  file_registry w !! fid = Some info ->
  progress (the_status w) !! fid = Some p ->
  read_csv env k (get_file_path env fid) = Ok d ->
  save_file_metadata env k fid = Raise e ->
  let storage := {| csv_path := get_file_path env fid; df := d |} in
  let rs := flat_map (row_results env k fid storage qa_count ∅)
              (range (len (rows d))) in
  exists w' p',
    batch_file env qa_count (k, fid) w = (Raise e, w') /\
    status (the_status w') = status (the_status w) /\
    error_message (the_status w') = error_message (the_status w) /\
    total_rows (the_status w') = total_rows (the_status w) + len (rows d) /\
    processed_files (the_status w') = Z.of_nat k + 1 /\
    results (the_status w') = <[fid := rs]> (results (the_status w)) /\
    progress (the_status w') = <[fid := p']> (progress (the_status w)) /\
    progress_status p' = "completed" /\ total p' = len (rows d) /\
    file_registry w' = file_registry w.
Proof.
  intros Hreg Hp Hd Hsave storage rs.
  unfold batch_file. unfold mbind at 1, M_bind at 1, get at 1. rewrite Hreg.
  unfold CSVStorage_new. rewrite Hd. cbn [mbind Result_bind].
  fold storage.
  unfold mbind at 1, M_bind at 1, lift at 1.
  unfold mbind at 1, M_bind at 1, on_status at 1, modify at 1.
  unfold mbind at 1, M_bind at 1, progress_at at 1.
  cbn [the_status progress set_current_file].
  rewrite Hp.
  unfold on_status at 1, modify at 1. cbn [the_status file_registry submitted].
  unfold mbind at 1, M_bind at 1, progress_at at 1.
  cbn [the_status progress set_progress].
  rewrite lookup_insert_eq.
  unfold on_status at 1, modify at 1. cbn [the_status file_registry submitted].
  unfold mbind at 1, M_bind at 1, on_status at 1, modify at 1.
  cbn [the_status file_registry submitted].
  unfold mbind at 1, M_bind at 1.
  match goal with |- context [for_fold ?l ?a ?b ?w1] =>
    destruct (batch_rows_state k fid storage l a w1
                (with_total (storage.row_count storage)
                   (with_progress_status "processing" p))
                (the_status w1))
      as (w2 & Hloop & Hst & Hreg2) end.
  { apply row_state_start. cbn. by rewrite insert_insert_eq, lookup_insert_eq. }
  { apply get_row_in_range. }
  rewrite Hloop. cbn [app].
  destruct Hst as (H1 & H2 & H3 & H4 & H5 & H6 & x & Hx).
  cbn in H1, H2, H3, H4, H5, H6, Hx, Hreg2.
  rewrite !insert_insert_eq in Hx.
  unfold mbind at 1, M_bind at 1, on_status at 1, modify at 1.
  unfold mbind at 1, M_bind at 1, progress_at at 1.
  cbn [the_status progress set_results].
  rewrite Hx, lookup_insert_eq.
  unfold on_status at 1, modify at 1. cbn [the_status file_registry submitted].
  unfold mbind at 1, M_bind at 1, on_status at 1, modify at 1.
  cbn [the_status file_registry submitted].
  unfold mbind at 1, M_bind at 1, lift at 1. rewrite Hsave.
  eexists _, _. split; [reflexivity|].
  cbn. rewrite H1, H3, H5, H6, Hx. rewrite !insert_insert_eq.
  split; [done|]. split; [done|]. split; [done|]. split; [done|].
  split; [done|]. split; [reflexivity|]. split; [done|]. split; [done|]. done.
Qed.

(** The loop over the files, when every table loads and every metadata
    write succeeds. *)
Lemma batch_files_run (ids : list string) (start : nat) (w : World ProcessStatus) :
  (forall j fid, ids !! j = Some fid ->
     is_Some (file_registry w !! fid) /\
     is_Some (progress (the_status w) !! fid) /\
     is_ok (read_csv env (start + j) (get_file_path env fid)) = true /\
     save_file_metadata env (start + j)%nat fid = Ok tt) ->
  exists w',
    for_each (enumerate start ids) (batch_file env qa_count) w = (Ok tt, w') /\
    status (the_status w') = status (the_status w) /\
    error_message (the_status w') = error_message (the_status w) /\
    total_rows (the_status w')
    = total_rows (the_status w) + loaded_rows env start ids /\
    (ids ≠ [] ->
     processed_files (the_status w') = Z.of_nat start + len ids) /\
    (forall f, is_Some (file_registry w' !! f) <-> is_Some (file_registry w !! f)) /\
    (forall f, is_Some (progress (the_status w') !! f)
               <-> is_Some (progress (the_status w) !! f)) /\
    (forall f, f ∉ ids ->
       progress (the_status w') !! f = progress (the_status w) !! f /\
       results (the_status w') !! f = results (the_status w) !! f /\
       file_registry w' !! f = file_registry w !! f) /\
    (forall f, f ∈ ids -> file_completed f w').
Proof.
  revert start w. induction ids as [|fid ids IH]; intros start w Hall.
  - exists w. split; [done|]. split; [done|]. split; [done|].
    split; [simpl; lia|]. split; [done|]. split; [done|]. split; [done|].
    split; [done|]. intros f Hf. by apply elem_of_nil in Hf.
  - destruct (Hall 0%nat fid eq_refl) as ([info Hreg] & [p Hp] & Hload & Hsave).
    rewrite Nat.add_0_r in Hload, Hsave.
    destruct (read_csv env start (get_file_path env fid)) as [d|] eqn:Hd;
      [|done].
    destruct (batch_file_run start fid w info p d Hreg Hp Hd Hsave)
      as (w1 & p1 & Hrun1 & Hs1 & Herr1 & Ht1 & Hpf1 & Hres1 & Hprog1 & Hps1
          & Htot1 & Hreg1).
    assert (Hdom_reg : forall f, is_Some (file_registry w1 !! f)
                                 <-> is_Some (file_registry w !! f)).
    { intros f. rewrite Hreg1. destruct (decide (fid = f)) as [<-|Hne].
      - rewrite lookup_insert_eq, Hreg. split; eauto.
      - by rewrite lookup_insert_ne. }
    assert (Hdom_prog : forall f, is_Some (progress (the_status w1) !! f)
                                  <-> is_Some (progress (the_status w) !! f)).
    { intros f. rewrite Hprog1. destruct (decide (fid = f)) as [<-|Hne].
      - rewrite lookup_insert_eq, Hp. split; eauto.
      - by rewrite lookup_insert_ne. }
    destruct (IH (S start) w1) as
      (w' & Hrun & Hs & He & Ht & Hpf & Hdr & Hdp & Hout & Hin).
    { intros j f Hj. destruct (Hall (S j) f Hj) as (H1 & H2 & H3 & H4).
      replace (S start + j)%nat with (start + S j)%nat by lia.
      split; [by apply Hdom_reg|]. split; [by apply Hdom_prog|]. done. }
    exists w'. split.
    { cbn [enumerate for_each]. unfold mbind, M_bind. by rewrite Hrun1. }
    split; [congruence|]. split; [congruence|]. split.
    { rewrite Ht, Ht1. cbn [loaded_rows]. rewrite Hd. lia. }
    split.
    { intros _. destruct ids as [|fid' ids'].
      - simpl in Hrun. injection Hrun as <-. rewrite Hpf1. unfold len. simpl. lia.
      - rewrite Hpf by done. unfold len. simpl. lia. }
    split; [intros f; by rewrite Hdr|]. split; [intros f; by rewrite Hdp|].
    split.
    { intros f Hf. apply not_elem_of_cons in Hf as [Hne Hf].
      destruct (Hout f Hf) as (-> & -> & ->).
      rewrite Hprog1, Hres1, Hreg1. by rewrite !lookup_insert_ne. }
    intros f Hf. destruct (decide (f ∈ ids)) as [Hfin|Hfout]; [by apply Hin|].
    apply elem_of_cons in Hf as [->|?]; [|done].
    destruct (Hout fid Hfout) as (Hp' & Hr' & Hg').
    unfold file_completed. rewrite Hp', Hr', Hg', Hprog1, Hres1, Hreg1.
    rewrite !lookup_insert_eq. eexists _, _, _. by repeat split.
Qed.

End completion.

(** ** Starting a batch and running it to the end *)

Section started.

Lemma valid_files_ids registry file_ids :
  map fst (valid_files registry file_ids) = known_ids registry file_ids.
Proof.
  unfold valid_files, known_ids.
  induction file_ids as [|fid ids IH]; [done|]. cbn [omap list_omap List.filter].
  destruct (registry !! fid) as [info|] eqn:Hreg; simpl; [by f_equal | done].
Qed.

Lemma valid_files_entry registry file_ids fid info :
  (fid, info) ∈ valid_files registry file_ids -> registry !! fid = Some info.
Proof.
  unfold valid_files. rewrite list_elem_of_omap.
  intros (f & _ & Hf). destruct (registry !! f) as [i|] eqn:Hreg; [|done].
  simpl in Hf. by injection Hf as <- <-.
Qed.

Lemma elem_of_known_ids registry file_ids fid :
  fid ∈ known_ids registry file_ids <->
  fid ∈ file_ids /\ is_Some (registry !! fid).
Proof.
  unfold known_ids. rewrite list_elem_of_In, filter_In, <- list_elem_of_In.
  by rewrite bool_decide_eq_true.
Qed.

(** A lookup in a dict built by comprehension over the valid ids. *)
Lemma lookup_valid {V} (f : string * FileInfo -> V) registry file_ids fid :
  (list_to_map (map (fun p => (fst p, f p)) (valid_files registry file_ids))
     : gmap string V) !! fid
  = if bool_decide (fid ∈ file_ids)
    then (fun info => f (fid, info)) <$> registry !! fid
    else None.
Proof.
  unfold valid_files. induction file_ids as [|id ids IH]; [done|].
  cbn [omap list_omap].
  destruct (decide (id = fid)) as [->|Hne].
  - rewrite (bool_decide_eq_true_2 (fid ∈ fid :: ids)) by left.
    destruct (registry !! fid) as [info|] eqn:Hreg; simpl.
    + by rewrite lookup_insert_eq.
    + rewrite IH. by case_bool_decide.
  - assert (Hb : bool_decide (fid ∈ id :: ids) = bool_decide (fid ∈ ids)).
    { apply bool_decide_ext. rewrite elem_of_cons.
      split; [intros [?|?]; [congruence|done] | by right]. }
    rewrite Hb, <- IH.
    destruct (registry !! id) as [info|]; simpl; [|done].
    by rewrite lookup_insert_ne.
Qed.

Lemma start_batch_process_Respond registry file_ids st0 total_files ids :
  start_batch_process registry file_ids = Respond (st0, total_files, ids) ->
  ids = known_ids registry file_ids /\ ids ≠ [] /\ total_files = len ids /\
  status st0 = "running" /\ error_message st0 = EmptyString /\
  total_rows st0 = 0 /\ processed_files st0 = 0 /\
  forall fid,
    results st0 !! fid
    = (if bool_decide (fid ∈ ids) then Some [] else None) /\
    progress st0 !! fid
    = (if bool_decide (fid ∈ ids)
       then (fun info => {| processed := 0; total := row_count info;
                            progress_status := "pending" |}) <$> registry !! fid
       else None).
Proof.
  unfold start_batch_process. case_bool_decide as Hvalid; [done|].
  intros [= <- <- <-]. rewrite valid_files_ids.
  assert (Hne : known_ids registry file_ids ≠ []).
  { rewrite <- valid_files_ids. by destruct (valid_files registry file_ids). }
  split; [done|]. split; [done|]. split.
  { unfold len. by rewrite <- valid_files_ids, length_map. }
  cbn. repeat (split; [done|]). intros fid.
  assert (Hb : bool_decide (fid ∈ known_ids registry file_ids)
               = bool_decide (fid ∈ file_ids) && bool_decide (is_Some (registry !! fid))).
  { apply eq_true_iff_eq. rewrite andb_true_iff, !bool_decide_eq_true.
    apply elem_of_known_ids. }
  rewrite Hb, !lookup_valid.
  destruct (bool_decide (fid ∈ file_ids)); [|done]. simpl.
  by destruct (registry !! fid).
Qed.

(** X26. [start_batch_process] keeps, in request order and with their
    repetitions, the requested ids that the registry knows; it answers 400
    exactly when there is none, and otherwise creates a running status
    object whose results and progress have an entry for exactly those ids:
    an empty result list, and a pending progress entry with the row count
    of the registry. *)
Theorem start_batch_process_validates (registry : gmap string FileInfo)
    (file_ids : list string) :
  (start_batch_process registry file_ids
   = HTTPException 400 "No valid files to process"
   <-> forall fid, fid ∈ file_ids -> registry !! fid = None) /\
  (forall st0 total_files ids,
     start_batch_process registry file_ids = Respond (st0, total_files, ids) ->
     ids = known_ids registry file_ids /\ ids ≠ [] /\ total_files = len ids /\
     status st0 = "running" /\
     forall fid,
       (fid ∈ ids <-> fid ∈ file_ids /\ is_Some (registry !! fid)) /\
       results st0 !! fid = (if bool_decide (fid ∈ ids) then Some [] else None) /\
       progress st0 !! fid
       = (if bool_decide (fid ∈ ids)
          then (fun info => {| processed := 0; total := row_count info;
                               progress_status := "pending" |})
               <$> registry !! fid
          else None)).
Proof.
  split.
  - unfold start_batch_process. split.
    + case_bool_decide as Hvalid; [|done]. intros _ fid Hfid.
      destruct (registry !! fid) as [info|] eqn:Hreg; [|done]. exfalso.
      assert (Hin : fid ∈ known_ids registry file_ids)
        by (apply elem_of_known_ids; eauto).
      rewrite <- valid_files_ids, Hvalid in Hin. by apply elem_of_nil in Hin.
    + intros Hnone. rewrite bool_decide_eq_true_2; [done|].
      destruct (valid_files registry file_ids) as [|[fid info] rest] eqn:Hv; [done|].
      exfalso.
      assert (Hin : (fid, info) ∈ valid_files registry file_ids)
        by (rewrite Hv; left).
      pose proof (valid_files_entry _ _ _ _ Hin) as Hreg.
      assert (Hfid : fid ∈ known_ids registry file_ids).
      { rewrite <- valid_files_ids, Hv. left. }
      apply elem_of_known_ids in Hfid as [Hfid _].
      rewrite (Hnone fid Hfid) in Hreg. done.
  - intros st0 total_files ids Hstart.
    destruct (start_batch_process_Respond _ _ _ _ _ Hstart)
      as (Hids & Hne & Htot & Hst & _ & _ & _ & Hmaps).
    split; [done|]. split; [done|]. split; [done|]. split; [done|].
    intros fid. split; [rewrite Hids; apply elem_of_known_ids | apply Hmaps].
Qed.

Variable env : Env.
Variable qa_count : Z.

Lemma started_entries registry file_ids st0 total_files ids fid :
  start_batch_process registry file_ids = Respond (st0, total_files, ids) ->
  fid ∈ ids ->
  is_Some (registry !! fid) /\ is_Some (progress st0 !! fid).
Proof.
  intros Hstart Hfid.
  destruct (start_batch_process_Respond _ _ _ _ _ Hstart)
    as (Hids & _ & _ & _ & _ & _ & _ & Hmaps).
  assert (Hreg : is_Some (registry !! fid)).
  { rewrite Hids in Hfid. by apply elem_of_known_ids in Hfid as [_ ?]. }
  split; [done|]. destruct (Hmaps fid) as [_ ->].
  rewrite bool_decide_eq_true_2 by done. destruct Hreg as [info ->]. eauto.
Qed.

(** X27. A started batch runs to the end when nothing outside fails: for
    the status object and the ids of [start_batch_process], with the
    registry unchanged since, if every table loads and every metadata
    write succeeds, [process_files_batch] ends with status completed and
    no error message, with as many processed files as the batch has, with
    the total of the rows of the loaded tables, and with every file of the
    batch completed: progress entry completed, results stored, and the
    registry entry completed with the number of results as processed
    count. *)
Theorem started_batch_runs_to_completion (registry : gmap string FileInfo)
    (file_ids : list string) (st0 : ProcessStatus) (total_files : Z)
    (ids : list string) :
  start_batch_process registry file_ids = Respond (st0, total_files, ids) ->
  (forall j fid, ids !! j = Some fid ->
     is_ok (read_csv env j (get_file_path env fid)) = true /\
     save_file_metadata env j fid = Ok tt) ->
  let run :=
    process_files_batch env ids qa_count
      {| the_status := st0; file_registry := registry; submitted := [] |} in
  fst run = Ok tt /\
  status (the_status (snd run)) = "completed" /\
  error_message (the_status (snd run)) = EmptyString /\
  processed_files (the_status (snd run)) = total_files /\
  total_rows (the_status (snd run)) = loaded_rows env 0 ids /\
  forall fid, fid ∈ ids -> file_completed fid (snd run).
Proof.
  intros Hstart Hio. cbv zeta.
  destruct (start_batch_process_Respond _ _ _ _ _ Hstart)
    as (Hids & Hne & Htot & Hst & Herr & Hrows & Hpf & Hmaps).
  set (w0 := {| the_status := st0; file_registry := registry; submitted := [] |}).
  destruct (batch_files_run env qa_count ids 0 w0)
    as (w1 & Hrun & Hs1 & He1 & Ht1 & Hpf1 & _ & _ & _ & Hdone).
  { intros j fid Hj. destruct (Hio j fid Hj) as [Hload Hsave].
    destruct (started_entries _ _ _ _ _ fid Hstart) as [Hreg Hprog].
    { by eapply list_elem_of_lookup_2. }
    done. }
  unfold process_files_batch, try_except, mbind, M_bind. rewrite Hrun.
  cbn. split; [done|]. split; [done|]. split; [by rewrite He1|].
  split; [rewrite (Hpf1 Hne); cbn; lia|]. split; [rewrite Ht1; cbn; lia|].
  intros fid Hfid. exact (Hdone fid Hfid).
Qed.

Lemma enumerate_app {A} (start : nat) (l1 l2 : list A) :
  enumerate start (l1 ++ l2)
  = enumerate start l1 ++ enumerate (start + length l1) l2.
Proof.
  revert start. induction l1 as [|x l1 IH]; intros start; simpl.
  - by rewrite Nat.add_0_r.
  - rewrite IH. do 3 f_equal. lia.
Qed.

Lemma for_each_app {W A} (l1 l2 : list A) (body : A -> M W unit) (w : W) :
  for_each (l1 ++ l2) body w =
  match for_each l1 body w with
  | (Ok _, w1) => for_each l2 body w1
  | (Raise e, w1) => (Raise e, w1)
  end.
Proof.
  revert w. induction l1 as [|x l1 IH]; intros w; [done|].
  cbn [app for_each]. unfold mbind, M_bind.
  destruct (body x w) as [[[]|e] w1]; [apply IH | done].
Qed.

Lemma batch_file_load_fails k fid (w : World ProcessStatus) e :
  is_Some (file_registry w !! fid) ->
  read_csv env k (get_file_path env fid) = Raise e ->
  batch_file env qa_count (k, fid) w = (Raise e, w).
Proof.
  intros [info Hreg] Hload. unfold batch_file, mbind at 1, M_bind at 1, get.
  rewrite Hreg. unfold CSVStorage_new. by rewrite Hload.
Qed.

Lemma for_each_cons_raises {W A} (x : A) (l : list A) (body : A -> M W unit)
    (w : W) e :
  body x w = (Raise e, w) -> for_each (x :: l) body w = (Raise e, w).
Proof. intros H. cbn [for_each]. unfold mbind, M_bind. by rewrite H. Qed.

(** The [except] clause leaves alone every progress entry that is not
    being processed. *)
Lemma batch_failed_effect e (w : World ProcessStatus) :
  let w' := snd (batch_failed e w) in
  fst (batch_failed e w) = Ok tt /\
  status (the_status w') = "error" /\
  error_message (the_status w') = exn_str e /\
  total_rows (the_status w') = total_rows (the_status w) /\
  processed_files (the_status w') = processed_files (the_status w) /\
  results (the_status w') = results (the_status w) /\
  file_registry w' = file_registry w /\
  forall f p, progress (the_status w) !! f = Some p ->
              progress_status p ≠ "processing" ->
              progress (the_status w') !! f = Some p.
Proof.
  cbv zeta. unfold batch_failed, on_status, modify, mbind, M_bind. cbn.
  destruct (string_empty (current_file (the_status w))); cbn;
    repeat (split; [done|]); intros f p Hp Hproc; [done|].
  rewrite lookup_fmap, Hp. cbn. by rewrite bool_decide_eq_false_2.
Qed.

(** X28. How a table that cannot be read is reported. In a started batch
    whose files before some file all load and save, if the table of that
    file fails to load with an exception e, [process_files_batch] returns
    with status error and the message of e; the files before it are
    completed; and the entries of every other file, the failing one
    included, are what [start_batch_process] made them: its progress entry
    still says pending, not error. *)
Theorem batch_reports_unreadable_table (registry : gmap string FileInfo)
    (file_ids : list string) (st0 : ProcessStatus) (total_files : Z)
    (ids done rest : list string) (fid : string) (e : exn) :
  start_batch_process registry file_ids = Respond (st0, total_files, ids) ->
  ids = done ++ fid :: rest ->
  (forall j f, done !! j = Some f ->
     is_ok (read_csv env j (get_file_path env f)) = true /\
     save_file_metadata env j f = Ok tt) ->
  read_csv env (length done) (get_file_path env fid) = Raise e ->
  let run :=
    process_files_batch env ids qa_count
      {| the_status := st0; file_registry := registry; submitted := [] |} in
  fst run = Ok tt /\
  status (the_status (snd run)) = "error" /\
  error_message (the_status (snd run)) = exn_str e /\
  total_rows (the_status (snd run)) = loaded_rows env 0 done /\
  (forall f, f ∈ done -> file_completed f (snd run)) /\
  (forall f, f ∉ done ->
     progress (the_status (snd run)) !! f = progress st0 !! f /\
     results (the_status (snd run)) !! f = results st0 !! f /\
     file_registry (snd run) !! f = registry !! f) /\
  (fid ∉ done ->
   exists p, progress (the_status (snd run)) !! fid = Some p /\
             progress_status p = "pending").
Proof.
  intros Hstart Hids Hio Hload. cbv zeta.
  destruct (start_batch_process_Respond _ _ _ _ _ Hstart)
    as (_ & _ & _ & Hst & Herr & Hrows & Hpf & Hmaps).
  set (w0 := {| the_status := st0; file_registry := registry; submitted := [] |}).
  assert (Hentries : forall f, f ∈ ids ->
            is_Some (registry !! f) /\ is_Some (progress st0 !! f)).
  { intros f Hf. by eapply started_entries. }
  destruct (batch_files_run env qa_count done 0 w0)
    as (w1 & Hrun & Hs1 & He1 & Ht1 & _ & Hdr & _ & Hout & Hdone).
  { intros j f Hj. destruct (Hio j f Hj) as [Hl Hs].
    destruct (Hentries f) as [Hreg Hprog]; [|done].
    rewrite Hids, elem_of_app. left. by eapply list_elem_of_lookup_2. }
  assert (Hfile : batch_file env qa_count ((0 + length done)%nat, fid) w1
                  = (Raise e, w1)).
  { apply batch_file_load_fails; [|done].
    apply Hdr. apply (Hentries fid). rewrite Hids, elem_of_app. right. left. }
  assert (Hloop : for_each (enumerate 0 ids) (batch_file env qa_count) w0
                  = (Raise e, w1)).
  { rewrite Hids, enumerate_app, for_each_app, Hrun.
    cbn [enumerate]. by apply for_each_cons_raises. }
  assert (Hall : process_files_batch env ids qa_count w0 = batch_failed e w1).
  { unfold process_files_batch, try_except, mbind, M_bind. by rewrite Hloop. }
  rewrite Hall.
  destruct (batch_failed_effect e w1)
    as (Hf1 & Hf2 & Hf3 & Hf4 & _ & Hf6 & Hf7 & Hkeep).
  assert (Hpending : forall f, f ∉ done ->
            progress (the_status (snd (batch_failed e w1))) !! f = progress st0 !! f).
  { intros f Hf. destruct (Hout f Hf) as (Hp & _ & _). cbn in Hp.
    destruct (progress st0 !! f) as [p|] eqn:Hp0.
    - apply Hkeep; [done|]. destruct (Hmaps f) as [_ Hpf0].
      rewrite Hp0 in Hpf0. case_bool_decide; [|done].
      destruct (registry !! f); [|done]. by injection Hpf0 as ->.
    - destruct (progress (the_status (snd (batch_failed e w1))) !! f) as [p'|] eqn:Hp';
        [|done].
      exfalso. revert Hp'. unfold batch_failed, on_status, modify, mbind, M_bind.
      cbn. destruct (string_empty (current_file (the_status w1))); cbn.
      + by rewrite Hp.
      + by rewrite lookup_fmap, Hp. }
  split; [done|]. split; [done|]. split; [done|].
  split; [rewrite Hf4, Ht1; cbn; lia|]. split; [|split].
  - intros f Hf. destruct (Hdone f Hf) as (p & rs & info & H1 & H2 & H3 & H4 & H5 & H6).
    exists p, rs, info. split.
    { apply Hkeep; [done|]. by rewrite H2. }
    rewrite Hf6, Hf7. done.
  - intros f Hf. destruct (Hout f Hf) as (_ & Hr & Hg).
    split; [by apply Hpending|]. by rewrite Hf6, Hf7.
  - intros Hfid. rewrite (Hpending fid Hfid).
    destruct (Hmaps fid) as [_ ->].
    rewrite bool_decide_eq_true_2 by (rewrite Hids, elem_of_app; right; left).
    destruct (Hentries fid) as [[info ->] _];
      [rewrite Hids, elem_of_app; right; left|].
    eexists. split; [reflexivity|done].
Qed.


End started.

(** Two registered files whose tables load, and a request that also names
    an unknown file. *)
Definition env_all_ok : Env :=
  {| cfg := cfg_default; CSV_FOLDER := "./data";
     APP_MODEL_NAME := "gpt-oss:120b";
     read_csv := fun _ _ => Ok frame_three;
     service := fun _ _ => srv_one_answer;
     save_file_metadata := fun _ _ => Ok tt |}.

Definition registry_two : gmap string FileInfo :=
  list_to_map [("a", file_info_of "a"); ("b", file_info_of "b")].

Lemma started_batch_runs_to_completion_witness :
  exists st0,
    start_batch_process registry_two ["a"; "zzz"; "b"] = Respond (st0, 2, ["a"; "b"]) /\
    let run :=
      process_files_batch env_all_ok ["a"; "b"] 2
        {| the_status := st0; file_registry := registry_two; submitted := [] |} in
    status (the_status (snd run)) = "completed" /\
    processed_files (the_status (snd run)) = 2 /\
    total_rows (the_status (snd run)) = 6.
Proof.
  eexists. split; [reflexivity|]. cbv zeta.
  match goal with |- context [process_files_batch _ _ _ ?w] =>
    destruct (started_batch_runs_to_completion env_all_ok 2 registry_two
                ["a"; "zzz"; "b"] (the_status w) 2 ["a"; "b"] eq_refl)
      as (_ & Hs & _ & Hpf & Ht & _) end.
  - intros j fid _. split; reflexivity.
  - split; [exact Hs|]. split; [exact Hpf | exact Ht].
Defined.

Lemma batch_reports_unreadable_table_witness :
  exists st0,
    start_batch_process registry_two ["a"; "b"] = Respond (st0, 2, ["a"; "b"]) /\
    let run :=
      process_files_batch env_two_files ["a"; "b"] 2
        {| the_status := st0; file_registry := registry_two; submitted := [] |} in
    status (the_status (snd run)) = "error" /\
    error_message (the_status (snd run)) = "No columns to parse from file" /\
    exists p, progress (the_status (snd run)) !! "b" = Some p /\
              progress_status p = "pending".
Proof.
  eexists. split; [reflexivity|]. cbv zeta.
  match goal with |- context [process_files_batch _ _ _ ?w] =>
    destruct (batch_reports_unreadable_table env_two_files 2 registry_two
                ["a"; "b"] (the_status w) 2 ["a"; "b"] ["a"] [] "b"
                (ValueError "No columns to parse from file") eq_refl eq_refl)
      as (_ & Hs & He & _ & _ & _ & Hp) end.
  - intros j f Hj. destruct j as [|j]; [|destruct j; discriminate Hj].
    split; reflexivity.
  - reflexivity.
  - split; [exact Hs|]. split; [exact He|]. apply Hp.
    intros Hin. apply list_elem_of_In in Hin. simpl in Hin.
    destruct Hin as [Hin|[]]. discriminate Hin.
Defined.

(** The table of the only file loads; its metadata cannot be written. *)
Definition env_read_only : Env :=
  {| cfg := cfg_default; CSV_FOLDER := "./data";
     APP_MODEL_NAME := "gpt-oss:120b";
     read_csv := fun _ _ => Ok frame_three;
     service := fun _ _ => srv_one_answer;
     save_file_metadata := fun _ _ => Raise (OSError "Read-only file system") |}.

